(** * tornet: the IP-rotation script, embedded and verified

    A shallow embedding of [src/tornet/tornet.py].  Python text is modelled
    as Rocq strings holding its UTF-8 bytes, integers as [Z], and every
    function that talks to the outside (processes, sockets, HTTP, the clock,
    signals) as a computation in a small monad that threads a logical clock,
    collects the calls it makes as a list of events and may raise a Python
    exception. *)

From Stdlib Require Import String Ascii ZArith NArith List Bool Lia Arith.
Import ListNotations.

Local Open Scope string_scope.
Local Open Scope Z_scope.

(* ================================================================== *)
(** ** Python builtins used by the script *)
(* ================================================================== *)

Module Py.

Definition code (c : ascii) : nat := nat_of_ascii c.

Definition byte (c : ascii) : N := N_of_ascii c.

(** *** Characters

    A text is stored as the bytes of its UTF-8 encoding.  [chars] reads the
    characters back: a well-formed sequence of two to four bytes is one
    character, and any other byte is the character of that code, so that a
    text may also be given one byte per character where its characters lie
    below 256. *)

Definition is_cont (b : N) : bool := ((128 <=? b) && (b <=? 191))%N.

Definition point2 (a b : N) : N := ((a - 192) * 64 + (b - 128))%N.
Definition point3 (a b c : N) : N :=
  (((a - 224) * 64 + (b - 128)) * 64 + (c - 128))%N.
Definition point4 (a b c d : N) : N :=
  ((((a - 240) * 64 + (b - 128)) * 64 + (c - 128)) * 64 + (d - 128))%N.

Definition seq2 (a b : N) : bool :=
  ((194 <=? a) && (a <=? 223) && is_cont b)%N.
Definition seq3 (a b c : N) : bool :=
  ((224 <=? a) && (a <=? 239) && is_cont b && is_cont c
   && (2048 <=? point3 a b c)
   && negb ((55296 <=? point3 a b c) && (point3 a b c <=? 57343)))%N.
Definition seq4 (a b c d : N) : bool :=
  ((240 <=? a) && (a <=? 244) && is_cont b && is_cont c && is_cont d
   && (65536 <=? point4 a b c d) && (point4 a b c d <=? 1114111))%N.

(** A character: its code point and the bytes that spell it. *)
Record char := mkChar { point : N; spelling : string }.

Definition single (a : ascii) : char := mkChar (byte a) (String a EmptyString).

Fixpoint chars (s : string) : list char :=
  match s with
  | EmptyString => []
  | String a r1 =>
      match r1 with
      | String b r2 =>
          if seq2 (byte a) (byte b) then
            mkChar (point2 (byte a) (byte b)) (String a (String b EmptyString))
            :: chars r2
          else
            match r2 with
            | String c r3 =>
                if seq3 (byte a) (byte b) (byte c) then
                  mkChar (point3 (byte a) (byte b) (byte c))
                    (String a (String b (String c EmptyString)))
                  :: chars r3
                else
                  match r3 with
                  | String d r4 =>
                      if seq4 (byte a) (byte b) (byte c) (byte d) then
                        mkChar (point4 (byte a) (byte b) (byte c) (byte d))
                          (String a (String b (String c (String d EmptyString))))
                        :: chars r4
                      else single a :: chars r1
                  | EmptyString => single a :: chars r1
                  end
            | EmptyString => single a :: chars r1
            end
      | EmptyString => [single a]
      end
  end.

(** The text a list of characters spells. *)
Fixpoint spell (l : list char) : string :=
  match l with
  | c :: r => spelling c ++ spell r
  | [] => EmptyString
  end.

(** [c.isspace()]: the characters [str.strip()] removes. *)
Definition isspace (c : N) : bool :=
  ((9 <=? c) && (c <=? 13) || (28 <=? c) && (c <=? 32) || (c =? 133) || (c =? 160)
   || (c =? 5760) || (8192 <=? c) && (c <=? 8202) || (c =? 8232) || (c =? 8233)
   || (c =? 8239) || (c =? 8287) || (c =? 12288))%N.

(** The blanks [int()] accepts around a number: the above without the
    separators FS..US. *)
Definition isspace_int (c : N) : bool :=
  isspace c && negb ((28 <=? c) && (c <=? 31))%N.

(** The zero of each run of ten decimal digits (Unicode 14, category Nd). *)
Definition digit_zeros : list N :=
  [48; 1632; 1776; 1984; 2406; 2534; 2662; 2790; 2918; 3046; 3174; 3302; 3430;
   3558; 3664; 3792; 3872; 4160; 4240; 6112; 6160; 6470; 6608; 6784; 6800; 6992;
   7088; 7232; 7248; 42528; 43216; 43264; 43472; 43504; 43600; 44016; 65296;
   66720; 68912; 69734; 69872; 69942; 70096; 70384; 70736; 70864; 71248; 71360;
   71472; 71904; 72016; 72784; 73040; 73120; 92768; 92864; 93008; 120782;
   120792; 120802; 120812; 120822; 123200; 123632; 125264; 130032]%N.

(** The value of a decimal digit. *)
Definition digit_value (c : N) : option Z :=
  match find (fun z => (z <=? c) && (c <=? z + 9))%N digit_zeros with
  | Some z => Some (Z.of_N (c - z))
  | None => None
  end.

(** [sys.get_int_max_str_digits()], as the interpreter starts. *)
Definition max_str_digits : N := 4300.

Definition is_empty (s : string) : bool :=
  match s with EmptyString => true | _ => false end.

Fixpoint lstrip_chars (l : list char) : list char :=
  match l with
  | c :: r => if isspace (point c) then lstrip_chars r else l
  | [] => []
  end.

Fixpoint rstrip_chars (l : list char) : list char :=
  match l with
  | c :: r =>
      match rstrip_chars r with
      | [] => if isspace (point c) then [] else [c]
      | r' => c :: r'
      end
  | [] => []
  end.

(** [s.strip()] *)
Definition strip (s : string) : string :=
  spell (rstrip_chars (lstrip_chars (chars s))).

(** [c in s] for a one-character [c] below 128. *)
Fixpoint has_char (c : ascii) (s : string) : bool :=
  match s with
  | String d r => Ascii.eqb c d || has_char c r
  | EmptyString => false
  end.

(** [s.split(c, 1)] on a string that contains [c]: the text before the
    first [c] and the text after it. *)
Fixpoint split_once (c : ascii) (s : string) : string * string :=
  match s with
  | String d r =>
      if Ascii.eqb c d then (EmptyString, r)
      else let (a, b) := split_once c r in (String d a, b)
  | EmptyString => (EmptyString, EmptyString)
  end.

(** [needle in hay] *)
Fixpoint contains (needle hay : string) : bool :=
  String.prefix needle hay ||
  match hay with
  | String _ r => contains needle r
  | EmptyString => false
  end.

Definition lower_char (c : ascii) : ascii :=
  if ((65 <=? code c) && (code c <=? 90))%nat
  then ascii_of_nat (code c + 32) else c.

(** [s.lower()], for the letters A to Z; the script lowers only the
    platform's name and process names, and compares them with ASCII
    literals. *)
Fixpoint lower (s : string) : string :=
  match s with
  | String c r => String (lower_char c) (lower r)
  | EmptyString => EmptyString
  end.

(** [sep.join(parts)] *)
Fixpoint join (sep : string) (parts : list string) : string :=
  match parts with
  | [] => EmptyString
  | [p] => p
  | p :: rest => p ++ sep ++ join sep rest
  end.

(** The digits of a base-10 literal: at least one digit, single
    underscores only between digits, then optional blanks up to the end,
    and no more digits than the interpreter converts.  [seen] says a digit
    has been read, [us] that the previous character was an underscore,
    [count] how many digits were read. *)
Fixpoint int_digits (seen us : bool) (count : N) (acc : Z) (l : list N) : option Z :=
  match l with
  | [] =>
      if seen && negb us && (count <=? max_str_digits)%N then Some acc else None
  | c :: r =>
      match digit_value c with
      | Some v => int_digits true false (N.succ count) (10 * acc + v) r
      | None =>
          if (c =? 95)%N then
            if seen && negb us then int_digits true true count acc r else None
          else if isspace_int c then
            if seen && negb us && forallb isspace_int r
               && (count <=? max_str_digits)%N
            then Some acc else None
          else None
      end
  end.

Fixpoint lskip_int (l : list N) : list N :=
  match l with
  | c :: r => if isspace_int c then lskip_int r else l
  | [] => []
  end.

(** [int] on the code points of a text. *)
Definition int_points (l : list N) : option Z :=
  match lskip_int l with
  | c :: r =>
      if (c =? 43)%N then int_digits false false 0 0 r
      else if (c =? 45)%N then option_map Z.opp (int_digits false false 0 0 r)
      else int_digits false false 0 0 (c :: r)
  | [] => None
  end.

(** [int(s)] on text; [None] stands for [ValueError]. *)
Definition int (s : string) : option Z := int_points (map point (chars s)).

(** Truth value of an optional string ([None] and the empty string are false). *)
Definition truthy (x : option string) : bool :=
  match x with
  | Some s => negb (is_empty s)
  | None => false
  end.

End Py.

(* ================================================================== *)
(** ** The outside world *)
(* ================================================================== *)

Inductive Signal := SIGINT | SIGQUIT | SIGBREAK | SIGHUP | SIGTERM.

Definition Signal_eqb (a b : Signal) : bool :=
  match a, b with
  | SIGINT, SIGINT | SIGQUIT, SIGQUIT | SIGBREAK, SIGBREAK | SIGHUP, SIGHUP
  | SIGTERM, SIGTERM => true
  | _, _ => false
  end.

(** What [subprocess.run(..., capture_output=True, text=True)] hands back. *)
Record Completed := mkCompleted {
  returncode : Z;
  stdout : string;
  stderr : string
}.

(** What [requests.get] does: a response with its status and body, or one
    of the [requests.RequestException]s of a failed exchange. *)
Inductive HttpOutcome :=
| HttpResponse (status : Z) (text : string)
| HttpTimeout
| HttpConnectionError.

(** What a socket operation on the control port does. *)
Inductive SockOutcome (A : Type) :=
| SockOk (a : A)
| SockRefused
| SockTimedOut
| SockFailed (msg : string).
Arguments SockOk {A} a.
Arguments SockRefused {A}.
Arguments SockTimedOut {A}.
Arguments SockFailed {A} msg.

Inductive RegHive := HKEY_CURRENT_USER | HKEY_LOCAL_MACHINE.

(** Everything the script asks of its environment.  The first group is
    fixed during a run; the second is indexed by the logical clock, so that
    the same request may be answered differently at different moments. *)
Record World := mkWorld {
  platform_system : string;                    (* platform.system() *)
  geteuid : Z;                                 (* os.geteuid() *)
  which : string -> bool;                      (* shutil.which(x) is not None *)
  path_exists : string -> bool;                (* os.path.exists *)
  environ : string -> option string;           (* os.environ.get *)
  path_join : list string -> string;           (* os.path.join *)
  path_dirname : string -> string;             (* os.path.dirname *)
  pathsep : string;                            (* os.pathsep *)
  executable : string;                         (* sys.executable *)
  winreg_query : RegHive -> string -> string -> option string;
  read_file : string -> option string;         (* open(p).read(), None: it raises *)
  psutil_installed : bool;
  proc : nat -> list string -> Completed;      (* a spawned command's result *)
  kills_caller : nat -> list string -> bool;   (* the command sends SIGTERM to the
                                                  process that spawned it, as
                                                  pkill -f does when its pattern
                                                  matches the caller *)
  http : nat -> string -> bool -> HttpOutcome; (* url, through the proxy? *)
  sock_connect : nat -> Z -> SockOutcome unit; (* connect to 127.0.0.1:port *)
  sock_recv : nat -> SockOutcome string;
  sock_connect_ex : nat -> Z -> option Z;      (* connect_ex, None: it raises *)
  process_names : nat -> list (option string); (* psutil.process_iter(['name']) *)
  randint : nat -> Z -> Z -> Z;                (* random.randint(a, b), a <= b *)
  sleep_refused : nat -> Z -> bool;            (* the system call of time.sleep
                                                  fails with EINVAL *)
  pending_signal : nat -> option Signal        (* a signal arriving in a sleep *)
}.

(** The calls the script makes, in order. *)
Inductive Event :=
| EPrint (text : string)
| ESleep (secs : Z)
| ERun (cmd : list string)
| EGet (url : string) (proxied : bool)
| EConnect (port : Z)
| EConnectEx (port : Z)
| ESend (data : string)
| ERecv
| EClose
| EProcessIter
| EHandler (sig : Signal)
| ESetPath (dir : string).

(** Python exceptions the script can meet. *)
Inductive PyExc :=
| SystemExit (code : Z)
| KeyboardInterrupt
| ValueError
| ImportError
| NameError (name : string)
| RequestException
| CalledProcessError (r : Completed)
| FileNotFoundError
| ConnectionRefusedError
| SocketTimeout
| WindowsError
| TypeError
| OverflowError
| OSError (msg : string).

(** [except Exception]: everything but the two [BaseException]-only ones. *)
Definition is_Exception (e : PyExc) : bool :=
  match e with
  | SystemExit _ | KeyboardInterrupt => false
  | _ => true
  end.

(** A bare [except:]. *)
Definition any_exception (_ : PyExc) : bool := true.

Definition is_KeyboardInterrupt (e : PyExc) : bool :=
  match e with KeyboardInterrupt => true | _ => false end.
Definition is_ValueError (e : PyExc) : bool :=
  match e with ValueError => true | _ => false end.
Definition is_ImportError (e : PyExc) : bool :=
  match e with ImportError => true | _ => false end.
Definition is_RequestException (e : PyExc) : bool :=
  match e with RequestException => true | _ => false end.
Definition is_CalledProcessError (e : PyExc) : bool :=
  match e with CalledProcessError _ => true | _ => false end.
Definition is_ConnectionRefusedError (e : PyExc) : bool :=
  match e with ConnectionRefusedError => true | _ => false end.
Definition is_socket_timeout (e : PyExc) : bool :=
  match e with SocketTimeout => true | _ => false end.
Definition is_WindowsError (e : PyExc) : bool :=
  match e with WindowsError => true | _ => false end.

(** [str(e)] *)
Definition exc_str (e : PyExc) : string :=
  match e with
  | SystemExit _ => EmptyString
  | KeyboardInterrupt => EmptyString
  | ValueError => "invalid literal"
  | ImportError => "No module"
  | NameError n => "name '" ++ n ++ "' is not defined"
  | RequestException => "request failed"
  | CalledProcessError _ => "Command returned non-zero exit status"
  | FileNotFoundError => "No such file or directory"
  | ConnectionRefusedError => "Connection refused"
  | SocketTimeout => "timed out"
  | WindowsError => "The system cannot find the file specified"
  | TypeError => "an integer is required"
  | OverflowError => "timestamp too large to convert to C _PyTime_t"
  | OSError m => m
  end.

(* ================================================================== *)
(** ** The monad of script computations *)
(* ================================================================== *)

(** Process state the script reads and writes: the logical clock and the
    signals for which [signal_handler] is installed. *)
Record State := mkState {
  clock : nat;
  handlers : list Signal
}.

(** How a computation ends: with a value, with a Python exception, killed
    by a signal nobody handles, or not yet, when a [while True] has used
    up the iterations the observer granted it. *)
Inductive Res (A : Type) :=
| Ret (a : A)
| Raise (e : PyExc)
| Killed (sig : Signal)
| Running.
Arguments Ret {A} a.
Arguments Raise {A} e.
Arguments Killed {A} sig.
Arguments Running {A}.

Record Run (A : Type) := mkRun {
  result : Res A;
  events : list Event;
  final : State
}.
Arguments mkRun {A} result events final.
Arguments result {A} r.
Arguments events {A} r.
Arguments final {A} r.

Definition M (A : Type) : Type := State -> Run A.

Definition ret {A} (a : A) : M A := fun s => mkRun (Ret a) [] s.

Definition raise {A} (e : PyExc) : M A := fun s => mkRun (Raise e) [] s.

Definition bind {A B} (m : M A) (k : A -> M B) : M B := fun s =>
  match m s with
  | mkRun (Ret a) ev s1 =>
      match k a s1 with
      | mkRun r ev' s2 => mkRun r (ev ++ ev') s2
      end
  | mkRun (Raise e) ev s1 => mkRun (Raise e) ev s1
  | mkRun (Killed sig) ev s1 => mkRun (Killed sig) ev s1
  | mkRun Running ev s1 => mkRun Running ev s1
  end.

(** [try: m except <catches> as e: handler e] *)
Definition try_except {A} (m : M A) (catches : PyExc -> bool)
    (handler : PyExc -> M A) : M A := fun s =>
  match m s with
  | mkRun (Raise e) ev s1 =>
      if catches e then
        match handler e s1 with
        | mkRun r ev' s2 => mkRun r (ev ++ ev') s2
        end
      else mkRun (Raise e) ev s1
  | r => r
  end.

Definition emit (e : Event) : M unit := fun s => mkRun (Ret tt) [e] s.

(** Read the clock and advance it: one interaction with the world. *)
Definition tick : M nat := fun s =>
  mkRun (Ret (clock s)) [] (mkState (S (clock s)) (handlers s)).

Definition get_handlers : M (list Signal) := fun s =>
  mkRun (Ret (handlers s)) [] s.

Definition killed {A} (sig : Signal) : M A := fun s => mkRun (Killed sig) [] s.

Definition still_running {A} : M A := fun s => mkRun Running [] s.

Declare Scope py_scope.
Delimit Scope py_scope with py.
Notation "x <- c1 ;; c2" := (bind c1 (fun x => c2))
  (at level 61, c1 at next level, right associativity) : py_scope.
Notation "c1 ;; c2" := (bind c1 (fun _ => c2))
  (at level 61, right associativity) : py_scope.
Local Open Scope py_scope.

(** The process exit status a finished run of [main] leaves behind:
    0 after a normal return, the code of [sys.exit], 1 after a traceback. *)
Inductive Exit := Exited (status : Z) | BySignal (sig : Signal) | NotYet.

Definition exit_of {A} (r : Res A) : Exit :=
  match r with
  | Ret _ => Exited 0
  | Raise (SystemExit c) => Exited c
  | Raise KeyboardInterrupt => BySignal SIGINT
  | Raise _ => Exited 1
  | Killed sig => BySignal sig
  | Running => NotYet
  end.

(* ================================================================== *)
(** ** The script *)
(* ================================================================== *)

Definition esc : string := String (ascii_of_nat 27) EmptyString.
Definition nl : string := String (ascii_of_nat 10) EmptyString.
Definition cr : string := String (ascii_of_nat 13) EmptyString.
Definition dquote : string := String (ascii_of_nat 34) EmptyString.

Definition TOOL_NAME : string := "tornet".
Definition VERSION : string := "2.2.1".

Definition green : string := esc ++ "[92m".
Definition red : string := esc ++ "[91m".
Definition white : string := esc ++ "[97m".
Definition reset : string := esc ++ "[0m".
Definition cyan : string := esc ++ "[36m".

(** The line [log] prints for [msg]. *)
Definition log_line (msg : string) : string :=
  white ++ " [" ++ green ++ "+" ++ white ++ "]" ++ green ++ " " ++ msg ++ reset.

(** The line [warning] and [error] print for [msg]. *)
Definition alert_line (msg : string) : string :=
  white ++ " [" ++ red ++ "!" ++ white ++ "] " ++ red ++ msg ++ reset.

Definition print (text : string) : M unit := emit (EPrint text).

Definition log (msg : string) : M unit := print (log_line msg).

Definition error (msg : string) (exit_code : Z) : M unit :=
  print (alert_line msg) ;;
  if 0 <? exit_code then raise (SystemExit exit_code) else ret tt.

Definition warning (msg : string) : M unit := print (alert_line msg).

(** How one pass through a loop body ends: fall through to the next
    iteration, or [break]. *)
Inductive Flow := Next | Break.

(** [x == lit] for a value that is a string or [None]. *)
Definition is_str (x : option string) (lit : string) : bool :=
  match x with
  | Some s => String.eqb s lit
  | None => false
  end.

(** Truth value of what [is_tor_running] returns ([None] is false). *)
Definition truthy_bool (x : option bool) : bool :=
  match x with
  | Some b => b
  | None => false
  end.

Section Script.

Variable w : World.

Definition current_os : string := Py.lower (platform_system w).

Definition on_windows : bool := String.eqb current_os "windows".

Definition is_root : bool := geteuid w =? 0.

Definition has_sudo : bool := which w "sudo".

(** [subprocess.run(cmd, check=check, capture_output=True, text=True)]:
    the command is looked up as [shutil.which] would, and with [check]
    a non-zero return code becomes [CalledProcessError].  A command that
    sends SIGTERM to the script, for which the script installs no handler,
    ends it there. *)
Definition subprocess_run (cmd : list string) (check : bool) : M Completed :=
  emit (ERun cmd) ;;
  t <- tick ;;
  if which w (hd EmptyString cmd) then
    if kills_caller w t cmd then killed SIGTERM
    else
      let r := proc w t cmd in
      if check && negb (returncode r =? 0) then raise (CalledProcessError r)
      else ret r
  else raise FileNotFoundError.

Definition run_cmd (cmd : list string) (use_sudo check : bool) : M Completed :=
  cmd <- (if use_sudo && negb is_root then
            (if negb has_sudo then
               error "Root privileges required but sudo not available. Run as root or install sudo." 2
             else ret tt) ;;
            ret ("sudo" :: cmd)
          else ret cmd) ;;
  try_except (subprocess_run cmd check) is_CalledProcessError
    (fun e =>
       (if check then
          error ("Command failed: " ++ Py.join " " cmd ++ nl ++ "Error: "
                 ++ match e with
                    | CalledProcessError r => Py.strip (stderr r)
                    | _ => EmptyString
                    end) 1
        else ret tt) ;;
       match e with
       | CalledProcessError r => ret r
       | _ => raise e
       end).

Definition detect_service_manager : option string :=
  if which w "systemctl" && path_exists w "/run/systemd/system" then Some "systemctl"
  else if which w "service" then Some "service"
  else None.

Definition service_action (action : string) : M unit :=
  if on_windows then
    warning ("Windows detected - manual service management required for '" ++ action ++ "'") ;;
    log ("On Windows, please " ++ action ++ " Tor service manually")
  else
    let service_mgr := detect_service_manager in
    cmd <- (if is_str service_mgr "systemctl" then ret ["systemctl"; action; "tor"]
            else if is_str service_mgr "service" then ret ["service"; "tor"; action]
            else
              error "No supported service manager found (systemctl or service)" 3 ;;
              raise (NameError "cmd")) ;;
    result <- run_cmd cmd true false ;;
    if negb (returncode result =? 0) then
      warning ("Failed to " ++ action ++ " tor service: " ++ Py.strip (stderr result))
    else ret tt.

Definition managers : list (string * list string) :=
  [("apt", ["apt-get"]); ("dnf", ["dnf"]); ("yum", ["yum"]);
   ("pacman", ["pacman"]); ("apk", ["apk"]); ("zypper", ["zypper"])].

Definition detect_package_manager : option string :=
  if on_windows then Some "windows"
  else
    option_map fst
      (find (fun m : string * list string => existsb (which w) (snd m)) managers).

Definition stop_services : M unit :=
  (if on_windows then
     log "Windows detected - attempting to stop Tor processes..." ;;
     try_except
       (subprocess_run ["taskkill"; "/F"; "/IM"; "tor.exe"] false ;;
        log "Tor processes stopped on Windows")
       any_exception
       (fun _ => warning "Could not stop Tor processes on Windows")
   else service_action "stop") ;;
  try_except
    (subprocess_run ["pkill"; "-f"; TOOL_NAME] false ;; ret tt)
    any_exception
    (fun _ => ret tt) ;;
  log ("Tor services and " ++ TOOL_NAME ++ " processes stopped.").

(** [hasattr(signal, name)]: SIGBREAK exists on Windows only, SIGQUIT and
    SIGHUP everywhere else. *)
Definition hasattr_signal (sig : Signal) : bool :=
  match sig with
  | SIGINT | SIGTERM => true
  | SIGBREAK => on_windows
  | SIGQUIT | SIGHUP => negb on_windows
  end.

(** The name [signal_handler] works out for the signal it was given. *)
Definition signal_name (sig : Signal) : string :=
  if Signal_eqb sig SIGINT then "SIGINT (Ctrl+C)"
  else if hasattr_signal SIGQUIT && Signal_eqb sig SIGQUIT then "SIGQUIT (Ctrl+\)"
  else if hasattr_signal SIGBREAK && Signal_eqb sig SIGBREAK then "SIGBREAK (Ctrl+Break)"
  else if hasattr_signal SIGHUP && Signal_eqb sig SIGHUP then "SIGHUP"
  else "Unknown".

Definition signal_handler (sig : Signal) : M unit :=
  log ("Received " ++ signal_name sig) ;;
  stop_services ;;
  print (nl ++ white ++ " [" ++ red ++ "!" ++ white ++ "] " ++ red
         ++ "Program terminated by user." ++ reset) ;;
  raise (SystemExit 0).

(** A signal reaching the process: the installed handler runs; without
    one, SIGINT becomes [KeyboardInterrupt] and any other signal ends the
    process. *)
Definition deliver (sig : Signal) : M unit :=
  hs <- get_handlers ;;
  if existsb (Signal_eqb sig) hs then signal_handler sig
  else match sig with
       | SIGINT => raise KeyboardInterrupt
       | _ => killed sig
       end.

(** The longest sleep the interpreter can express: more seconds do not fit
    the 64-bit count of nanoseconds it converts them to. *)
Definition sleep_max : Z := 9223372036.

(** What [time.sleep(secs)] raises, asked at moment [t]: [ValueError] for
    a negative length, [OverflowError] beyond [sleep_max], [OSError] where
    the operating system refuses the length. *)
Definition sleep_error (t : nat) (secs : Z) : option PyExc :=
  if secs <? 0 then Some ValueError
  else if sleep_max <? secs then Some OverflowError
  else if sleep_refused w t secs then Some (OSError "[Errno 22] Invalid argument")
  else None.

(** [time.sleep(secs)].  Signals are delivered while the process sleeps:
    a signal pending at that moment cuts the sleep short. *)
Definition time_sleep (secs : Z) : M unit :=
  t <- tick ;;
  match sleep_error t secs with
  | Some e => raise e
  | None =>
      match pending_signal w t with
      | None => emit (ESleep secs)
      | Some sig => deliver sig
      end
  end.

(** [signal.signal(sig, signal_handler)] *)
Definition signal_signal (sig : Signal) : M unit := fun s =>
  mkRun (Ret tt) [EHandler sig] (mkState (clock s) (sig :: handlers s)).

Definition termination_name (sig : Signal) : string :=
  if hasattr_signal SIGBREAK && Signal_eqb sig SIGBREAK then "SIGBREAK"
  else if hasattr_signal SIGQUIT && Signal_eqb sig SIGQUIT then "SIGQUIT"
  else if hasattr_signal SIGHUP && Signal_eqb sig SIGHUP then "SIGHUP"
  else "Unknown".

(** The [for sig in termination_signals] loop: it stops at the first
    signal it could register. *)
Definition register_first (sigs : list Signal) : M unit :=
  match sigs with
  | sig :: _ =>
      signal_signal sig ;;
      log ("Registered handler for " ++ termination_name sig)
  | [] => ret tt
  end.

Definition setup_signal_handlers : M unit :=
  signal_signal SIGINT ;;
  log "Registered handler for SIGINT (Ctrl+C)" ;;
  termination_signals <-
    (if on_windows then
       log "Running on Windows - use Ctrl+C to interrupt, Ctrl+Break to terminate" ;;
       ret [SIGBREAK]
     else
       log ("Running on " ++ current_os ++ " - use Ctrl+C to interrupt, Ctrl+\ to terminate") ;;
       ret [SIGQUIT; SIGHUP]) ;;
  register_first termination_signals.

Definition print_banner : M unit :=
  print (nl ++ green ++ nl
    ++ "████████╗ ██████╗ ██████╗ ███╗   ██╗███████╗████████╗" ++ nl
    ++ "╚══██╔══╝██╔═══██╗██╔══██╗████╗  ██║██╔════╝╚══██╔══╝" ++ nl
    ++ "   ██║   ██║   ██║██████╔╝██╔██╗ ██║█████╗     ██║   " ++ nl
    ++ "   ██║   ██║   ██║██╔══██╗██║╚██╗██║██╔══╝     ██║   " ++ nl
    ++ "   ██║   ╚██████╔╝██║  ██║██║ ╚████║███████╗   ██║   " ++ nl
    ++ "   ╚═╝    ╚═════╝ ╚═╝  ╚═╝╚═╝  ╚═══╝╚══════╝   ╚═╝   " ++ nl
    ++ white ++ "                    Version: " ++ VERSION ++ nl
    ++ reset).

Definition getenv (name : string) : string :=
  match environ w name with
  | Some v => v
  | None => EmptyString
  end.

(** [os.environ["PATH"] = tor_dir + os.pathsep + os.environ.get("PATH", empty)] *)
Definition prepend_path (tor_dir : string) : M unit :=
  emit (ESetPath (tor_dir ++ pathsep w ++ getenv "PATH")).

Definition tor_exe_paths : list string :=
  [path_join w [getenv "USERPROFILE"; "Desktop"; "Tor Browser"; "Browser"; "TorBrowser"; "Tor"; "tor.exe"];
   path_join w [getenv "PROGRAMFILES"; "Tor Browser"; "Browser"; "TorBrowser"; "Tor"; "tor.exe"];
   path_join w [getenv "PROGRAMFILES(X86)"; "Tor Browser"; "Browser"; "TorBrowser"; "Tor"; "tor.exe"];
   path_join w [getenv "PROGRAMDATA"; "Tor Browser"; "Browser"; "TorBrowser"; "Tor"; "tor.exe"];
   path_join w [getenv "APPDATA"; "Tor Browser"; "Browser"; "TorBrowser"; "Tor"; "tor.exe"];
   path_join w [getenv "LOCALAPPDATA"; "Tor Browser"; "Browser"; "TorBrowser"; "Tor"; "tor.exe"]].

Definition registry_keys : list (RegHive * string) :=
  [(HKEY_CURRENT_USER, "Software\Tor Browser");
   (HKEY_LOCAL_MACHINE, "Software\Tor Browser");
   (HKEY_LOCAL_MACHINE, "Software\Wow6432Node\Tor Browser")].

(** The loop over [registry_keys]; [true] when it returned [True]. *)
Fixpoint tor_in_registry (keys : list (RegHive * string)) : M bool :=
  match keys with
  | (hive, key_path) :: rest =>
      match winreg_query w hive key_path "InstallDirectory" with
      | Some install_path =>
          let tor_path :=
            path_join w [install_path; "Browser"; "TorBrowser"; "Tor"; "tor.exe"] in
          if path_exists w tor_path then
            prepend_path (path_dirname w tor_path) ;; ret true
          else tor_in_registry rest
      | None => tor_in_registry rest
      end
  | [] => ret false
  end.

(** The loop over [common_paths]; [true] when it returned [True]. *)
Fixpoint tor_in_paths (paths : list string) : M bool :=
  match paths with
  | path :: rest =>
      if path_exists w path then prepend_path (path_dirname w path) ;; ret true
      else tor_in_paths rest
  | [] => ret false
  end.

Definition is_tor_installed : M bool :=
  if which w "tor" then ret true
  else if on_windows then
    found <- tor_in_registry registry_keys ;;
    if found then ret true else tor_in_paths tor_exe_paths
  else ret false.

(** [requests.get(url, proxies=..., timeout=...)] followed by the
    response's status and text. *)
Definition requests_get (url : string) (proxied : bool) : M (Z * string) :=
  emit (EGet url proxied) ;;
  t <- tick ;;
  match http w t url proxied with
  | HttpResponse status text => ret (status, text)
  | HttpTimeout | HttpConnectionError => raise RequestException
  end.

(** [response.raise_for_status()] *)
Definition raise_for_status (response : Z * string) : M unit :=
  if (400 <=? fst response) && (fst response <? 600) then raise RequestException
  else ret tt.

Definition tor_name (name : option string) : bool :=
  match name with
  | Some n => negb (Py.is_empty n) && Py.contains "tor.exe" (Py.lower n)
  | None => false
  end.

Definition is_tor_running : M (option bool) :=
  if on_windows then
    try_except
      (result <- subprocess_run
                   ["tasklist"; "/FI"; "IMAGENAME eq tor.exe"; "/FO"; "CSV"; "/NH"] false ;;
       ret (Some (Py.contains "tor.exe" (stdout result))))
      any_exception
      (fun _ =>
         try_except
           ((if psutil_installed w then ret tt else raise ImportError) ;;
            emit EProcessIter ;;
            t <- tick ;;
            ret (Some (existsb tor_name (process_names w t))))
           is_ImportError
           (fun _ =>
              try_except
                (emit (EConnectEx 9050) ;;
                 t <- tick ;;
                 match sock_connect_ex w t 9050 with
                 | Some result => emit EClose ;; ret (Some (result =? 0))
                 | None => raise (OSError "connect_ex")
                 end)
                any_exception
                (fun _ => ret (Some false))))
  else ret None.

Definition get_ip_via_tor : M (option string) :=
  try_except
    (response <- requests_get "https://api.ipify.org" true ;;
     raise_for_status response ;;
     ret (Some (Py.strip (snd response))))
    is_RequestException
    (fun _ =>
       warning "Having trouble connecting to the Tor network. Please wait a moment." ;;
       ret None).

Definition get_ip_direct : M (option string) :=
  try_except
    (response <- requests_get "https://api.ipify.org" false ;;
     raise_for_status response ;;
     ret (Some (Py.strip (snd response))))
    is_RequestException
    (fun _ =>
       warning "Having trouble fetching IP address. Please check your internet connection." ;;
       ret None).

Definition get_current_ip : M (option string) :=
  running <- is_tor_running ;;
  if truthy_bool running then get_ip_via_tor else get_ip_direct.

(** A socket operation's outcome as the exception it raises. *)
Definition sock_result {A} (o : SockOutcome A) : M A :=
  match o with
  | SockOk a => ret a
  | SockRefused => raise ConnectionRefusedError
  | SockTimedOut => raise SocketTimeout
  | SockFailed msg => raise (OSError msg)
  end.

Definition sock_connect_to (port : Z) : M unit :=
  emit (EConnect port) ;;
  t <- tick ;;
  sock_result (sock_connect w t port).

Definition sock_send (data : string) : M unit := emit (ESend data).

Definition sock_recv_text : M string :=
  emit ERecv ;;
  t <- tick ;;
  sock_result (sock_recv w t).

Definition sock_close : M unit := emit EClose.

Definition change_ip_windows : M (option string) :=
  let control_port := 9051 in
  let control_password := EmptyString in
  try_except
    (sock_connect_to control_port ;;
     authenticated <-
       (if negb (Py.is_empty control_password) then
          sock_send ("AUTHENTICATE " ++ dquote ++ control_password ++ dquote ++ cr ++ nl) ;;
          response <- sock_recv_text ;;
          if negb (Py.contains "250" response) then
            warning ("Authentication failed: " ++ response) ;;
            sock_close ;;
            ret false
          else ret true
        else ret true) ;;
     if negb authenticated then ret None
     else
       sock_send ("SIGNAL NEWNYM" ++ cr ++ nl) ;;
       response <- sock_recv_text ;;
       sock_close ;;
       if Py.contains "250" response then
         log "Successfully sent NEWNYM signal to Tor" ;;
         time_sleep 2 ;;
         get_current_ip
       else
         warning ("Failed to change IP: " ++ response) ;;
         ret None)
    is_Exception
    (fun e =>
       match e with
       | ConnectionRefusedError =>
           warning "Could not connect to Tor control port (9051). Is Tor running with ControlPort enabled?" ;;
           ret None
       | SocketTimeout =>
           warning "Timeout connecting to Tor control port" ;;
           ret None
       | _ =>
           warning ("Error changing IP on Windows: " ++ exc_str e) ;;
           ret None
       end).

Definition change_ip : M (option string) :=
  if on_windows then change_ip_windows
  else
    service_action "reload" ;;
    time_sleep 2 ;;
    get_current_ip.

Definition print_ip (ip : string) : M unit :=
  log ("Your IP address is: " ++ white ++ ip).

(** [int(text)] raising [ValueError]. *)
Definition py_int (text : string) : M Z :=
  match Py.int text with
  | Some n => ret n
  | None => raise ValueError
  end.

(** [random.randint(a, b)]: the library's draw from [a..b], [ValueError]
    on an empty range. *)
Definition random_randint (a b : Z) : M Z :=
  if a <=? b then
    t <- tick ;;
    ret (randint w t a b)
  else raise ValueError.

Definition parse_interval (interval_str : string) : M (option Z) :=
  try_except
    (if Py.has_char "-" interval_str then
       let (first, second) := Py.split_once "-" interval_str in
       start <- py_int first ;;
       stop <- py_int second ;;
       n <- random_randint start stop ;;
       ret (Some n)
     else
       n <- py_int interval_str ;;
       ret (Some n))
    is_ValueError
    (fun _ =>
       error "Invalid interval format. Use number or range (e.g., '60' or '30-120')" 8 ;;
       ret None).

(** The statements inside the [try] of either loop of
    [change_ip_repeatedly]: one rotation cycle. *)
Definition cycle (interval_str : string) : M unit :=
  sleep_time <- parse_interval interval_str ;;
  match sleep_time with
  | Some secs => time_sleep secs
  | None => raise TypeError
  end ;;
  new_ip <- change_ip ;;
  if Py.truthy new_ip then
    match new_ip with
    | Some ip => print_ip ip
    | None => ret tt
    end
  else ret tt.

(** The [try ... except KeyboardInterrupt: break] around a cycle. *)
Definition guarded_cycle (interval_str : string) : M Flow :=
  try_except (cycle interval_str ;; ret Next) is_KeyboardInterrupt
    (fun _ => ret Break).

(** [for _ in range(n): body] *)
Fixpoint for_range (n : nat) (body : M Flow) : M unit :=
  match n with
  | O => ret tt
  | S k =>
      flow <- body ;;
      match flow with
      | Next => for_range k body
      | Break => ret tt
      end
  end.

(** [while True: body], observed for at most [fuel] iterations. *)
Fixpoint while_true (fuel : nat) (body : M Flow) : M unit :=
  match fuel with
  | O => still_running
  | S k =>
      flow <- body ;;
      match flow with
      | Next => while_true k body
      | Break => ret tt
      end
  end.

Definition change_ip_repeatedly (fuel : nat) (interval_str : string)
    (count : Z) : M unit :=
  if count =? 0 then while_true fuel (guarded_cycle interval_str)
  else for_range (Z.to_nat count) (guarded_cycle interval_str).

Definition torrc_paths : list string :=
  [path_join w [getenv "USERPROFILE"; "Desktop"; "Tor Browser"; "Browser"; "TorBrowser"; "Data"; "Tor"; "torrc"];
   path_join w [getenv "PROGRAMFILES"; "Tor Browser"; "Browser"; "TorBrowser"; "Data"; "Tor"; "torrc"];
   path_join w [getenv "APPDATA"; "Tor Browser"; "Browser"; "TorBrowser"; "Data"; "Tor"; "torrc"];
   path_join w [getenv "LOCALAPPDATA"; "Tor Browser"; "Browser"; "TorBrowser"; "Data"; "Tor"; "torrc"]].

(** The loop over [config_paths]; [true] when it returned [True]. *)
Fixpoint control_port_configured (paths : list string) : M bool :=
  match paths with
  | config_path :: rest =>
      if path_exists w config_path then
        log ("Found Tor config at: " ++ config_path) ;;
        match read_file w config_path with
        | Some content =>
            if Py.contains "ControlPort" content then
              log "ControlPort is configured in torrc" ;; ret true
            else control_port_configured rest
        | None => control_port_configured rest
        end
      else control_port_configured rest
  | [] => ret false
  end.

Definition check_tor_config_windows : M bool :=
  if negb on_windows then ret true
  else
    log "Checking Tor configuration for Windows..." ;;
    found <- control_port_configured torrc_paths ;;
    if found then ret true
    else
      warning "ControlPort not found in Tor configuration." ;;
      log "To enable IP changing on Windows, add these lines to your torrc file:" ;;
      log "ControlPort 9051" ;;
      log "CookieAuthentication 1" ;;
      log "OR if you want password authentication:" ;;
      log "HashedControlPassword <hashed-password>" ;;
      log EmptyString ;;
      log "Then restart Tor." ;;
      ret false.

(** [start_tor_windows] begins by calling [find_tor_path], a name the
    module never defines: the call raises [NameError] and the rest of the
    body is never reached. *)
Definition start_tor_windows : M bool :=
  raise (NameError "find_tor_path").

Definition check_internet_connection : M (option bool) :=
  try_except
    (requests_get "http://www.google.com" false ;; ret (Some true))
    is_RequestException
    (fun _ =>
       error "Internet connection required but not available." 9 ;;
       ret None).

Definition initialize_environment : M unit :=
  if on_windows then
    log "Windows detected - checking Tor configuration..." ;;
    running <- is_tor_running ;;
    (if negb (truthy_bool running) then
       warning "Tor is not running. Please start Tor Browser or Tor service manually." ;;
       log "Waiting 10 seconds for Tor to start..." ;;
       time_sleep 10
     else ret tt) ;;
    check_tor_config_windows ;;
    running <- is_tor_running ;;
    (if truthy_bool running then
       log "Tor is running. IP changing via control port will be attempted."
     else warning "Tor is still not running. IP changing may fail.") ;;
    log "Configure your browser to use Tor proxy (127.0.0.1:9050) for anonymity."
  else
    service_action "start" ;;
    log "Tor service started. Please wait for Tor to establish connection." ;;
    log "Configure your browser to use Tor proxy (127.0.0.1:9050) for anonymity.".

Definition install_package (package_name : string) : M unit :=
  let pm := detect_package_manager in
  (if negb (Py.truthy pm) then
     error "No supported package manager found. Please install packages manually." 4
   else ret tt) ;;
  (if is_str pm "windows" then
     error ("On Windows, please install " ++ package_name ++ " manually.") 4
   else ret tt) ;;
  if is_str pm "apt" then
    run_cmd ["apt-get"; "update"] true true ;;
    run_cmd ["apt-get"; "install"; "-y"; package_name] true true ;; ret tt
  else if is_str pm "dnf" then
    run_cmd ["dnf"; "install"; "-y"; package_name] true true ;; ret tt
  else if is_str pm "yum" then
    run_cmd ["yum"; "install"; "-y"; package_name] true true ;; ret tt
  else if is_str pm "pacman" then
    run_cmd ["pacman"; "-Sy"; "--noconfirm"; package_name] true true ;; ret tt
  else if is_str pm "apk" then
    run_cmd ["apk"; "add"; package_name] true true ;; ret tt
  else if is_str pm "zypper" then
    run_cmd ["zypper"; "--non-interactive"; "install"; package_name] true true ;; ret tt
  else ret tt.

Definition ensure_pip : M (option bool) :=
  try_except
    (subprocess_run [executable w; "-c"; "import pip"] true ;; ret (Some true))
    is_CalledProcessError
    (fun _ =>
       log "pip not found, attempting to install..." ;;
       installed <-
         try_except
           (run_cmd [executable w; "-m"; "ensurepip"; "--upgrade"] false true ;; ret true)
           any_exception
           (fun _ => ret false) ;;
       if installed then ret (Some true)
       else
         try_except
           (let pm := detect_package_manager in
            (if is_str pm "windows" then
               error "On Windows, please install pip manually or use Python installer." 5
             else if is_str pm "apt" then install_package "python3-pip"
             else if is_str pm "dnf" || is_str pm "yum" then install_package "python3-pip"
             else if is_str pm "pacman" then install_package "python-pip"
             else if is_str pm "apk" then install_package "py3-pip"
             else if is_str pm "zypper" then install_package "python3-pip"
             else ret tt) ;;
            ret (Some true))
           any_exception
           (fun _ =>
              error "Failed to install pip. Please install pip manually." 5 ;;
              ret None)).

(** The module imports [requests] when it is loaded, so the [import] this
    function retries succeeds in any run that got this far. *)
Definition ensure_requests : M (option bool) := ret (Some true).

Definition ensure_tor : M (option bool) :=
  installed <- is_tor_installed ;;
  if installed then ret (Some true)
  else
    (if on_windows then
       error "On Windows, please install Tor Browser manually from: https://www.torproject.org/download/" 7
     else ret tt) ;;
    log "tor not found, installing..." ;;
    try_except
      (install_package "tor" ;; ret (Some true))
      any_exception
      (fun _ =>
         error "Failed to install tor. Please install tor manually." 7 ;;
         ret None).

Definition auto_fix : M unit :=
  log "Running auto-fix..." ;;
  ensure_pip ;;
  ensure_requests ;;
  ensure_tor ;;
  log "Auto-fix complete".

(** The namespace [parser.parse_args()] returns. *)
Record Args := mkArgs {
  arg_interval : string;
  arg_count : Z;
  arg_ip : bool;
  arg_auto_fix : bool;
  arg_start_tor : bool;
  arg_stop : bool
}.

Definition main (fuel : nat) (args : Args) : M unit :=
  setup_signal_handlers ;;
  if arg_stop args then stop_services
  else if arg_start_tor args then
    (if on_windows then start_tor_windows ;; ret tt
     else log "--start-tor is only needed on Windows")
  else if arg_ip args then
    ip <- get_current_ip ;;
    if Py.truthy ip then
      match ip with
      | Some ip => print_ip ip
      | None => ret tt
      end
    else ret tt
  else if arg_auto_fix args then auto_fix
  else
    installed <- is_tor_installed ;;
    (if negb installed then
       error "Tor is not installed. Run with --auto-fix to install automatically." 10
     else ret tt) ;;
    check_internet_connection ;;
    print_banner ;;
    initialize_environment ;;
    time_sleep 5 ;;
    change_ip_repeatedly fuel (arg_interval args) (arg_count args).

End Script.

(* ================================================================== *)
(** ** Vocabulary of the specification *)
(* ================================================================== *)

(** The IP Oracle's address. *)
Definition ipify : string := "https://api.ipify.org".

(** The bounds an interval text gives for the delay: a number [N] stands
    for the bounds [N] and [N], a range for its two numbers. *)
Definition interval_bounds (interval_str : string) : option (Z * Z) :=
  if Py.has_char "-" interval_str then
    let (first, second) := Py.split_once "-" interval_str in
    match Py.int first, Py.int second with
    | Some lo, Some hi => Some (lo, hi)
    | _, _ => None
    end
  else
    match Py.int interval_str with
    | Some n => Some (n, n)
    | None => None
    end.

(** What [parse_interval] computes from the text at moment [t]: the
    delay, or nothing when the text is rejected. *)
Definition resolve (w : World) (t : nat) (interval_str : string) : option Z :=
  if Py.has_char "-" interval_str then
    let (first, second) := Py.split_once "-" interval_str in
    match Py.int first, Py.int second with
    | Some lo, Some hi => if lo <=? hi then Some (randint w t lo hi) else None
    | _, _ => None
    end
  else Py.int interval_str.

(** The interval texts [parse_interval] accepts. *)
Definition interval_ok (interval_str : string) : bool :=
  match interval_bounds interval_str with
  | Some (lo, hi) => lo <=? hi
  | None => false
  end.

(** A rotation attempt: the reload command or the connection to the
    control port. *)
Definition is_rotate (e : Event) : bool :=
  match e with
  | ERun cmd => existsb (String.eqb "reload") cmd
  | EConnect port => port =? 9051
  | _ => false
  end.

(** A query of the IP Oracle. *)
Definition is_fetch (e : Event) : bool :=
  match e with
  | EGet url _ => String.eqb url ipify
  | _ => false
  end.

(** A query of the IP Oracle through the proxy. *)
Definition is_proxied_fetch (e : Event) : bool :=
  match e with
  | EGet url proxied => String.eqb url ipify && proxied
  | _ => false
  end.

(** The line [print_ip] prints, up to the address. *)
Definition report_prefix : string :=
  white ++ " [" ++ green ++ "+" ++ white ++ "]" ++ green ++ " "
  ++ "Your IP address is: ".

(** A reported address. *)
Definition is_report (e : Event) : bool :=
  match e with
  | EPrint text => String.prefix report_prefix text
  | _ => false
  end.

Definition is_sleep (e : Event) : bool :=
  match e with
  | ESleep _ => true
  | _ => false
  end.

Definition is_sleep_of (secs : Z) (e : Event) : bool :=
  match e with
  | ESleep d => d =? secs
  | _ => false
  end.

(** An attempt to stop the daemon: the service's stop command or
    [taskkill]. *)
Definition is_daemon_stop (e : Event) : bool :=
  match e with
  | ERun cmd => existsb (String.eqb "stop") cmd || existsb (String.eqb "taskkill") cmd
  | _ => false
  end.

(** An attempt to stop earlier runs of the tool. *)
Definition is_pkill (e : Event) : bool :=
  match e with
  | ERun cmd => existsb (String.eqb "pkill") cmd
  | _ => false
  end.

(** A line printed by [warning] or [error]. *)
Definition is_alert (e : Event) : bool :=
  match e with
  | EPrint text => String.prefix (white ++ " [" ++ red ++ "!" ++ white ++ "] ") text
  | _ => false
  end.

Definition count_events (p : Event -> bool) (trace : list Event) : nat :=
  length (filter p trace).

(** Every [q]-event of the trace has a [p]-event before it. *)
Definition precedes (p q : Event -> bool) (trace : list Event) : Prop :=
  forall before e after,
    trace = (before ++ e :: after)%list -> q e = true ->
    exists e', In e' before /\ p e' = true.

(** No signal arrives while the process sleeps. *)
Definition quiet (w : World) : Prop :=
  forall t, pending_signal w t = None.

(** No command the script spawns sends it a signal. *)
Definition spared (w : World) : Prop :=
  forall t cmd, kills_caller w t cmd = false.

(** The library keeps the promise of [random.randint]: its draw lies
    between the two bounds. *)
Definition fair (w : World) : Prop :=
  forall t a b, a <= b -> a <= randint w t a b <= b.

(** [time.sleep] accepts the length [secs] at every moment. *)
Definition sleeps (w : World) (secs : Z) : Prop :=
  forall t, sleep_error w t secs = None.

(** An environment in which a rotation runs undisturbed: no signal, no
    command that kills the script, a sound random generator and a two
    seconds' sleep always granted. *)
Definition steady (w : World) : Prop :=
  quiet w /\ spared w /\ fair w /\ sleeps w 2.

(** Every delay the interval text can resolve to is one the process is
    allowed to sleep. *)
Definition paced (w : World) (interval_str : string) : Prop :=
  exists lo hi,
    interval_bounds interval_str = Some (lo, hi) /\ lo <= hi
    /\ forall d, lo <= d <= hi -> sleeps w d.

(** The daemon's service can be driven: always on Windows (where the
    script only prints advice), elsewhere when a service manager is found
    and the process is root or can use sudo. *)
Definition can_manage (w : World) : bool :=
  on_windows w ||
  (match detect_service_manager w with Some _ => true | None => false end
   && (is_root w || has_sudo w)).

(** The command [service_action] runs for [action], with its [sudo]. *)
Definition service_cmd (w : World) (action : string) : list string :=
  let cmd :=
    if is_str (detect_service_manager w) "systemctl" then ["systemctl"; action; "tor"]
    else ["service"; "tor"; action] in
  if is_root w then cmd else "sudo" :: cmd.

(** The message of the configuration error. *)
Definition interval_error : string :=
  "Invalid interval format. Use number or range (e.g., '60' or '30-120')".

(** The state [n] interactions later. *)
Definition later (n : nat) (s : State) : State :=
  mkState (n + clock s) (handlers s).

(** The messages of the two fatal errors of [service_action]. *)
Definition no_manager_error : string :=
  "No supported service manager found (systemctl or service)".
Definition no_sudo_error : string :=
  "Root privileges required but sudo not available. Run as root or install sudo.".

(** What [service_action] prints after the command, given its result. *)
Definition service_complaint (action : string) (r : Completed) : list Event :=
  if returncode r =? 0 then []
  else [EPrint (alert_line ("Failed to " ++ action ++ " tor service: "
                            ++ Py.strip (stderr r)))].

(** Every event of the trace fails the test [p]. *)
Definition lacks (p : Event -> bool) (trace : list Event) : Prop :=
  Forall (fun e => p e = false) trace.

(** The commands of [stop_services]. *)
Definition taskkill_cmd : list string := ["taskkill"; "/F"; "/IM"; "tor.exe"].
Definition pkill_cmd : list string := ["pkill"; "-f"; TOOL_NAME].

(** The warnings of the two ways of asking the IP Oracle. *)
Definition tor_fetch_warning : string :=
  "Having trouble connecting to the Tor network. Please wait a moment.".
Definition direct_fetch_warning : string :=
  "Having trouble fetching IP address. Please check your internet connection.".

Definition fetch_warning (proxied : bool) : string :=
  if proxied then tor_fetch_warning else direct_fetch_warning.

(** The warning that the IP Oracle gave no address. *)
Definition is_fetch_warning (e : Event) : bool :=
  match e with
  | EPrint text =>
      String.eqb text (alert_line tor_fetch_warning)
      || String.eqb text (alert_line direct_fetch_warning)
  | _ => false
  end.

(** The line that acknowledges a rotation on Windows. *)
Definition newnym_ack : string := "Successfully sent NEWNYM signal to Tor".

Definition is_newnym_ack (e : Event) : bool :=
  match e with
  | EPrint text => String.eqb text (log_line newnym_ack)
  | _ => false
  end.

(** What the IP Oracle's answer at moment [t] amounts to: the trimmed
    body of a response that is not an HTTP error, or nothing. *)
Definition oracle_answer (w : World) (t : nat) (proxied : bool) : option string :=
  match http w t ipify proxied with
  | HttpResponse status text =>
      if (400 <=? status) && (status <? 600) then None
      else Some (Py.strip text)
  | HttpTimeout | HttpConnectionError => None
  end.

(** A blank character. *)
Definition blank_char (c : Py.char) : Prop := Py.isspace (Py.point c) = true.

(** Characters that neither begin nor end with a blank. *)
Definition no_blank_edge (l : list Py.char) : Prop :=
  match l with
  | [] => True
  | c :: _ =>
      Py.isspace (Py.point c) = false
      /\ Py.isspace (Py.point (last l c)) = false
  end.

(** [ip] is [text] without the blanks at its two ends: the characters of
    [text] are blanks, then those of [ip], which neither begins nor ends
    with a blank, then blanks. *)
Definition trimmed_of (text ip : string) : Prop :=
  exists pre core post,
    Py.chars text = (pre ++ core ++ post)%list
    /\ Forall blank_char pre /\ Forall blank_char post
    /\ no_blank_edge core
    /\ ip = Py.spell core
    /\ text = Py.spell pre ++ ip ++ Py.spell post.

(** The last lines of [stop_services] and of [signal_handler]. *)
Definition stopped_line : string :=
  log_line ("Tor services and " ++ TOOL_NAME ++ " processes stopped.").
Definition terminated_line : string :=
  nl ++ white ++ " [" ++ red ++ "!" ++ white ++ "] " ++ red
  ++ "Program terminated by user." ++ reset.

(** The command with which [stop_services] stops the daemon. *)
Definition daemon_stop_cmd (w : World) : list string :=
  if on_windows w then taskkill_cmd else service_cmd w "stop".

(** What [stop_services] leaves in the trace up to its [pkill], where the
    service can be driven, the daemon being stopped at moment [t]. *)
Definition daemon_stop_events (w : World) (t : nat) : list Event :=
  if on_windows w then
    [EPrint (log_line "Windows detected - attempting to stop Tor processes...");
     ERun taskkill_cmd;
     EPrint (if which w "taskkill"
             then log_line "Tor processes stopped on Windows"
             else alert_line "Could not stop Tor processes on Windows")]
  else
    ERun (service_cmd w "stop")
    :: service_complaint "stop" (proc w t (service_cmd w "stop")).

(** The command that stops the daemon at moment [t] ends the script. *)
Definition stop_kills (w : World) (t : nat) : bool :=
  which w (hd EmptyString (daemon_stop_cmd w)) && kills_caller w t (daemon_stop_cmd w).

(** The [pkill -f tornet] run at moment [t] ends the script: there is a
    [pkill], and its pattern matches the script itself. *)
Definition pkill_kills (w : World) (t : nat) : bool :=
  which w "pkill" && kills_caller w t pkill_cmd.

(** The events of [stop_services] where the service can be driven and the
    daemon's stop command, run at moment [t], spares the script. *)
Definition stop_events (w : World) (t : nat) : list Event :=
  (daemon_stop_events w t
   ++ ERun pkill_cmd
   :: (if pkill_kills w (S t) then [] else [EPrint stopped_line]))%list.

(** Whether the control port acknowledges a NEWNYM sent in a rotation that
    starts at moment [t]. *)
Definition newnym_acknowledged (w : World) (t : nat) : bool :=
  match sock_connect w t 9051 with
  | SockOk _ =>
      match sock_recv w (S t) with
      | SockOk response => Py.contains "250" response
      | _ => false
      end
  | _ => false
  end.

(** The events of a rotation on Windows up to the acknowledgement. *)
Definition newnym_events : list Event :=
  [EConnect 9051; ESend ("SIGNAL NEWNYM" ++ cr ++ nl); ERecv; EClose;
   EPrint (log_line newnym_ack)].

(** The events that make up a rotation cycle: its sleeps, the rotation,
    the oracle's query and warning, the acknowledgement and the report. *)
Definition is_cycle_event (e : Event) : bool :=
  is_sleep e || is_rotate e || is_fetch e || is_report e
  || is_fetch_warning e || is_newnym_ack e.

(** What a cycle prints once [change_ip] has come back with [outcome]. *)
Definition report_events (outcome : Res (option string)) : list Event :=
  match outcome with
  | Ret (Some ip) =>
      if Py.is_empty ip then []
      else [EPrint (log_line ("Your IP address is: " ++ white ++ ip))]
  | _ => []
  end.

(** How the result of a step carries over to the sequence it ends. *)
Definition and_then {A B} (r : Res A) (b : B) : Res B :=
  match r with
  | Ret _ => Ret b
  | Raise e => Raise e
  | Killed sig => Killed sig
  | Running => Running
  end.

(** The rotation proper, up to the pause that follows it: the reload
    command and its complaint where the service can be driven and the
    command spares the script, the acknowledged NEWNYM exchange on Windows.
    [rot] are its events and [s1] the state it leaves. *)
Definition rotation_done (w : World) (s : State) (rot : list Event) (s1 : State) : Prop :=
  (on_windows w = false /\ can_manage w = true
   /\ kills_caller w (clock s) (service_cmd w "reload") = false
   /\ rot = (ERun (service_cmd w "reload")
             :: service_complaint "reload" (proc w (clock s) (service_cmd w "reload")))
   /\ s1 = later 1 s)
  \/
  (on_windows w = true /\ newnym_acknowledged w (clock s) = true
   /\ rot = newnym_events /\ s1 = later 2 s).

(** The line [change_ip_windows] prints for an exception it has no
    message of its own for. *)
Definition windows_error_line (e : PyExc) : string :=
  alert_line ("Error changing IP on Windows: " ++ exc_str e).

(** The shapes a run of [change_ip] can take. *)
Inductive ChangeIpRun (w : World) (s : State) : Run (option string) -> Prop :=
| run_fatal (code : Z) (msg : string) :
    on_windows w = false -> can_manage w = false ->
    (code = 3 /\ msg = no_manager_error) \/ (code = 2 /\ msg = no_sudo_error) ->
    ChangeIpRun w s (mkRun (Raise (SystemExit code)) [EPrint (alert_line msg)] s)
| run_killed :
    on_windows w = false -> can_manage w = true ->
    kills_caller w (clock s) (service_cmd w "reload") = true ->
    ChangeIpRun w s
      (mkRun (Killed SIGTERM) [ERun (service_cmd w "reload")] (later 1 s))
| run_refused (tail : list Event) (s' : State) :
    on_windows w = true -> newnym_acknowledged w (clock s) = false ->
    lacks is_cycle_event tail ->
    ChangeIpRun w s (mkRun (Ret None) (EConnect 9051 :: tail) s')
| run_sleepless (rot : list Event) (s1 : State) (e : PyExc) :
    rotation_done w s rot s1 ->
    sleep_error w (clock s1) 2 = Some e ->
    ChangeIpRun w s
      (if on_windows w
       then mkRun (Ret None) (rot ++ [EPrint (windows_error_line e)]) (later 1 s1)
       else mkRun (Raise e) rot (later 1 s1))
| run_interrupted (rot : list Event) (s1 : State) (sig : Signal) :
    rotation_done w s rot s1 ->
    sleep_error w (clock s1) 2 = None ->
    pending_signal w (clock s1) = Some sig ->
    ChangeIpRun w s
      (let d := deliver w sig (later 1 s1) in
       mkRun (and_then (result d) None) (rot ++ events d) (final d))
| run_fetched (rot : list Event) (s1 : State) :
    rotation_done w s rot s1 ->
    sleep_error w (clock s1) 2 = None ->
    pending_signal w (clock s1) = None ->
    ChangeIpRun w s
      (let g := get_current_ip w (later 1 s1) in
       mkRun (result g) (rot ++ ESleep 2 :: events g) (final g)).

(** The interval texts the specification calls malformed: a text, or a
    part of a range, that is not a number; a range whose second number is
    less than the first; a text with several hyphens, the range from zero
    to minus zero (as in 0--0) excepted, which the parser reads as the
    delay 0. *)
Inductive Malformed : string -> Prop :=
| not_a_number (text : string) :
    Py.has_char "-" text = false -> Py.int text = None -> Malformed text
| bad_part (first second : string) :
    Py.has_char "-" first = false ->
    Py.int first = None \/ Py.int second = None ->
    Malformed (first ++ String "-" second)
| reversed_range (first second : string) (lo hi : Z) :
    Py.has_char "-" first = false ->
    Py.int first = Some lo -> Py.int second = Some hi -> hi < lo ->
    Malformed (first ++ String "-" second)
| several_hyphens (first second : string) :
    Py.has_char "-" first = false -> Py.has_char "-" second = true ->
    ~ (Py.int first = Some 0 /\ Py.int second = Some 0) ->
    Malformed (first ++ String "-" second).

(** [Cycles w interval n s trace s']: started in state [s], the loop
    body completes [n] cycles in a row, each ending normally, leaving the
    trace [trace] and the state [s']. *)
Inductive Cycles (w : World) (interval_str : string) :
    nat -> State -> list Event -> State -> Prop :=
| cycles_none (s : State) : Cycles w interval_str 0 s [] s
| cycles_more (n : nat) (s s' : State) (trace : list Event) :
    result (guarded_cycle w interval_str s) = Ret Next ->
    Cycles w interval_str n (final (guarded_cycle w interval_str s)) trace s' ->
    Cycles w interval_str (S n) s
      (events (guarded_cycle w interval_str s) ++ trace) s'.

(** The events of [setup_signal_handlers]. *)
Definition setup_events (w : World) : list Event :=
  if on_windows w then
    [EHandler SIGINT;
     EPrint (log_line "Registered handler for SIGINT (Ctrl+C)");
     EPrint (log_line "Running on Windows - use Ctrl+C to interrupt, Ctrl+Break to terminate");
     EHandler SIGBREAK;
     EPrint (log_line "Registered handler for SIGBREAK")]
  else
    [EHandler SIGINT;
     EPrint (log_line "Registered handler for SIGINT (Ctrl+C)");
     EPrint (log_line ("Running on " ++ current_os w
                       ++ " - use Ctrl+C to interrupt, Ctrl+\ to terminate"));
     EHandler SIGQUIT;
     EPrint (log_line "Registered handler for SIGQUIT")].

(** The state [setup_signal_handlers] leaves. *)
Definition with_handlers (w : World) (s : State) : State :=
  mkState (clock s)
    ((if on_windows w then SIGBREAK else SIGQUIT) :: SIGINT :: handlers s).

(** The state in which a cycle started in state [s] goes to sleep, and
    the moment of that sleep: a range draws a number first. *)
Definition before_sleep (interval_str : string) (s : State) : State :=
  if Py.has_char "-" interval_str then later 1 s else s.

Definition sleep_moment (interval_str : string) (s : State) : nat :=
  clock (before_sleep interval_str s).

(** The signal [sig] reaches a cycle started in state [s] during one of
    its two sleeps: the delay before the rotation, or the pause after it.
    [before] is what the cycle did until then and [s_sig] the state in which
    the signal is delivered. *)
Inductive Interrupted (w : World) (interval_str : string) (s : State)
    (sig : Signal) : list Event -> State -> Prop :=
| in_the_delay (d : Z) :
    resolve w (clock s) interval_str = Some d ->
    sleep_error w (sleep_moment interval_str s) d = None ->
    pending_signal w (sleep_moment interval_str s) = Some sig ->
    Interrupted w interval_str s sig [] (later 1 (before_sleep interval_str s))
| in_the_pause (d : Z) (rot : list Event) (s1 : State) :
    resolve w (clock s) interval_str = Some d ->
    sleep_error w (sleep_moment interval_str s) d = None ->
    pending_signal w (sleep_moment interval_str s) = None ->
    rotation_done w (later 1 (before_sleep interval_str s)) rot s1 ->
    sleep_error w (clock s1) 2 = None ->
    pending_signal w (clock s1) = Some sig ->
    Interrupted w interval_str s sig (ESleep d :: rot) (later 1 s1).

(** The first line of [signal_handler]. *)
Definition received_line (w : World) (sig : Signal) : string :=
  log_line ("Received " ++ signal_name w sig).

(** How a run of [main] continues with the loop [k] once its startup [p]
    has returned. *)
Definition and_loop (p : Run unit) (k : M unit) : Run unit :=
  match result p with
  | Ret _ =>
      let l := k (final p) in
      mkRun (result l) (events p ++ events l) (final l)
  | _ => p
  end.

(** The events a cycle leaves after its rotation, given the oracle's
    answer: the query, then the address, or the warning where the oracle
    gave none. *)
Definition answer_events (proxied : bool) (answer : option string) : list Event :=
  EGet ipify proxied
  :: match answer with
     | Some ip => report_events (Ret (Some ip))
     | None => [EPrint (alert_line (fetch_warning proxied))]
     end.

(* ================================================================== *)
(** ** Sample environments *)
(* ================================================================== *)

(** A systemd Linux host, run as root, with the daemon up: every command
    succeeds, the oracle answers, nobody interrupts. *)
Definition linux_host : World := {|
  platform_system := "Linux";
  geteuid := 0;
  which := fun x => existsb (String.eqb x) ["systemctl"; "pkill"; "tor"; "python3"];
  path_exists := fun p => String.eqb p "/run/systemd/system";
  environ := fun _ => None;
  path_join := Py.join "/";
  path_dirname := fun p => p;
  pathsep := ":";
  executable := "python3";
  winreg_query := fun _ _ _ => None;
  read_file := fun _ => None;
  psutil_installed := false;
  proc := fun _ _ => mkCompleted 0 EmptyString EmptyString;
  kills_caller := fun _ _ => false;
  http := fun _ _ proxied =>
    HttpResponse 200 (if proxied then "185.220.101.7" else "203.0.113.9");
  sock_connect := fun _ _ => SockRefused;
  sock_recv := fun _ => SockTimedOut;
  sock_connect_ex := fun _ _ => Some 0;
  process_names := fun _ => [Some "systemd"; Some "tor"];
  randint := fun t a b => a + (Z.of_nat t * 37 + 11) mod (b + 1 - a);
  sleep_refused := fun _ secs => 9223000000 <? secs;
  pending_signal := fun _ => None
|}.

(** An environment with other commands' results. *)
Definition with_proc (w : World) (f : nat -> list string -> Completed) : World := {|
  platform_system := platform_system w;
  geteuid := geteuid w;
  which := which w;
  path_exists := path_exists w;
  environ := environ w;
  path_join := path_join w;
  path_dirname := path_dirname w;
  pathsep := pathsep w;
  executable := executable w;
  winreg_query := winreg_query w;
  read_file := read_file w;
  psutil_installed := psutil_installed w;
  proc := f;
  kills_caller := kills_caller w;
  http := http w;
  sock_connect := sock_connect w;
  sock_recv := sock_recv w;
  sock_connect_ex := sock_connect_ex w;
  process_names := process_names w;
  randint := randint w;
  sleep_refused := sleep_refused w;
  pending_signal := pending_signal w
|}.

(** An environment with another network. *)
Definition with_http (w : World) (f : nat -> string -> bool -> HttpOutcome) : World := {|
  platform_system := platform_system w;
  geteuid := geteuid w;
  which := which w;
  path_exists := path_exists w;
  environ := environ w;
  path_join := path_join w;
  path_dirname := path_dirname w;
  pathsep := pathsep w;
  executable := executable w;
  winreg_query := winreg_query w;
  read_file := read_file w;
  psutil_installed := psutil_installed w;
  proc := proc w;
  kills_caller := kills_caller w;
  http := f;
  sock_connect := sock_connect w;
  sock_recv := sock_recv w;
  sock_connect_ex := sock_connect_ex w;
  process_names := process_names w;
  randint := randint w;
  sleep_refused := sleep_refused w;
  pending_signal := pending_signal w
|}.

(** An environment in which other signals arrive. *)
Definition with_signals (w : World) (f : nat -> option Signal) : World := {|
  platform_system := platform_system w;
  geteuid := geteuid w;
  which := which w;
  path_exists := path_exists w;
  environ := environ w;
  path_join := path_join w;
  path_dirname := path_dirname w;
  pathsep := pathsep w;
  executable := executable w;
  winreg_query := winreg_query w;
  read_file := read_file w;
  psutil_installed := psutil_installed w;
  proc := proc w;
  kills_caller := kills_caller w;
  http := http w;
  sock_connect := sock_connect w;
  sock_recv := sock_recv w;
  sock_connect_ex := sock_connect_ex w;
  process_names := process_names w;
  randint := randint w;
  sleep_refused := sleep_refused w;
  pending_signal := f
|}.

(** An environment in which other commands kill the script. *)
Definition with_kills (w : World) (f : nat -> list string -> bool) : World := {|
  platform_system := platform_system w;
  geteuid := geteuid w;
  which := which w;
  path_exists := path_exists w;
  environ := environ w;
  path_join := path_join w;
  path_dirname := path_dirname w;
  pathsep := pathsep w;
  executable := executable w;
  winreg_query := winreg_query w;
  read_file := read_file w;
  psutil_installed := psutil_installed w;
  proc := proc w;
  kills_caller := f;
  http := http w;
  sock_connect := sock_connect w;
  sock_recv := sock_recv w;
  sock_connect_ex := sock_connect_ex w;
  process_names := process_names w;
  randint := randint w;
  sleep_refused := sleep_refused w;
  pending_signal := pending_signal w
|}.

(** An environment with other programs and paths. *)
Definition with_files (w : World) (programs : string -> bool)
    (paths : string -> bool) : World := {|
  platform_system := platform_system w;
  geteuid := geteuid w;
  which := programs;
  path_exists := paths;
  environ := environ w;
  path_join := path_join w;
  path_dirname := path_dirname w;
  pathsep := pathsep w;
  executable := executable w;
  winreg_query := winreg_query w;
  read_file := read_file w;
  psutil_installed := psutil_installed w;
  proc := proc w;
  kills_caller := kills_caller w;
  http := http w;
  sock_connect := sock_connect w;
  sock_recv := sock_recv w;
  sock_connect_ex := sock_connect_ex w;
  process_names := process_names w;
  randint := randint w;
  sleep_refused := sleep_refused w;
  pending_signal := pending_signal w
|}.

(** The same host when every service command fails. *)
Definition linux_failing_service : World :=
  with_proc linux_host
    (fun _ _ => mkCompleted 1 EmptyString "Job for tor.service failed.").

(** An environment with the signal [sig] arriving at moment [at_moment]. *)
Definition signalled (w : World) (sig : Signal) (at_moment : nat) : World :=
  with_signals w
    (fun t => if Nat.eqb t at_moment then Some sig else pending_signal w t).

(** An environment with a Ctrl+C arriving at moment [at_moment]. *)
Definition interrupted (w : World) (at_moment : nat) : World :=
  signalled w SIGINT at_moment.

(** The Linux host with a network on which every request times out. *)
Definition linux_offline : World :=
  with_http linux_host (fun _ _ _ => HttpTimeout).

(** The Linux host on which only stopping the service fails. *)
Definition linux_stop_fails : World :=
  with_proc linux_host
    (fun _ cmd =>
       if existsb (String.eqb "stop") cmd
       then mkCompleted 1 EmptyString "Job for tor.service failed."
       else mkCompleted 0 EmptyString EmptyString).

(** The Linux host on which the script runs under a command line that
    [pkill -f tornet] matches. *)
Definition linux_self_match : World :=
  with_kills linux_host (fun _ cmd => existsb (String.eqb "pkill") cmd).

(** A Linux container with neither systemd nor a [service] command. *)
Definition bare_container : World :=
  with_files linux_host
    (fun x => existsb (String.eqb x) ["pkill"; "tor"; "python3"])
    (fun _ => false).

(** A Linux host with systemd, run by a user who is not root and has no
    [sudo]. *)
Definition linux_no_sudo : World := {|
  platform_system := "Linux";
  geteuid := 1000;
  which := which linux_host;
  path_exists := path_exists linux_host;
  environ := environ linux_host;
  path_join := path_join linux_host;
  path_dirname := path_dirname linux_host;
  pathsep := pathsep linux_host;
  executable := executable linux_host;
  winreg_query := winreg_query linux_host;
  read_file := read_file linux_host;
  psutil_installed := psutil_installed linux_host;
  proc := proc linux_host;
  kills_caller := kills_caller linux_host;
  http := http linux_host;
  sock_connect := sock_connect linux_host;
  sock_recv := sock_recv linux_host;
  sock_connect_ex := sock_connect_ex linux_host;
  process_names := process_names linux_host;
  randint := randint linux_host;
  sleep_refused := sleep_refused linux_host;
  pending_signal := pending_signal linux_host
|}.

(** A Windows desktop with Tor Browser running and its control port
    closed to the script. *)
Definition windows_desktop : World := {|
  platform_system := "Windows";
  geteuid := 0;
  which := fun x => existsb (String.eqb x) ["tasklist"; "taskkill"; "tor"; "python"];
  path_exists := fun _ => false;
  environ := fun _ => None;
  path_join := Py.join "\";
  path_dirname := fun p => p;
  pathsep := ";";
  executable := "python";
  winreg_query := fun _ _ _ => None;
  read_file := fun _ => None;
  psutil_installed := false;
  proc := fun _ cmd =>
    if is_str (hd_error cmd) "tasklist"
    then mkCompleted 0 "tor.exe,4242,Console,1,51,204 K" EmptyString
    else mkCompleted 0 EmptyString EmptyString;
  kills_caller := fun _ _ => false;
  http := fun _ _ proxied =>
    HttpResponse 200 (if proxied then "185.220.101.7" else "203.0.113.9");
  sock_connect := fun _ _ => SockOk tt;
  sock_recv := fun _ => SockOk "515 Authentication required";
  sock_connect_ex := fun _ _ => Some 0;
  process_names := fun _ => [Some "tor.exe"];
  randint := fun t a b => a + Z.of_nat t mod (b + 1 - a);
  sleep_refused := fun _ _ => false;
  pending_signal := fun _ => None
|}.

(** The process state when the interpreter starts, and after [main] has
    installed the handlers on a non-Windows host. *)
Definition boot : State := mkState 0 [].
Definition armed : State := mkState 0 [SIGQUIT; SIGINT].

Definition loop_args (interval_str : string) (count : Z) : Args :=
  mkArgs interval_str count false false false false.
Definition ip_args : Args := mkArgs "60" 10 true false false false.
Definition stop_args : Args := mkArgs "60" 10 false false false true.

(* ================================================================== *)
(** ** Vocabulary for stopping and starting *)
(* ================================================================== *)

(** What [stop_services] leaves in the trace when the command that stops
    the daemon ends the script. *)
Definition fatal_stop_events (w : World) : list Event :=
  if on_windows w then
    [EPrint (log_line "Windows detected - attempting to stop Tor processes...");
     ERun taskkill_cmd]
  else [ERun (service_cmd w "stop")].

(** The run of [stop_services] started in state [s], where the service
    can be driven: ended by the daemon's stop command, ended by [pkill], or
    complete. *)
Definition stop_run (w : World) (s : State) : Run unit :=
  if stop_kills w (clock s)
  then mkRun (Killed SIGTERM) (fatal_stop_events w) (later 1 s)
  else
    mkRun (if pkill_kills w (S (clock s)) then Killed SIGTERM else Ret tt)
      (stop_events w (clock s)) (later 2 s).

(** What a failed attempt to stop the daemon leaves in the trace as
    warnings: off Windows the complaint about a stop command that returned
    an error, on Windows the complaint that [taskkill] could not be
    run. *)
Definition stop_alerts (w : World) (t : nat) : list Event :=
  if on_windows w then
    if which w "taskkill" then []
    else [EPrint (alert_line "Could not stop Tor processes on Windows")]
  else service_complaint "stop" (proc w t (service_cmd w "stop")).

(* ================================================================== *)
(** ** Sample texts *)
(* ================================================================== *)

(** The no-break space and the next-line character, as UTF-8. *)
Definition nbsp : string :=
  String (ascii_of_nat 194) (String (ascii_of_nat 160) EmptyString).
Definition nel : string :=
  String (ascii_of_nat 194) (String (ascii_of_nat 133) EmptyString).

(** The no-break space given as the single byte of its code. *)
Definition nbsp_byte : string := String (ascii_of_nat 160) EmptyString.

(** The numeral made of [n] times the digit [digit]. *)
Fixpoint repdigit (n : nat) (digit : ascii) : string :=
  match n with
  | O => EmptyString
  | S k => String digit (repdigit k digit)
  end.

(* ================================================================== *)
(** ** Vocabulary for the rest of the script *)
(* ================================================================== *)

(** A change of [PATH]. *)
Definition is_setpath (e : Event) : bool :=
  match e with
  | ESetPath _ => true
  | _ => false
  end.






















(* ================================================================== *)
(** ** Facts about the builtins *)
(* ================================================================== *)

(** *** Characters *)

Lemma string_length_ind (P : string -> Prop) :
  (forall s, (forall r, (String.length r < String.length s)%nat -> P r) -> P s) ->
  forall s, P s.
Proof.
  intros H s.
  assert (G : forall n r, (String.length r < n)%nat -> P r).
  { induction n as [|n IH]; intros r Hr; [lia|].
    apply H. intros r' Hr'. apply IH. lia. }
  apply (G (S (String.length s))). lia.
Qed.

Lemma length_append (a b : string) :
  String.length (a ++ b) = (String.length a + String.length b)%nat.
Proof. induction a as [|c a IH]; cbn; [reflexivity | now rewrite IH]. Qed.

Lemma has_char_app (c : ascii) (a b : string) :
  Py.has_char c (a ++ b) = Py.has_char c a || Py.has_char c b.
Proof.
  induction a as [|d a IH]; cbn; [reflexivity|].
  rewrite IH. now rewrite orb_assoc.
Qed.

Lemma byte_hyphen (a : ascii) : Py.byte a = 45%N <-> a = "-"%char.
Proof.
  unfold Py.byte. split; [|now intros ->].
  intro H. rewrite <- (ascii_N_embedding a), H. reflexivity.
Qed.

Lemma byte_small (a : ascii) : (Py.byte a < 256)%N.
Proof. apply N_ascii_bounded. Qed.

(** Turn the boolean tests on bytes in the context into inequalities. *)
Ltac bytes :=
  unfold Py.seq2, Py.seq3, Py.seq4, Py.is_cont in *;
  repeat match goal with
  | H : _ && _ = true |- _ => apply andb_true_iff in H; destruct H
  | H : negb _ = true |- _ => apply negb_true_iff in H
  | H : (_ <=? _)%N = true |- _ => apply N.leb_le in H
  | H : (_ <=? _)%N = false |- _ => apply N.leb_gt in H
  | H : (_ =? _)%N = true |- _ => apply N.eqb_eq in H
  | H : (_ =? _)%N = false |- _ => apply N.eqb_neq in H
  end.

(** How [chars] reads the first character of a text: one byte, taken as
    it is, or a sequence of bytes all above 127 that spells a character
    above 127. *)
Lemma chars_step (a : ascii) (r1 : string) :
  exists c rest,
    Py.chars (String a r1) = c :: Py.chars rest
    /\ String a r1 = Py.spelling c ++ rest
    /\ (String.length rest < String.length (String a r1))%nat
    /\ ((c = Py.single a /\ rest = r1)
        \/ ((128 <= Py.point c)%N /\ Py.has_char "-" (Py.spelling c) = false)).
Proof.
  assert (One : exists c rest,
             Py.single a :: Py.chars r1 = c :: Py.chars rest
             /\ String a r1 = Py.spelling c ++ rest
             /\ (String.length rest < String.length (String a r1))%nat
             /\ ((c = Py.single a /\ rest = r1)
                 \/ ((128 <= Py.point c)%N
                     /\ Py.has_char "-" (Py.spelling c) = false))).
  { exists (Py.single a), r1. repeat split; cbn; auto. }
  assert (Hy : forall x, (128 <= Py.byte x)%N -> Ascii.eqb "-" x = false).
  { intros x Hx. destruct (Ascii.eqb_spec "-" x) as [<-|]; [|reflexivity].
    cbn in Hx. lia. }
  destruct r1 as [|b r2]; [exact One|].
  cbn [Py.chars].
  destruct (Py.seq2 (Py.byte a) (Py.byte b)) eqn:E2.
  { do 2 eexists. split; [reflexivity|]. split; [reflexivity|].
    split; [cbn; lia|]. right. bytes. cbn [Py.point Py.spelling Py.has_char].
    split; [unfold Py.point2; lia|].
    rewrite !Hy by lia. reflexivity. }
  destruct r2 as [|c r3]; [exact One|].
  destruct (Py.seq3 (Py.byte a) (Py.byte b) (Py.byte c)) eqn:E3.
  { do 2 eexists. split; [reflexivity|]. split; [reflexivity|].
    split; [cbn; lia|]. right. bytes. cbn [Py.point Py.spelling Py.has_char].
    split; [lia|].
    rewrite !Hy by lia. reflexivity. }
  destruct r3 as [|d r4]; [exact One|].
  destruct (Py.seq4 (Py.byte a) (Py.byte b) (Py.byte c) (Py.byte d)) eqn:E4;
    [|exact One].
  do 2 eexists. split; [reflexivity|]. split; [reflexivity|].
  split; [cbn; lia|]. right. bytes. cbn [Py.point Py.spelling Py.has_char].
  split; [lia|].
  rewrite !Hy by lia. reflexivity.
Qed.

(** The characters of a text spell it. *)
Lemma spell_chars (s : string) : Py.spell (Py.chars s) = s.
Proof.
  induction s as [s IH] using string_length_ind.
  destruct s as [|a r1]; [reflexivity|].
  destruct (chars_step a r1) as (c & rest & E & S & L & _).
  rewrite E. cbn [Py.spell]. rewrite (IH rest L). now symmetry.
Qed.

Lemma spell_app (l1 l2 : list Py.char) :
  Py.spell (l1 ++ l2) = Py.spell l1 ++ Py.spell l2.
Proof.
  induction l1 as [|c l1 IH]; cbn [Py.spell app]; [reflexivity|].
  rewrite IH. induction (Py.spelling c) as [|x y IHy]; cbn; [reflexivity|].
  now rewrite IHy.
Qed.

(** A hyphen among the characters of a text is a hyphen among its bytes,
    and the other way round. *)
Lemma chars_hyphen (s : string) :
  In 45%N (map Py.point (Py.chars s)) <-> Py.has_char "-" s = true.
Proof.
  induction s as [s IH] using string_length_ind.
  destruct s as [|a r1]; [cbn; split; [tauto | discriminate]|].
  destruct (chars_step a r1) as (c & rest & E & S & L & K).
  rewrite E, S, has_char_app. cbn [map In]. rewrite (IH rest L).
  destruct K as [[-> ->] | [Hp Hh]].
  - cbn [Py.single Py.point Py.spelling Py.has_char]. rewrite byte_hyphen, orb_false_r.
    destruct (Ascii.eqb_spec "-" a) as [<-|Hn]; cbn [orb].
    + tauto.
    + split; [intros [->|H]; [congruence | exact H] | auto].
  - rewrite Hh. cbn [orb]. split; [intros [H|H]; [lia | exact H] | auto].
Qed.

(** *** Reading numbers *)

Lemma digit_value_nonneg (c : N) (v : Z) : Py.digit_value c = Some v -> 0 <= v.
Proof.
  unfold Py.digit_value. destruct (find _ _); [|discriminate].
  intros [= <-]. lia.
Qed.

Lemma hyphen_not_digit : Py.digit_value 45 = None.
Proof. reflexivity. Qed.

Lemma int_digits_nonneg (l : list N) :
  forall seen us count acc v,
    Py.int_digits seen us count acc l = Some v -> 0 <= acc -> 0 <= v.
Proof.
  induction l as [|c r IH]; intros seen us count acc v; cbn [Py.int_digits].
  - destruct (seen && negb us && _); intros [= <-]; auto.
  - destruct (Py.digit_value c) as [d|] eqn:Ed.
    + intros H Hacc. apply IH in H; auto.
      pose proof (digit_value_nonneg _ _ Ed). lia.
    + destruct (c =? 95)%N.
      * destruct (seen && negb us); [|discriminate].
        intros H Hacc. now apply IH in H.
      * destruct (Py.isspace_int c); [|discriminate].
        destruct (seen && negb us && forallb Py.isspace_int r && _); [|discriminate].
        intros [= <-]; auto.
Qed.

Lemma blanks_no_hyphen (l : list N) :
  forallb Py.isspace_int l = true -> ~ In 45%N l.
Proof.
  induction l as [|c r IH]; cbn [forallb In]; [tauto|].
  intro H. apply andb_true_iff in H as [Hc Hr].
  intros [->|Hin]; [discriminate | now apply IH].
Qed.

Lemma int_digits_no_hyphen (l : list N) :
  forall seen us count acc v,
    Py.int_digits seen us count acc l = Some v -> ~ In 45%N l.
Proof.
  induction l as [|c r IH]; intros seen us count acc v;
    cbn [Py.int_digits In]; [tauto|].
  destruct (N.eq_dec 45 c) as [<-|Hc]; [discriminate|].
  destruct (Py.digit_value c) as [d|].
  - intros H [?|Hin]; [congruence | exact (IH _ _ _ _ _ H Hin)].
  - destruct (c =? 95)%N.
    + destruct (seen && negb us); [|discriminate].
      intros H [?|Hin]; [congruence | exact (IH _ _ _ _ _ H Hin)].
    + destruct (Py.isspace_int c); [|discriminate].
      destruct (seen && negb us); cbn [andb]; [|discriminate].
      destruct (forallb Py.isspace_int r) eqn:E; cbn [andb]; [|discriminate].
      intros _ [?|Hin]; [congruence | exact (blanks_no_hyphen _ E Hin)].
Qed.

Lemma lskip_int_hyphen (l : list N) :
  In 45%N (Py.lskip_int l) <-> In 45%N l.
Proof.
  induction l as [|c r IH]; cbn [Py.lskip_int]; [tauto|].
  destruct (Py.isspace_int c) eqn:E; [|tauto].
  rewrite IH. cbn [In]. split; [auto|].
  intros [->|H]; [discriminate | exact H].
Qed.

Lemma int_points_sign (l : list N) (v : Z) :
  Py.int_points l = Some v ->
  (In 45%N l -> v <= 0) /\ (~ In 45%N l -> 0 <= v).
Proof.
  unfold Py.int_points. rewrite <- (lskip_int_hyphen l).
  destruct (Py.lskip_int l) as [|c r]; [discriminate|].
  destruct (N.eqb_spec c 43) as [->|Hplus].
  - intro E. split.
    + intros [?|Hin]; [discriminate|]. now apply int_digits_no_hyphen in E.
    + intros _. apply int_digits_nonneg in E; lia.
  - destruct (N.eqb_spec c 45) as [->|Hminus].
    + destruct (Py.int_digits false false 0 0 r) as [n|] eqn:E; [|discriminate].
      intros [= <-]. apply int_digits_nonneg in E; [|lia].
      split; [lia|]. intro H. exfalso. apply H. now left.
    + intro E. split.
      * intro Hin. now apply int_digits_no_hyphen in E.
      * intros _. apply int_digits_nonneg in E; lia.
Qed.

(** Text without a hyphen never reads as a negative number. *)
Lemma int_without_hyphen (s : string) (v : Z) :
  Py.has_char "-" s = false -> Py.int s = Some v -> 0 <= v.
Proof.
  intros Hh E. apply int_points_sign in E as [_ E]. apply E.
  rewrite chars_hyphen. congruence.
Qed.

(** Text with a hyphen reads, if at all, as zero or a negative number. *)
Lemma int_with_hyphen (s : string) (v : Z) :
  Py.has_char "-" s = true -> Py.int s = Some v -> v <= 0.
Proof.
  intros Hh E. apply int_points_sign in E as [E _]. apply E.
  now rewrite chars_hyphen.
Qed.

(** *** Splitting at the hyphen *)

Lemma split_once_app (c : ascii) (a b : string) :
  Py.has_char c a = false ->
  Py.split_once c (a ++ String c b) = (a, b).
Proof.
  induction a as [|d a IH]; cbn; intro H.
  - now rewrite Ascii.eqb_refl.
  - apply orb_false_iff in H as [H1 H2].
    rewrite H1, (IH H2). reflexivity.
Qed.



Lemma has_hyphen_after (a b : string) :
  Py.has_char "-" (a ++ String "-" b) = true.
Proof.
  rewrite has_char_app. cbn [Py.has_char]. rewrite Ascii.eqb_refl.
  cbn [orb]. apply orb_true_r.
Qed.

(** *** Trimming *)

Lemma lstrip_chars_split (l : list Py.char) :
  exists pre, l = (pre ++ Py.lstrip_chars l)%list /\ Forall blank_char pre.
Proof.
  induction l as [|c r (pre & E & F)]; [exists []; split; [reflexivity | constructor]|].
  cbn [Py.lstrip_chars]. destruct (Py.isspace (Py.point c)) eqn:Hc.
  - exists (c :: pre). split; [cbn; now rewrite <- E | now constructor].
  - exists []. split; [reflexivity | constructor].
Qed.

Lemma rstrip_chars_split (l : list Py.char) :
  exists post, l = (Py.rstrip_chars l ++ post)%list /\ Forall blank_char post.
Proof.
  induction l as [|c r (post & E & F)]; [exists []; split; [reflexivity | constructor]|].
  cbn [Py.rstrip_chars]. destruct (Py.rstrip_chars r) as [|d r'] eqn:Er.
  - destruct (Py.isspace (Py.point c)) eqn:Hc.
    + exists (c :: post). cbn [app] in *. split; [now rewrite <- E | now constructor].
    + exists post. cbn [app] in *. split; [now rewrite <- E | exact F].
  - exists post. split; [cbn [app] in *; now rewrite <- E | exact F].
Qed.

Lemma lstrip_chars_head (l : list Py.char) :
  match Py.lstrip_chars l with
  | c :: _ => Py.isspace (Py.point c) = false
  | [] => True
  end.
Proof.
  induction l as [|c r IH]; cbn [Py.lstrip_chars]; [exact I|].
  destruct (Py.isspace (Py.point c)) eqn:Hc; [exact IH | exact Hc].
Qed.

Lemma rstrip_chars_edges (l : list Py.char) :
  match l with
  | c :: _ => Py.isspace (Py.point c) = false
  | [] => True
  end ->
  no_blank_edge (Py.rstrip_chars l).
Proof.
  assert (L : forall m c, match Py.rstrip_chars m with
                          | d :: r => Py.isspace (Py.point (last (d :: r) c)) = false
                          | [] => True
                          end).
  { induction m as [|x m IH]; intro c; cbn [Py.rstrip_chars]; [exact I|].
    specialize (IH c).
    destruct (Py.rstrip_chars m) as [|d r'].
    - destruct (Py.isspace (Py.point x)) eqn:Hx; [exact I | exact Hx].
    - exact IH. }
  destruct l as [|c r]; intro H; [exact I|].
  specialize (L (c :: r) c). cbn [Py.rstrip_chars] in *.
  destruct (Py.rstrip_chars r) as [|d r'].
  - rewrite H in *. cbn. auto.
  - cbn [no_blank_edge]. auto.
Qed.

(** [strip] removes the blanks at the two ends of a text, and nothing
    else. *)
Lemma strip_trimmed_of (text : string) : trimmed_of text (Py.strip text).
Proof.
  unfold trimmed_of, Py.strip.
  destruct (lstrip_chars_split (Py.chars text)) as (pre & E1 & F1).
  destruct (rstrip_chars_split (Py.lstrip_chars (Py.chars text))) as (post & E2 & F2).
  exists pre, (Py.rstrip_chars (Py.lstrip_chars (Py.chars text))), post.
  assert (E : Py.chars text
              = (pre ++ Py.rstrip_chars (Py.lstrip_chars (Py.chars text)) ++ post)%list).
  { now rewrite <- E2. }
  split; [exact E|]. split; [exact F1|]. split; [exact F2|].
  split; [apply rstrip_chars_edges, lstrip_chars_head|].
  split; [reflexivity|].
  rewrite <- (spell_chars text) at 1. rewrite E at 1.
  now rewrite !spell_app.
Qed.
(* ================================================================== *)
(** ** Running computations *)
(* ================================================================== *)

Lemma run_eta {A} (r : Run A) : mkRun (result r) (events r) (final r) = r.
Proof. now destruct r. Qed.

Lemma bind_ret_l {A B} (a : A) (k : A -> M B) (s : State) :
  bind (ret a) k s = k a s.
Proof. unfold bind, ret. now destruct (k a s). Qed.

Lemma bind_Ret {A B} (m : M A) (k : A -> M B) s a ev s' :
  m s = mkRun (Ret a) ev s' ->
  bind m k s = mkRun (result (k a s')) (ev ++ events (k a s')) (final (k a s')).
Proof. intro H. unfold bind. rewrite H. now destruct (k a s'). Qed.


Lemma try_Ret {A} (m : M A) c h s a ev s' :
  m s = mkRun (Ret a) ev s' -> try_except m c h s = mkRun (Ret a) ev s'.
Proof. intro H. unfold try_except. now rewrite H. Qed.

Lemma try_caught {A} (m : M A) c h s e ev s' :
  m s = mkRun (Raise e) ev s' -> c e = true ->
  try_except m c h s
  = mkRun (result (h e s')) (ev ++ events (h e s')) (final (h e s')).
Proof. intros H Hc. unfold try_except. rewrite H, Hc. now destruct (h e s'). Qed.

Lemma try_uncaught {A} (m : M A) c h s e ev s' :
  m s = mkRun (Raise e) ev s' -> c e = false ->
  try_except m c h s = mkRun (Raise e) ev s'.
Proof. intros H Hc. unfold try_except. now rewrite H, Hc. Qed.

(** The events of a sequence are those of its first part, followed by
    those of the second when the first returns. *)
Lemma events_bind {A B} (m : M A) (k : A -> M B) s :
  events (bind m k s)
  = match result (m s) with
    | Ret a => (events (m s) ++ events (k a (final (m s))))%list
    | _ => events (m s)
    end.
Proof.
  unfold bind. destruct (m s) as [[a|e|sig|] ev s1]; cbn; try reflexivity.
  now destruct (k a s1).
Qed.


Lemma final_bind {A B} (m : M A) (k : A -> M B) s :
  final (bind m k s)
  = match result (m s) with
    | Ret a => final (k a (final (m s)))
    | _ => final (m s)
    end.
Proof.
  unfold bind. destruct (m s) as [[a|e|sig|] ev s1]; cbn; try reflexivity.
  now destruct (k a s1).
Qed.

Lemma events_try {A} (m : M A) c h s :
  events (try_except m c h s)
  = match result (m s) with
    | Raise e =>
        if c e then (events (m s) ++ events (h e (final (m s))))%list
        else events (m s)
    | _ => events (m s)
    end.
Proof.
  unfold try_except. destruct (m s) as [[a|e|sig|] ev s1]; cbn; try reflexivity.
  destruct (c e); [|reflexivity]. now destruct (h e s1).
Qed.


(** A property of single events holds of a sequence when it holds of both
    parts. *)
Lemma Forall_events_bind {A B} (P : Event -> Prop) (m : M A) (k : A -> M B) s :
  Forall P (events (m s)) ->
  (forall a, result (m s) = Ret a -> Forall P (events (k a (final (m s))))) ->
  Forall P (events (bind m k s)).
Proof.
  intros Hm Hk. rewrite events_bind.
  destruct (result (m s)) eqn:E; auto.
  apply Forall_app; auto.
Qed.

Lemma Forall_events_try {A} (P : Event -> Prop) (m : M A) c h s :
  Forall P (events (m s)) ->
  (forall e, result (m s) = Raise e -> Forall P (events (h e (final (m s))))) ->
  Forall P (events (try_except m c h s)).
Proof.
  intros Hm Hh. rewrite events_try.
  destruct (result (m s)) eqn:E; auto.
  destruct (c e); auto. apply Forall_app; auto.
Qed.

(** ** The interval parser *)

Lemma interval_ok_resolve (w : World) (t : nat) (interval_str : string) :
  interval_ok interval_str = true <-> exists d, resolve w t interval_str = Some d.
Proof.
  unfold interval_ok, interval_bounds, resolve.
  destruct (Py.has_char "-" interval_str).
  - destruct (Py.split_once "-" interval_str) as [a b].
    destruct (Py.int a), (Py.int b); try (split; [discriminate | intros [? [=]]]).
    destruct (z <=? z0); split; eauto; try discriminate. intros [? [=]].
  - destruct (Py.int interval_str) as [n|]; [|split; [discriminate | intros [? [=]]]].
    rewrite Z.leb_refl. split; eauto.
Qed.

Lemma resolve_rejected (w : World) (t : nat) (interval_str : string) :
  interval_ok interval_str = false -> resolve w t interval_str = None.
Proof.
  intro H. destruct (resolve w t interval_str) as [d|] eqn:E; [|reflexivity].
  assert (interval_ok interval_str = true) by (apply (interval_ok_resolve w t); eauto).
  congruence.
Qed.

(** What the text resolves to, given its bounds. *)
Lemma resolve_bounds (w : World) (t : nat) (interval_str : string) (lo hi : Z) :
  interval_bounds interval_str = Some (lo, hi) -> lo <= hi ->
  resolve w t interval_str
  = Some (if Py.has_char "-" interval_str then randint w t lo hi else lo).
Proof.
  unfold interval_bounds, resolve.
  destruct (Py.has_char "-" interval_str).
  - destruct (Py.split_once "-" interval_str) as [a b].
    destruct (Py.int a), (Py.int b); try discriminate.
    intros [= -> ->] H. destruct (Z.leb_spec lo hi); [reflexivity | lia].
  - destruct (Py.int interval_str); [|discriminate]. now intros [= -> _].
Qed.

(** With a sound generator a resolved delay lies within the bounds. *)
Lemma resolve_within (w : World) (t : nat) (interval_str : string) (lo hi d : Z) :
  fair w -> interval_bounds interval_str = Some (lo, hi) ->
  resolve w t interval_str = Some d -> lo <= d <= hi.
Proof.
  intros Hf Hb Hr. unfold interval_bounds, resolve in *.
  destruct (Py.has_char "-" interval_str).
  - destruct (Py.split_once "-" interval_str) as [a b].
    destruct (Py.int a), (Py.int b); try discriminate.
    injection Hb as -> ->. destruct (Z.leb_spec lo hi); [|discriminate].
    injection Hr as <-. now apply Hf.
  - rewrite Hr in Hb. injection Hb as -> ->. lia.
Qed.

(** [parse_interval] computes [resolve] at the moment it is called, and
    exits with status 8 where [resolve] has no answer. *)
Lemma parse_interval_run (w : World) (interval_str : string) (s : State) :
  parse_interval w interval_str s =
  match resolve w (clock s) interval_str with
  | Some d => mkRun (Ret (Some d)) [] (before_sleep interval_str s)
  | None =>
      mkRun (Raise (SystemExit 8)) [EPrint (alert_line interval_error)] s
  end.
Proof.
  unfold parse_interval, resolve, py_int, before_sleep.
  destruct (Py.has_char "-" interval_str).
  - destruct (Py.split_once "-" interval_str) as [a b].
    destruct (Py.int a) as [lo|]; [|reflexivity].
    destruct (Py.int b) as [hi|]; [|reflexivity].
    unfold random_randint, try_except, bind, tick, ret, raise; cbn.
    destruct (Z.leb_spec lo hi); reflexivity.
  - destruct (Py.int interval_str); reflexivity.
Qed.

(** ** Sleeping and signals *)

(** Simplify a run through the monad's operations only, leaving the
    script's texts alone. *)
Ltac msimpl :=
  cbn [bind try_except ret raise emit tick killed still_running get_handlers
       print log warning result events final clock handlers app
       negb andb orb fst snd
       any_exception is_Exception is_KeyboardInterrupt is_ValueError
       is_ImportError is_RequestException is_CalledProcessError].

(** Open the monad's operations and reduce the run they describe. *)
Ltac mrun :=
  unfold try_except, bind, ret, raise, emit, tick, killed, get_handlers,
    print, log, warning;
  msimpl.

Lemma error_exits (msg : string) (code : Z) (s : State) :
  0 < code ->
  error msg code s = mkRun (Raise (SystemExit code)) [EPrint (alert_line msg)] s.
Proof.
  intro H. unfold error. destruct (Z.ltb_spec 0 code); [|lia]. reflexivity.
Qed.

Lemma subprocess_run_unfold (w : World) (cmd : list string) (check : bool) (s : State) :
  subprocess_run w cmd check s =
  if which w (hd EmptyString cmd) then
    if kills_caller w (clock s) cmd
    then mkRun (Killed SIGTERM) [ERun cmd] (later 1 s)
    else
      let r := proc w (clock s) cmd in
      if check && negb (returncode r =? 0)
      then mkRun (Raise (CalledProcessError r)) [ERun cmd] (later 1 s)
      else mkRun (Ret r) [ERun cmd] (later 1 s)
  else mkRun (Raise FileNotFoundError) [ERun cmd] (later 1 s).
Proof.
  unfold subprocess_run. msimpl.
  destruct (which w (hd EmptyString cmd)); msimpl; [|reflexivity].
  destruct (kills_caller w (clock s) cmd); msimpl; [reflexivity|].
  destruct (check && negb (returncode (proc w (clock s) cmd) =? 0)); reflexivity.
Qed.

(** [time.sleep] by cases: the exception for a length it cannot sleep,
    the delivery of a signal that arrives meanwhile, else the sleep. *)
Lemma time_sleep_run (w : World) (secs : Z) (s : State) :
  time_sleep w secs s =
  match sleep_error w (clock s) secs with
  | Some e => mkRun (Raise e) [] (later 1 s)
  | None =>
      match pending_signal w (clock s) with
      | Some sig => deliver w sig (later 1 s)
      | None => mkRun (Ret tt) [ESleep secs] (later 1 s)
      end
  end.
Proof.
  unfold time_sleep. unfold bind at 1, tick at 1.
  change (mkState (S (clock s)) (handlers s)) with (later 1 s).
  destruct (sleep_error w (clock s) secs) as [e|]; [reflexivity|].
  destruct (pending_signal w (clock s)) as [sig|]; [|reflexivity].
  cbn [app]. now destruct (deliver w sig (later 1 s)).
Qed.

Lemma sleeps_bounds (w : World) (secs : Z) : sleeps w secs -> 0 <= secs <= sleep_max.
Proof.
  intro H. specialize (H O). unfold sleep_error in H.
  destruct (Z.ltb_spec secs 0); [discriminate|].
  destruct (Z.ltb_spec sleep_max secs); [discriminate | lia].
Qed.

(** ** Driving the service *)

(** [run_cmd] with [sudo] and without [check], as [service_action] calls
    it: a fatal error where privileges cannot be had, else the command's
    result, unless the command ends the script. *)
Lemma run_cmd_sudo (w : World) (cmd : list string) (s : State) :
  which w (hd EmptyString (if is_root w then cmd else "sudo" :: cmd)) = true
  \/ (is_root w || has_sudo w) = false ->
  run_cmd w cmd true false s =
  if is_root w || has_sudo w then
    let cmd' := if is_root w then cmd else "sudo" :: cmd in
    if kills_caller w (clock s) cmd'
    then mkRun (Killed SIGTERM) [ERun cmd'] (later 1 s)
    else mkRun (Ret (proc w (clock s) cmd')) [ERun cmd'] (later 1 s)
  else mkRun (Raise (SystemExit 2)) [EPrint (alert_line no_sudo_error)] s.
Proof.
  unfold run_cmd. intro H.
  destruct (is_root w) eqn:Hr; cbn [negb andb orb].
  - destruct H as [H|H]; [|discriminate].
    unfold bind at 1. msimpl. unfold try_except.
    rewrite subprocess_run_unfold, H. cbv zeta.
    destruct (kills_caller w (clock s) cmd); reflexivity.
  - destruct (has_sudo w) eqn:Hs; cbn [negb].
    + unfold bind at 1. msimpl. unfold try_except.
      rewrite subprocess_run_unfold. cbn [hd].
      unfold has_sudo in Hs. rewrite Hs. cbv zeta.
      destruct (kills_caller w (clock s) ("sudo" :: cmd)); reflexivity.
    + unfold bind at 1. unfold bind at 1.
      rewrite error_exits by lia. reflexivity.
Qed.

Lemma service_action_run (w : World) (action : string) (s : State) :
  service_action w action s =
  if on_windows w then
    mkRun (Ret tt)
      [EPrint (alert_line ("Windows detected - manual service management required for '"
                           ++ action ++ "'"));
       EPrint (log_line ("On Windows, please " ++ action ++ " Tor service manually"))] s
  else
    match detect_service_manager w with
    | None => mkRun (Raise (SystemExit 3)) [EPrint (alert_line no_manager_error)] s
    | Some _ =>
        if is_root w || has_sudo w then
          if kills_caller w (clock s) (service_cmd w action)
          then mkRun (Killed SIGTERM) [ERun (service_cmd w action)] (later 1 s)
          else
            mkRun (Ret tt)
              (ERun (service_cmd w action)
               :: service_complaint action (proc w (clock s) (service_cmd w action)))
              (later 1 s)
        else mkRun (Raise (SystemExit 2)) [EPrint (alert_line no_sudo_error)] s
    end.
Proof.
  unfold service_action.
  destruct (on_windows w); [reflexivity|].
  assert (Hrun : forall cmd,
    which w (hd EmptyString (if is_root w then cmd else "sudo" :: cmd)) = true
    \/ (is_root w || has_sudo w) = false ->
    bind (run_cmd w cmd true false)
      (fun result =>
         if negb (returncode result =? 0)
         then warning ("Failed to " ++ action ++ " tor service: " ++ Py.strip (stderr result))
         else ret tt) s =
    if is_root w || has_sudo w then
      let cmd' := if is_root w then cmd else "sudo" :: cmd in
      if kills_caller w (clock s) cmd'
      then mkRun (Killed SIGTERM) [ERun cmd'] (later 1 s)
      else
        mkRun (Ret tt) (ERun cmd' :: service_complaint action (proc w (clock s) cmd'))
          (later 1 s)
    else mkRun (Raise (SystemExit 2)) [EPrint (alert_line no_sudo_error)] s).
  { intros cmd H. unfold bind. rewrite (run_cmd_sudo w cmd s H).
    destruct (is_root w || has_sudo w); [|reflexivity].
    cbn zeta.
    destruct (kills_caller w (clock s) (if is_root w then cmd else "sudo" :: cmd));
      [reflexivity|].
    msimpl. unfold service_complaint.
    destruct (returncode _ =? 0); reflexivity. }
  assert (Hsudo : forall cmd, which w (hd EmptyString cmd) = true ->
    which w (hd EmptyString (if is_root w then cmd else "sudo" :: cmd)) = true
    \/ (is_root w || has_sudo w) = false).
  { intros cmd Hc. destruct (is_root w); [now left|]. cbn [hd orb].
    unfold has_sudo. destruct (which w "sudo"); auto. }
  unfold service_cmd, detect_service_manager.
  destruct (which w "systemctl") eqn:E1; cbn [andb].
  - destruct (path_exists w "/run/systemd/system") eqn:E2.
    + change (is_str (Some "systemctl") "systemctl") with true. cbv iota.
      rewrite bind_ret_l. apply Hrun, Hsudo. exact E1.
    + destruct (which w "service") eqn:E3.
      * change (is_str (Some "service") "systemctl") with false.
        change (is_str (Some "service") "service") with true. cbv iota.
        rewrite bind_ret_l. apply Hrun, Hsudo. exact E3.
      * change (is_str None "systemctl") with false.
        change (is_str None "service") with false. cbv iota.
        unfold bind at 1. unfold bind at 1.
        rewrite error_exits by lia. reflexivity.
  - destruct (which w "service") eqn:E3.
    + change (is_str (Some "service") "systemctl") with false.
      change (is_str (Some "service") "service") with true. cbv iota.
      rewrite bind_ret_l. apply Hrun, Hsudo. exact E3.
    + change (is_str None "systemctl") with false.
      change (is_str None "service") with false. cbv iota.
      unfold bind at 1. unfold bind at 1.
      rewrite error_exits by lia. reflexivity.
Qed.

(** The program the stop command is spawned from is one the script
    found, wherever the service can be driven. *)
Lemma service_cmd_found (w : World) (action : string) :
  on_windows w = false -> can_manage w = true ->
  which w (hd EmptyString (service_cmd w action)) = true.
Proof.
  unfold can_manage, service_cmd, detect_service_manager, has_sudo.
  intros -> H. cbn [orb] in H.
  destruct (which w "systemctl") eqn:E1; cbn [andb] in *.
  - destruct (path_exists w "/run/systemd/system").
    + change (is_str (Some "systemctl") "systemctl") with true. cbv iota.
      destruct (is_root w); cbn [hd]; [exact E1|]. cbn [orb andb] in H. exact H.
    + destruct (which w "service") eqn:E3; [|discriminate].
      change (is_str (Some "service") "systemctl") with false. cbv iota.
      destruct (is_root w); cbn [hd]; [exact E3|]. cbn [orb andb] in H. exact H.
  - destruct (which w "service") eqn:E3; [|discriminate].
    change (is_str (Some "service") "systemctl") with false. cbv iota.
    destruct (is_root w); cbn [hd]; [exact E3|]. cbn [orb andb] in H. exact H.
Qed.
(** ** Traces without events of a kind *)

Lemma lacks_nil (p : Event -> bool) : lacks p [].
Proof. constructor. Qed.

Lemma lacks_cons (p : Event -> bool) e ev :
  p e = false -> lacks p ev -> lacks p (e :: ev).
Proof. now constructor. Qed.

Lemma lacks_app (p : Event -> bool) ev1 ev2 :
  lacks p ev1 -> lacks p ev2 -> lacks p (ev1 ++ ev2).
Proof. intros. now apply Forall_app. Qed.

Lemma lacks_bind {A B} (p : Event -> bool) (m : M A) (k : A -> M B) s :
  lacks p (events (m s)) ->
  (forall a s', lacks p (events (k a s'))) ->
  lacks p (events (bind m k s)).
Proof. intros Hm Hk. apply Forall_events_bind; auto. intros; apply Hk. Qed.

Lemma lacks_try {A} (p : Event -> bool) (m : M A) c h s :
  lacks p (events (m s)) ->
  (forall e s', lacks p (events (h e s'))) ->
  lacks p (events (try_except m c h s)).
Proof. intros Hm Hh. apply Forall_events_try; auto. intros; apply Hh. Qed.

Lemma lacks_emit (p : Event -> bool) e s :
  p e = false -> lacks p (events (emit e s)).
Proof. intro H. cbn. now apply lacks_cons; [|apply lacks_nil]. Qed.

Lemma lacks_count (p : Event -> bool) ev :
  lacks p ev -> count_events p ev = 0%nat.
Proof.
  unfold count_events. induction 1 as [|e ev He _ IH]; cbn; [reflexivity|].
  now rewrite He.
Qed.

Lemma count_events_app (p : Event -> bool) ev1 ev2 :
  count_events p (ev1 ++ ev2) = (count_events p ev1 + count_events p ev2)%nat.
Proof. unfold count_events. now rewrite filter_app, length_app. Qed.

Lemma count_events_cons (p : Event -> bool) e ev :
  count_events p (e :: ev)
  = ((if p e then 1 else 0) + count_events p ev)%nat.
Proof. unfold count_events. cbn. now destruct (p e). Qed.

(** Decompose a goal [lacks p (events (c s))] along the structure of the
    computation [c]. *)
Ltac lacks_step :=
  lazymatch goal with
  | |- lacks _ (events (bind _ _ _)) => apply lacks_bind; [| intros ? ?]
  | |- lacks _ (events (try_except _ _ _ _)) => apply lacks_try; [| intros ? ?]
  | |- lacks _ (events (ret _ _)) => apply lacks_nil
  | |- lacks _ (events (raise _ _)) => apply lacks_nil
  | |- lacks _ (events (killed _ _)) => apply lacks_nil
  | |- lacks _ (events (tick _)) => apply lacks_nil
  | |- lacks _ (events (get_handlers _)) => apply lacks_nil
  | |- lacks _ (events (emit _ _)) => apply lacks_emit; reflexivity
  | |- lacks _ (events (print _ _)) => apply lacks_emit; reflexivity
  | |- lacks _ (events (log _ _)) => apply lacks_emit; reflexivity
  | |- lacks _ (events (warning _ _)) => apply lacks_emit; reflexivity
  | |- lacks _ (events ((if ?b then _ else _) _)) => destruct b
  | |- lacks _ (events ((match ?x with _ => _ end) _)) => destruct x
  | |- lacks _ (events ((let (_, _) := ?x in _) _)) => destruct x
  end.

Create HintDb lacks.

Ltac lacks_auto := repeat (cbv beta; first [ solve [auto with lacks] | lacks_step ]).

Lemma lacks_error (p : Event -> bool) msg code s :
  p (EPrint (alert_line msg)) = false -> lacks p (events (error msg code s)).
Proof.
  intro H. unfold error. apply lacks_bind; [now apply lacks_emit|].
  intros. destruct (0 <? code); apply lacks_nil.
Qed.

Lemma is_tor_running_lacks_rotate w s : lacks is_rotate (events (is_tor_running w s)).
Proof. unfold is_tor_running, subprocess_run. lacks_auto. Qed.

Lemma get_current_ip_lacks_rotate w s : lacks is_rotate (events (get_current_ip w s)).
Proof.
  unfold get_current_ip, is_tor_running, get_ip_via_tor, get_ip_direct,
    subprocess_run, requests_get, raise_for_status.
  lacks_auto.
Qed.

(** ** Order within a trace *)

Lemma precedes_lacks (p q : Event -> bool) ev : lacks q ev -> precedes p q ev.
Proof.
  intros H before e after -> Hq.
  apply Forall_app in H as [_ H]. inversion H; congruence.
Qed.

Lemma precedes_nil (p q : Event -> bool) : precedes p q [].
Proof. apply precedes_lacks, lacks_nil. Qed.

Lemma precedes_app (p q : Event -> bool) ev1 ev2 :
  precedes p q ev1 -> precedes p q ev2 -> precedes p q (ev1 ++ ev2).
Proof.
  intros H1 H2 before e after E Hq.
  apply app_eq_app in E as [l [[E1 E2] | [E1 E2]]].
  - destruct l as [|x l].
    + cbn in E2. destruct (H2 [] e after (eq_sym E2) Hq) as [? [[] _]].
    + cbn in E2. injection E2 as <- ->.
      exact (H1 before e l E1 Hq).
  - destruct (H2 l e after E2 Hq) as [e' [Hin He']].
    exists e'. split; auto. subst before. apply in_or_app; auto.
Qed.

Lemma precedes_after (p q : Event -> bool) ev1 ev2 :
  precedes p q ev1 -> Exists (fun e => p e = true) ev1 ->
  precedes p q (ev1 ++ ev2).
Proof.
  intros H1 Hex before e after E Hq.
  apply Exists_exists in Hex as [e' [Hin He']].
  apply app_eq_app in E as [l [[E1 E2] | [E1 E2]]].
  - destruct l as [|x l].
    + exists e'. split; auto. rewrite app_nil_r in E1. now subst.
    + cbn in E2. injection E2 as <- ->.
      exact (H1 before e l E1 Hq).
  - exists e'. split; auto. subst before. apply in_or_app; auto.
Qed.

Lemma precedes_cons_first (p q : Event -> bool) e ev :
  p e = true -> q e = false -> precedes p q (e :: ev).
Proof.
  intros Hp Hq. change (e :: ev) with ([e] ++ ev)%list.
  apply precedes_after.
  - apply precedes_lacks. now apply lacks_cons; [|apply lacks_nil].
  - now constructor.
Qed.

(** Where no [p]-event occurs, none of the [q]-events it must precede
    occurs either. *)
Lemma precedes_none (p q : Event -> bool) ev :
  precedes p q ev -> lacks p ev -> lacks q ev.
Proof.
  intros H L. apply Forall_forall. intros e Hin.
  destruct (q e) eqn:Hq; [|reflexivity].
  apply in_split in Hin as [before [after ->]].
  destruct (H before e after eq_refl Hq) as [e' [Hin' He']].
  unfold lacks in L. rewrite Forall_forall in L.
  rewrite (L e') in He' by (apply in_or_app; auto). discriminate.
Qed.
(** ** The IP Oracle *)

Lemma lacks_not_Exists (p : Event -> bool) ev :
  lacks p ev -> ~ Exists (fun e => p e = true) ev.
Proof.
  intros H Hex. apply Exists_exists in Hex as [e [Hin He]].
  unfold lacks in H. rewrite Forall_forall in H. specialize (H e Hin). congruence.
Qed.

Lemma lacks_filter (p : Event -> bool) ev : lacks p ev -> filter p ev = [].
Proof.
  induction 1 as [|e ev He _ IH]; [reflexivity|].
  cbn [filter]. now rewrite He.
Qed.


Lemma get_ip_via_tor_run (w : World) (s : State) :
  get_ip_via_tor w s =
  mkRun (Ret (oracle_answer w (clock s) true))
    (EGet ipify true ::
     match oracle_answer w (clock s) true with
     | Some _ => []
     | None => [EPrint (alert_line tor_fetch_warning)]
     end)
    (later 1 s).
Proof.
  unfold get_ip_via_tor, requests_get, raise_for_status, oracle_answer, ipify.
  mrun.
  destruct (http w (clock s) "https://api.ipify.org" true); msimpl; try reflexivity.
  destruct ((400 <=? status) && (status <? 600)); reflexivity.
Qed.

Lemma get_ip_direct_run (w : World) (s : State) :
  get_ip_direct w s =
  mkRun (Ret (oracle_answer w (clock s) false))
    (EGet ipify false ::
     match oracle_answer w (clock s) false with
     | Some _ => []
     | None => [EPrint (alert_line direct_fetch_warning)]
     end)
    (later 1 s).
Proof.
  unfold get_ip_direct, requests_get, raise_for_status, oracle_answer, ipify.
  mrun.
  destruct (http w (clock s) "https://api.ipify.org" false); msimpl; try reflexivity.
  destruct ((400 <=? status) && (status <? 600)); reflexivity.
Qed.

(** The probe by cases: the answer of [tasklist] where it can be run,
    unless it ends the script; else of [psutil] where it is installed, else
    of the SOCKS port; not on Windows, no answer at all. *)
Lemma is_tor_running_run (w : World) (s : State) :
  is_tor_running w s =
  if on_windows w then
    let tasklist := ["tasklist"; "/FI"; "IMAGENAME eq tor.exe"; "/FO"; "CSV"; "/NH"] in
    if which w "tasklist" then
      if kills_caller w (clock s) tasklist
      then mkRun (Killed SIGTERM) [ERun tasklist] (later 1 s)
      else
        mkRun (Ret (Some (Py.contains "tor.exe" (stdout (proc w (clock s) tasklist)))))
          [ERun tasklist] (later 1 s)
    else if psutil_installed w then
      mkRun (Ret (Some (existsb tor_name (process_names w (S (clock s))))))
        [ERun tasklist; EProcessIter] (later 2 s)
    else
      match sock_connect_ex w (S (clock s)) 9050 with
      | Some code =>
          mkRun (Ret (Some (code =? 0)))
            [ERun tasklist; EConnectEx 9050; EClose] (later 2 s)
      | None =>
          mkRun (Ret (Some false)) [ERun tasklist; EConnectEx 9050] (later 2 s)
      end
  else mkRun (Ret None) [] s.
Proof.
  unfold is_tor_running.
  destruct (on_windows w); [|reflexivity].
  unfold subprocess_run. mrun. cbn [hd].
  destruct (which w "tasklist"); msimpl.
  - destruct (kills_caller w (clock s) _); reflexivity.
  - destruct (psutil_installed w); msimpl; [reflexivity|].
    destruct (sock_connect_ex w (S (clock s)) 9050); reflexivity.
Qed.

(** The daemon probe never raises: it answers, unless its [tasklist]
    ends the script. *)
Lemma is_tor_running_result (w : World) (s : State) :
  (exists answer, result (is_tor_running w s) = Ret answer)
  \/ (result (is_tor_running w s) = Killed SIGTERM
      /\ kills_caller w (clock s)
           ["tasklist"; "/FI"; "IMAGENAME eq tor.exe"; "/FO"; "CSV"; "/NH"] = true).
Proof.
  rewrite is_tor_running_run.
  destruct (on_windows w); [|left; eexists; reflexivity]. cbv zeta.
  destruct (which w "tasklist").
  - destruct (kills_caller w (clock s) _); [right; split; reflexivity|].
    left; eexists; reflexivity.
  - destruct (psutil_installed w); [left; eexists; reflexivity|].
    destruct (sock_connect_ex w _ 9050); left; eexists; reflexivity.
Qed.

Lemma is_tor_running_returns (w : World) (s : State) :
  spared w -> exists answer, result (is_tor_running w s) = Ret answer.
Proof.
  intro Hs. destruct (is_tor_running_result w s) as [H|[_ H]]; [exact H|].
  rewrite Hs in H. discriminate.
Qed.

(** [get_current_ip]: the probe, then one query of the oracle, through the
    proxy exactly when the probe said the daemon runs. *)
Lemma get_current_ip_run (w : World) (s : State) :
  get_current_ip w s =
  let p := is_tor_running w s in
  match result p with
  | Ret answer =>
      let proxied := truthy_bool answer in
      mkRun (Ret (oracle_answer w (clock (final p)) proxied))
        (events p ++
         EGet ipify proxied ::
         match oracle_answer w (clock (final p)) proxied with
         | Some _ => []
         | None => [EPrint (alert_line (fetch_warning proxied))]
         end)
        (later 1 (final p))
  | Raise e => mkRun (Raise e) (events p) (final p)
  | Killed sig => mkRun (Killed sig) (events p) (final p)
  | Running => mkRun Running (events p) (final p)
  end.
Proof.
  unfold get_current_ip. cbv zeta.
  destruct (is_tor_running w s) as [res ev s1] eqn:E.
  cbn [result events final].
  destruct res as [answer|e|sig|].
  - rewrite (bind_Ret _ _ _ _ _ _ E).
    destruct (truthy_bool answer); cbn [fetch_warning];
      [rewrite get_ip_via_tor_run | rewrite get_ip_direct_run]; reflexivity.
  - unfold bind. now rewrite E.
  - unfold bind. now rewrite E.
  - unfold bind. now rewrite E.
Qed.

(** The query returns, whatever the oracle does, unless the probe's
    [tasklist] ends the script. *)
Lemma get_current_ip_result (w : World) (s : State) :
  (exists answer, result (get_current_ip w s) = Ret answer)
  \/ result (get_current_ip w s) = Killed SIGTERM.
Proof.
  rewrite get_current_ip_run. cbv zeta.
  destruct (is_tor_running_result w s) as [[a ->]|[-> _]]; [left|right];
    [eexists|]; reflexivity.
Qed.

Lemma get_current_ip_returns (w : World) (s : State) :
  spared w -> exists answer, result (get_current_ip w s) = Ret answer.
Proof.
  intro Hs. rewrite get_current_ip_run. cbv zeta.
  destruct (is_tor_running_returns w s Hs) as [a ->]. eexists; reflexivity.
Qed.

Lemma is_tor_running_lacks (p : Event -> bool) (w : World) (s : State) :
  (forall cmd, p (ERun cmd) = false) -> p EProcessIter = false ->
  (forall port, p (EConnectEx port) = false) -> p EClose = false ->
  lacks p (events (is_tor_running w s)).
Proof.
  intros H1 H2 H3 H4. rewrite is_tor_running_run.
  destruct (on_windows w); [|apply lacks_nil]. cbv zeta.
  destruct (which w "tasklist");
    [destruct (kills_caller w (clock s) _)
    |destruct (psutil_installed w);
      [|destruct (sock_connect_ex w _ 9050)]];
    cbn [events]; repeat (apply lacks_cons; [auto|]); apply lacks_nil.
Qed.

(** *** What the query of the oracle leaves in the trace *)

Lemma get_current_ip_lacks (p : Event -> bool) (w : World) (s : State) :
  (forall cmd, p (ERun cmd) = false) -> p EProcessIter = false ->
  (forall port, p (EConnectEx port) = false) -> p EClose = false ->
  (forall url proxied, p (EGet url proxied) = false) ->
  (forall proxied, p (EPrint (alert_line (fetch_warning proxied))) = false) ->
  lacks p (events (get_current_ip w s)).
Proof.
  intros H1 H2 H3 H4 H5 H6.
  pose proof (is_tor_running_lacks p w s H1 H2 H3 H4) as L.
  rewrite get_current_ip_run. cbv zeta.
  destruct (result (is_tor_running w s)); cbn [events]; auto.
  apply lacks_app; [exact L|].
  apply lacks_cons; [apply H5|].
  destruct (oracle_answer w _ _); [apply lacks_nil|].
  apply lacks_cons; [apply H6 | apply lacks_nil].
Qed.

Lemma get_current_ip_no_report (w : World) (s : State) :
  lacks is_report (events (get_current_ip w s)).
Proof. apply get_current_ip_lacks; auto. Qed.

Lemma get_current_ip_no_sleep (w : World) (s : State) :
  lacks is_sleep (events (get_current_ip w s)).
Proof. apply get_current_ip_lacks; auto. Qed.

Lemma get_current_ip_no_ack (w : World) (s : State) :
  lacks is_newnym_ack (events (get_current_ip w s)).
Proof. apply get_current_ip_lacks; auto. Qed.

(** Where the query returns, the oracle was asked. *)
Lemma get_current_ip_fetches (w : World) (s : State) (answer : option string) :
  result (get_current_ip w s) = Ret answer ->
  Exists (fun e => is_fetch e = true) (events (get_current_ip w s)).
Proof.
  rewrite get_current_ip_run. cbv zeta.
  destruct (result (is_tor_running w s)); cbn [result events]; try discriminate.
  intros _. apply Exists_app. right. now constructor.
Qed.

(** The oracle's warning in the trace means that no address came back. *)
Lemma get_current_ip_warned (w : World) (s : State) :
  Exists (fun e => is_fetch_warning e = true) (events (get_current_ip w s)) ->
  result (get_current_ip w s) = Ret None.
Proof.
  pose proof (is_tor_running_lacks is_fetch_warning w s) as L.
  rewrite get_current_ip_run. cbv zeta.
  destruct (result (is_tor_running w s)); cbn [events result]; intro Hex;
    try (exfalso; revert Hex; apply lacks_not_Exists; now apply L).
  apply Exists_app in Hex as [Hex|Hex].
  - exfalso. revert Hex. apply lacks_not_Exists. now apply L.
  - destruct (oracle_answer w _ _); [|reflexivity].
    exfalso. inversion Hex as [? ? E|? ? E]; [discriminate | inversion E].
Qed.

(** The query goes through the proxy exactly when the probe said so. *)
Lemma get_current_ip_path (w : World) (s : State) (answer : option bool) :
  result (is_tor_running w s) = Ret answer ->
  filter is_fetch (events (get_current_ip w s)) = [EGet ipify (truthy_bool answer)].
Proof.
  intro Ha. rewrite get_current_ip_run. cbv zeta. rewrite Ha. cbn [events].
  rewrite filter_app.
  rewrite (lacks_filter is_fetch (events (is_tor_running w s)))
    by (apply is_tor_running_lacks; auto).
  cbn [app filter is_fetch]. unfold ipify at 1. rewrite String.eqb_refl.
  destruct (oracle_answer w _ _); reflexivity.
Qed.
(** ** Stopping the services *)

Lemma pkill_step (w : World) (s0 : State) :
  bind (try_except (bind (subprocess_run w ["pkill"; "-f"; TOOL_NAME] false)
                      (fun _ => ret tt))
          any_exception (fun _ => ret tt))
    (fun _ => log ("Tor services and " ++ TOOL_NAME ++ " processes stopped.")) s0
  = mkRun (if pkill_kills w (clock s0) then Killed SIGTERM else Ret tt)
      (ERun pkill_cmd :: (if pkill_kills w (clock s0) then [] else [EPrint stopped_line]))
      (later 1 s0).
Proof.
  unfold pkill_kills, pkill_cmd, subprocess_run. mrun. cbn [hd].
  destruct (which w "pkill"); msimpl; [|reflexivity].
  destruct (kills_caller w (clock s0) _); reflexivity.
Qed.

(** [stop_services] by cases: the fatal errors of [service_action] where
    the service cannot be driven, else the attempt to stop the daemon and
    the [pkill], as far as these commands let the script live. *)
Lemma stop_services_run (w : World) (s : State) :
  stop_services w s =
  if on_windows w then stop_run w s
  else
    match detect_service_manager w with
    | None => mkRun (Raise (SystemExit 3)) [EPrint (alert_line no_manager_error)] s
    | Some _ =>
        if is_root w || has_sudo w then stop_run w s
        else mkRun (Raise (SystemExit 2)) [EPrint (alert_line no_sudo_error)] s
    end.
Proof.
  unfold stop_services, stop_run, stop_kills, stop_events, daemon_stop_events,
    daemon_stop_cmd, fatal_stop_events.
  destruct (on_windows w) eqn:Hw.
  - unfold bind at 1.
    assert (Hkill :
      bind (log "Windows detected - attempting to stop Tor processes...")
        (fun _ => try_except
           (bind (subprocess_run w ["taskkill"; "/F"; "/IM"; "tor.exe"] false)
              (fun _ => log "Tor processes stopped on Windows"))
           any_exception
           (fun _ => warning "Could not stop Tor processes on Windows")) s
      = if which w "taskkill" && kills_caller w (clock s) taskkill_cmd then
          mkRun (Killed SIGTERM)
            [EPrint (log_line "Windows detected - attempting to stop Tor processes...");
             ERun taskkill_cmd] (later 1 s)
        else
          mkRun (Ret tt)
            [EPrint (log_line "Windows detected - attempting to stop Tor processes...");
             ERun taskkill_cmd;
             EPrint (if which w "taskkill"
                     then log_line "Tor processes stopped on Windows"
                     else alert_line "Could not stop Tor processes on Windows")]
            (later 1 s)).
    { unfold subprocess_run, taskkill_cmd. mrun. cbn [hd].
      destruct (which w "taskkill"); msimpl; [|reflexivity].
      destruct (kills_caller w (clock s) _); reflexivity. }
    rewrite Hkill. cbn [hd taskkill_cmd].
    destruct (which w "taskkill" && kills_caller w (clock s) _); [reflexivity|].
    rewrite pkill_step. reflexivity.
  - unfold bind at 1. rewrite service_action_run, Hw.
    destruct (detect_service_manager w) as [mgr|] eqn:Hd; [|reflexivity].
    destruct (is_root w || has_sudo w) eqn:Hp; [|reflexivity].
    assert (Hc : can_manage w = true).
    { unfold can_manage. now rewrite Hw, Hd, Hp. }
    rewrite (service_cmd_found w "stop" Hw Hc). cbn [andb].
    destruct (kills_caller w (clock s) (service_cmd w "stop")); [reflexivity|].
    rewrite pkill_step. reflexivity.
Qed.

Lemma stop_services_can_manage (w : World) (s : State) :
  can_manage w = true -> stop_services w s = stop_run w s.
Proof.
  unfold can_manage. rewrite stop_services_run.
  destruct (on_windows w); [reflexivity|]. cbn [orb].
  destruct (detect_service_manager w); [|discriminate]. cbn [andb].
  now intros ->.
Qed.

(** The handler stops the services and then leaves with status 0, unless
    stopping already ended the run. *)
Lemma signal_handler_run (w : World) (sig : Signal) (s : State) :
  signal_handler w sig s =
  let r := stop_services w s in
  let received := EPrint (received_line w sig) in
  match result r with
  | Ret _ =>
      mkRun (Raise (SystemExit 0))
        (received :: events r ++ [EPrint terminated_line]) (final r)
  | Raise e => mkRun (Raise e) (received :: events r) (final r)
  | Killed g => mkRun (Killed g) (received :: events r) (final r)
  | Running => mkRun Running (received :: events r) (final r)
  end.
Proof.
  unfold signal_handler, received_line. cbv zeta.
  unfold bind at 1. unfold log at 1, print at 1, emit at 1.
  unfold bind at 1.
  destruct (stop_services w s) as [[[]|e|g|] ev s1]; cbn [result events final app];
    reflexivity.
Qed.

Lemma deliver_unfold (w : World) (sig : Signal) (s : State) :
  deliver w sig s =
  if existsb (Signal_eqb sig) (handlers s) then signal_handler w sig s
  else match sig with
       | SIGINT => mkRun (Raise KeyboardInterrupt) [] s
       | _ => mkRun (Killed sig) [] s
       end.
Proof.
  unfold deliver. unfold bind, get_handlers.
  destruct (existsb (Signal_eqb sig) (handlers s)).
  - now destruct (signal_handler w sig s).
  - destruct sig; reflexivity.
Qed.

(** Stopping the services returns, exits with a status of its own, or is
    ended by a command. *)
Lemma stop_services_result (w : World) (s : State) :
  match result (stop_services w s) with
  | Ret _ | Killed _ => True
  | Raise e => is_Exception e = false
  | Running => False
  end.
Proof.
  rewrite stop_services_run. unfold stop_run.
  destruct (on_windows w).
  - destruct (stop_kills w (clock s)); [exact I|].
    cbn [result]. now destruct (pkill_kills w _).
  - destruct (detect_service_manager w); [|reflexivity].
    destruct (is_root w || has_sudo w); [|reflexivity].
    destruct (stop_kills w (clock s)); [exact I|].
    cbn [result]. now destruct (pkill_kills w _).
Qed.

(** However a delivered signal is dealt with, control does not come back
    and no [except Exception] can catch what it raises. *)
Lemma deliver_result (w : World) (sig : Signal) (s : State) :
  match result (deliver w sig s) with
  | Ret _ | Running => False
  | Raise e => is_Exception e = false
  | Killed _ => True
  end.
Proof.
  rewrite deliver_unfold.
  destruct (existsb (Signal_eqb sig) (handlers s)).
  - rewrite signal_handler_run. cbv zeta.
    pose proof (stop_services_result w s) as H.
    destruct (result (stop_services w s)); cbn [result]; auto.
  - destruct sig; cbn; auto.
Qed.

Lemma lacks_cycle_event (ev : list Event) :
  lacks is_cycle_event ev ->
  lacks is_sleep ev /\ lacks is_rotate ev /\ lacks is_fetch ev
  /\ lacks is_report ev /\ lacks is_fetch_warning ev /\ lacks is_newnym_ack ev.
Proof.
  unfold lacks, is_cycle_event. rewrite !Forall_forall.
  intro H. repeat split; intros e He; specialize (H e He);
    repeat (apply orb_false_iff in H as [H ?]); auto.
Qed.

Lemma service_complaint_idle (action : string) (r : Completed) :
  lacks is_cycle_event (service_complaint action r).
Proof.
  unfold service_complaint. destruct (returncode r =? 0); [apply lacks_nil|].
  apply lacks_cons; [reflexivity | apply lacks_nil].
Qed.

Lemma service_cmd_stop_idle (w : World) :
  is_cycle_event (ERun (service_cmd w "stop")) = false.
Proof.
  unfold service_cmd.
  destruct (is_str _ "systemctl"), (is_root w); reflexivity.
Qed.

Lemma daemon_stop_events_idle (w : World) (t : nat) :
  lacks is_cycle_event (daemon_stop_events w t).
Proof.
  unfold daemon_stop_events. destruct (on_windows w).
  - destruct (which w "taskkill");
      repeat (apply lacks_cons; [reflexivity|]); apply lacks_nil.
  - apply lacks_cons; [apply service_cmd_stop_idle | apply service_complaint_idle].
Qed.

Lemma stop_run_idle (w : World) (s : State) :
  lacks is_cycle_event (events (stop_run w s)).
Proof.
  unfold stop_run. destruct (stop_kills w (clock s)); cbn [events].
  - unfold fatal_stop_events. destruct (on_windows w).
    + repeat (apply lacks_cons; [reflexivity|]); apply lacks_nil.
    + apply lacks_cons; [apply service_cmd_stop_idle | apply lacks_nil].
  - unfold stop_events. apply lacks_app; [apply daemon_stop_events_idle|].
    destruct (pkill_kills w _);
      repeat (apply lacks_cons; [reflexivity|]); apply lacks_nil.
Qed.

Lemma stop_services_idle (w : World) (s : State) :
  lacks is_cycle_event (events (stop_services w s)).
Proof.
  rewrite stop_services_run.
  destruct (on_windows w); [apply stop_run_idle|].
  destruct (detect_service_manager w).
  - destruct (is_root w || has_sudo w); [apply stop_run_idle|].
    cbn [events]. apply lacks_cons; [reflexivity | apply lacks_nil].
  - cbn [events]. apply lacks_cons; [reflexivity | apply lacks_nil].
Qed.

Lemma signal_name_cases (w : World) (sig : Signal) :
  In (signal_name w sig)
    ["SIGINT (Ctrl+C)"; "SIGQUIT (Ctrl+\)"; "SIGBREAK (Ctrl+Break)"; "SIGHUP"; "Unknown"].
Proof.
  unfold signal_name, hasattr_signal.
  destruct sig, (on_windows w); cbn; auto 10.
Qed.

Lemma received_line_idle (w : World) (sig : Signal) :
  is_cycle_event (EPrint (received_line w sig)) = false
  /\ is_daemon_stop (EPrint (received_line w sig)) = false
  /\ is_pkill (EPrint (received_line w sig)) = false
  /\ is_alert (EPrint (received_line w sig)) = false.
Proof.
  unfold received_line.
  pose proof (signal_name_cases w sig) as Hn. cbn [In] in Hn.
  destruct Hn as [<-|[<-|[<-|[<-|[<-|[]]]]]]; repeat split; reflexivity.
Qed.

(** Delivering a signal leaves none of the events of a cycle. *)
Lemma deliver_idle (w : World) (sig : Signal) (s : State) :
  lacks is_cycle_event (events (deliver w sig s)).
Proof.
  rewrite deliver_unfold.
  destruct (existsb (Signal_eqb sig) (handlers s)).
  - rewrite signal_handler_run. cbv zeta.
    pose proof (stop_services_idle w s) as L.
    destruct (received_line_idle w sig) as [Hr _].
    destruct (result (stop_services w s)); cbn [events];
      apply lacks_cons; auto.
    apply lacks_app; auto. apply lacks_cons; [reflexivity | apply lacks_nil].
  - destruct sig; apply lacks_nil.
Qed.
(** ** The shapes of a rotation *)

(** A sleep and what follows it: the exception of a sleep that cannot be
    had, the delivery of a signal that arrives meanwhile, else the sleep
    and the rest. *)
Lemma sleep_then {B} (w : World) (secs : Z) (k : unit -> M B) (s : State) (b : B) :
  bind (time_sleep w secs) k s =
  match sleep_error w (clock s) secs with
  | Some e => mkRun (Raise e) [] (later 1 s)
  | None =>
      match pending_signal w (clock s) with
      | Some sig =>
          let d := deliver w sig (later 1 s) in
          mkRun (and_then (result d) b) (events d) (final d)
      | None =>
          let g := k tt (later 1 s) in
          mkRun (result g) (ESleep secs :: events g) (final g)
      end
  end.
Proof.
  unfold bind. rewrite time_sleep_run.
  destruct (sleep_error w (clock s) secs) as [e|]; [reflexivity|].
  destruct (pending_signal w (clock s)) as [sig|].
  - pose proof (deliver_result w sig (later 1 s)) as H. cbv zeta.
    destruct (deliver w sig (later 1 s)) as [[[]|e|g|] ev s1]; cbn in *;
      try contradiction; reflexivity.
  - cbv zeta. now destruct (k tt (later 1 s)).
Qed.

(** Two seconds are never too long or too short for [time.sleep]: only
    the operating system can refuse them. *)
Lemma pause_error (w : World) (t : nat) (e : PyExc) :
  sleep_error w t 2 = Some e -> e = OSError "[Errno 22] Invalid argument".
Proof.
  unfold sleep_error. change (2 <? 0) with false. change (sleep_max <? 2) with false.
  cbv iota. destruct (sleep_refused w t 2); now intros [= <-].
Qed.

Lemma change_ip_posix (w : World) (s : State) :
  on_windows w = false -> ChangeIpRun w s (change_ip w s).
Proof.
  intro Hw. unfold change_ip. rewrite Hw.
  unfold bind at 1. rewrite service_action_run, Hw.
  destruct (detect_service_manager w) as [mgr|] eqn:Hd.
  - destruct (is_root w || has_sudo w) eqn:Hp.
    + assert (Hc : can_manage w = true).
      { unfold can_manage. now rewrite Hw, Hd, Hp. }
      destruct (kills_caller w (clock s) (service_cmd w "reload")) eqn:Hk.
      * now apply run_killed.
      * assert (Hrot : rotation_done w s
                  (ERun (service_cmd w "reload")
                   :: service_complaint "reload" (proc w (clock s) (service_cmd w "reload")))
                  (later 1 s)).
        { left. auto 10. }
        rewrite (sleep_then w 2 _ (later 1 s) None).
        destruct (sleep_error w (clock (later 1 s)) 2) as [e|] eqn:He.
        -- pose proof (run_sleepless w s _ _ e Hrot He) as R. rewrite Hw in R.
           cbn [result events final]. rewrite app_nil_r. exact R.
        -- destruct (pending_signal w (clock (later 1 s))) as [sig|] eqn:Hs.
           ++ exact (run_interrupted w s _ _ sig Hrot He Hs).
           ++ exact (run_fetched w s _ _ Hrot He Hs).
    + apply run_fatal; auto. unfold can_manage. now rewrite Hw, Hd, Hp.
  - apply run_fatal; auto. unfold can_manage. now rewrite Hw, Hd.
Qed.

Lemma change_ip_windows_shape (w : World) (s : State) :
  on_windows w = true -> ChangeIpRun w s (change_ip_windows w s).
Proof.
  intro Hw.
  unfold change_ip_windows. cbv zeta.
  change (Py.is_empty EmptyString) with true. cbn [negb].
  pose proof (fun s0 => sleep_then w 2 (fun _ => get_current_ip w) s0 None) as Htail.
  set (tail := bind (time_sleep w 2) (fun _ => get_current_ip w)) in *.
  unfold sock_connect_to, sock_send, sock_recv_text, sock_close, sock_result.
  destruct (newnym_acknowledged w (clock s)) eqn:Hack.
  - assert (Hrot : rotation_done w s newnym_events (later 2 s)) by (right; auto).
    unfold newnym_acknowledged in Hack.
    destruct (sock_connect w (clock s) 9051) as [[]| | |] eqn:Hc; try discriminate.
    destruct (sock_recv w (S (clock s))) as [response| | |] eqn:Hr; try discriminate.
    mrun. rewrite Hc. msimpl. rewrite Hr. msimpl. rewrite Hack.
    change (mkState (S (S (clock s))) (handlers s)) with (later 2 s).
    rewrite Htail.
    destruct (sleep_error w (clock (later 2 s)) 2) as [e|] eqn:He.
    + pose proof (run_sleepless w s _ _ e Hrot He) as R. rewrite Hw in R.
      rewrite (pause_error w _ e He) in *. exact R.
    + destruct (pending_signal w (clock (later 2 s))) as [sig|] eqn:Hs.
      * pose proof (run_interrupted w s _ _ sig Hrot He Hs) as R. cbv zeta in R.
        pose proof (deliver_result w sig (later 1 (later 2 s))) as D.
        cbv zeta.
        destruct (deliver w sig (later 1 (later 2 s))) as [[[]|e|g|] ev s1];
          cbn [result events final and_then] in *; try contradiction.
        -- rewrite D. exact R.
        -- exact R.
      * pose proof (run_fetched w s _ _ Hrot He Hs) as R. cbv zeta in R.
        cbv zeta.
        destruct (get_current_ip_result w (later 1 (later 2 s))) as [[a G]|G];
          destruct (get_current_ip w (later 1 (later 2 s))) as [res ev s1];
          cbn [result events final] in *; subst res; exact R.
  - unfold newnym_acknowledged in Hack.
    destruct (sock_connect w (clock s) 9051) as [[]| | |] eqn:Hc.
    2-4: mrun; rewrite Hc; msimpl;
         apply run_refused; auto;
         [unfold newnym_acknowledged; now rewrite Hc
         | repeat (apply lacks_cons; [reflexivity|]); apply lacks_nil].
    destruct (sock_recv w (S (clock s))) as [response| | |] eqn:Hr.
    2-4: mrun; rewrite Hc; msimpl; rewrite Hr; msimpl;
         apply run_refused; auto;
         [unfold newnym_acknowledged; now rewrite Hc, Hr
         | repeat (apply lacks_cons; [reflexivity|]); apply lacks_nil].
    mrun. rewrite Hc. msimpl. rewrite Hr. msimpl. rewrite Hack. msimpl.
    apply run_refused; auto;
      [unfold newnym_acknowledged; now rewrite Hc, Hr
      | repeat (apply lacks_cons; [reflexivity|]); apply lacks_nil].
Qed.

(** Every run of [change_ip] has one of the six shapes. *)
Lemma change_ip_cases (w : World) (s : State) : ChangeIpRun w s (change_ip w s).
Proof.
  destruct (on_windows w) eqn:Hw.
  - unfold change_ip. rewrite Hw. now apply change_ip_windows_shape.
  - now apply change_ip_posix.
Qed.
(** *** What the rotation proper leaves in the trace *)

Lemma service_cmd_reload_rotates (w : World) :
  is_rotate (ERun (service_cmd w "reload")) = true.
Proof.
  unfold service_cmd.
  destruct (is_str _ "systemctl"), (is_root w); reflexivity.
Qed.

Lemma service_cmd_reload_kind (w : World) :
  is_fetch (ERun (service_cmd w "reload")) = false
  /\ is_report (ERun (service_cmd w "reload")) = false
  /\ is_fetch_warning (ERun (service_cmd w "reload")) = false
  /\ is_sleep (ERun (service_cmd w "reload")) = false
  /\ is_newnym_ack (ERun (service_cmd w "reload")) = false.
Proof. repeat split; reflexivity. Qed.

Lemma rotation_done_shape (w : World) (s : State) rot s1 :
  rotation_done w s rot s1 ->
  exists e rest,
    rot = e :: rest /\ is_rotate e = true /\ lacks is_rotate rest
    /\ lacks is_fetch rot /\ lacks is_report rot /\ lacks is_fetch_warning rot
    /\ lacks is_sleep rot
    /\ (on_windows w = true -> Exists (fun e => is_newnym_ack e = true) rot).
Proof.
  intros [(Hw & _ & _ & -> & _) | (Hw & _ & -> & _)].
  - pose proof (service_complaint_idle "reload"
                  (proc w (clock s) (service_cmd w "reload"))) as L.
    apply lacks_cycle_event in L as (L1 & L2 & L3 & L4 & L5 & L6).
    do 2 eexists. split; [reflexivity|].
    split; [apply service_cmd_reload_rotates|].
    repeat split; auto; try (apply lacks_cons; [reflexivity | assumption]).
    congruence.
  - do 2 eexists. split; [reflexivity|].
    split; [reflexivity|].
    repeat split; try (repeat (apply lacks_cons; [reflexivity|]); apply lacks_nil).
    intros _. unfold newnym_events. do 4 apply Exists_cons_tl.
    apply Exists_cons_hd. reflexivity.
Qed.

Lemma windows_error_line_kind (e : PyExc) :
  is_cycle_event (EPrint (windows_error_line e)) = false.
Proof. reflexivity. Qed.

(** *** What every rotation has in common *)

Section RotationFacts.

Variables (w : World) (s : State) (r : Run (option string)).
Hypothesis shape : ChangeIpRun w s r.

(** None of the events of a kind that the rotation proper, the delivery
    of a signal and the oracle's query all lack. *)
Lemma rotation_lacks (p : Event -> bool) :
  (forall e, p e = true -> is_cycle_event e = true) ->
  (forall cmd, p (ERun cmd) = false) -> p (EConnect 9051) = false ->
  (forall rot s1, rotation_done w s rot s1 -> lacks p rot) ->
  p (ESleep 2) = false ->
  (forall s1, lacks p (events (get_current_ip w s1))) ->
  lacks p (events r).
Proof.
  intros Hsub Hrun Hconn Hrot Hsleep Hget.
  assert (Hidle : forall ev, lacks is_cycle_event ev -> lacks p ev).
  { intros ev L. unfold lacks in *. rewrite Forall_forall in *.
    intros e He. specialize (L e He). destruct (p e) eqn:E; [|reflexivity].
    rewrite (Hsub e E) in L. discriminate. }
  assert (Hprint : forall text, is_cycle_event (EPrint text) = false ->
                     p (EPrint text) = false).
  { intros text H. destruct (p (EPrint text)) eqn:E; [|reflexivity].
    rewrite (Hsub _ E) in H. discriminate. }
  destruct shape as [code msg Hw Hc Hm | Hw Hc Hk | tail s' Hw Ha Ht
                    | rot s1 e Hr He | rot s1 sig Hr He Hp | rot s1 Hr He Hp];
    cbn [events].
  - apply lacks_cons; [|apply lacks_nil]. apply Hprint.
    destruct Hm as [[_ ->]|[_ ->]]; reflexivity.
  - apply lacks_cons; [apply Hrun | apply lacks_nil].
  - apply lacks_cons; [exact Hconn | now apply Hidle].
  - destruct (on_windows w); cbn [events]; [|now apply (Hrot rot s1)].
    apply lacks_app; [now apply (Hrot rot s1)|].
    apply lacks_cons; [|apply lacks_nil]. apply Hprint, windows_error_line_kind.
  - apply lacks_app; [now apply (Hrot rot s1)|]. apply Hidle, deliver_idle.
  - apply lacks_app; [now apply (Hrot rot s1)|].
    apply lacks_cons; [exact Hsleep | apply Hget].
Qed.

(** Nothing is reported inside [change_ip]. *)
Lemma rotation_no_report : lacks is_report (events r).
Proof.
  apply rotation_lacks; auto.
  - intros e H. unfold is_cycle_event. rewrite H. now rewrite !orb_true_r.
  - intros rot s1 Hr. now apply rotation_done_shape in Hr as (? & ? & ? & ? & ? & ? & ? & ?).
  - apply get_current_ip_no_report.
Qed.

(** The oracle is asked only after a rotation was attempted. *)
Lemma rotation_before_fetch : precedes is_rotate is_fetch (events r).
Proof.
  destruct shape as [code msg Hw Hc Hm | Hw Hc Hk | tail s' Hw Ha Ht
                    | rot s1 e Hr He | rot s1 sig Hr He Hp | rot s1 Hr He Hp];
    cbn [events].
  - apply precedes_lacks. apply lacks_cons; [reflexivity | apply lacks_nil].
  - apply precedes_lacks. apply lacks_cons; [reflexivity | apply lacks_nil].
  - apply precedes_lacks. apply lacks_cycle_event in Ht.
    apply lacks_cons; [reflexivity | tauto].
  - apply rotation_done_shape in Hr as (e0 & rest & -> & _ & _ & L & _).
    apply precedes_lacks. destruct (on_windows w); cbn [events]; [|exact L].
    apply lacks_app; [exact L|]. apply lacks_cons; [reflexivity | apply lacks_nil].
  - apply rotation_done_shape in Hr as (e & rest & -> & _ & _ & L & _).
    apply precedes_lacks. apply lacks_app; [exact L|].
    pose proof (deliver_idle w sig (later 1 s1)) as D.
    apply lacks_cycle_event in D. tauto.
  - apply rotation_done_shape in Hr as (e & rest & -> & He' & _ & L & _).
    apply precedes_after; [now apply precedes_lacks | now constructor].
Qed.

(** An address comes back only from a query of the oracle. *)
Lemma address_needs_fetch (ip : string) :
  result r = Ret (Some ip) -> Exists (fun e => is_fetch e = true) (events r).
Proof.
  destruct shape as [code msg Hw Hc Hm | Hw Hc Hk | tail s' Hw Ha Ht
                    | rot s1 e Hr He | rot s1 sig Hr He Hp | rot s1 Hr He Hp];
    cbn [events result]; try discriminate.
  - destruct (on_windows w); discriminate.
  - pose proof (deliver_result w sig (later 1 s1)) as D.
    destruct (result (deliver w sig (later 1 s1))); try contradiction; discriminate.
  - intro G. apply Exists_app. right. apply Exists_cons_tl.
    exact (get_current_ip_fetches w _ _ G).
Qed.

(** Where the oracle's warning was printed, the rotation came back
    without an address, and it did come back. *)
Lemma rotation_warned :
  Exists (fun e => is_fetch_warning e = true) (events r) -> result r = Ret None.
Proof.
  destruct shape as [code msg Hw Hc Hm | Hw Hc Hk | tail s' Hw Ha Ht
                    | rot s1 e Hr He | rot s1 sig Hr He Hp | rot s1 Hr He Hp];
    cbn [events result]; intro Hex.
  - exfalso. destruct Hm as [[_ ->]|[_ ->]];
      (inversion Hex as [? ? E|? ? E]; [discriminate | inversion E]).
  - exfalso. inversion Hex as [? ? E|? ? E]; [discriminate | inversion E].
  - reflexivity.
  - apply rotation_done_shape in Hr as (e0 & rest & -> & _ & _ & _ & _ & L & _).
    destruct (on_windows w); cbn [events result] in *; [reflexivity|].
    exfalso. revert Hex. now apply lacks_not_Exists.
  - exfalso. apply rotation_done_shape in Hr as (e & rest & -> & _ & _ & _ & _ & L & _).
    apply Exists_app in Hex as [Hex|Hex]; revert Hex; apply lacks_not_Exists; auto.
    pose proof (deliver_idle w sig (later 1 s1)) as D.
    apply lacks_cycle_event in D. tauto.
  - apply rotation_done_shape in Hr as (e & rest & -> & _ & _ & _ & _ & L & _).
    apply Exists_app in Hex as [Hex|Hex].
    + exfalso. revert Hex. now apply lacks_not_Exists.
    + inversion Hex as [? ? E|? ? E]; [discriminate|].
      now apply get_current_ip_warned.
Qed.

(** On Windows the oracle is asked only after the acknowledgement. *)
Lemma ack_before_fetch :
  on_windows w = true -> precedes is_newnym_ack is_fetch (events r).
Proof.
  intro Hwin.
  destruct shape as [code msg Hw Hc Hm | Hw Hc Hk | tail s' Hw Ha Ht
                    | rot s1 e Hr He | rot s1 sig Hr He Hp | rot s1 Hr He Hp];
    cbn [events].
  - congruence.
  - congruence.
  - apply precedes_lacks. apply lacks_cycle_event in Ht.
    apply lacks_cons; [reflexivity | tauto].
  - apply rotation_done_shape in Hr as (e0 & rest & -> & _ & _ & L & _).
    apply precedes_lacks. rewrite Hwin. cbn [events].
    apply lacks_app; [exact L|]. apply lacks_cons; [reflexivity | apply lacks_nil].
  - apply rotation_done_shape in Hr as (e & rest & -> & _ & _ & L & _).
    apply precedes_lacks. apply lacks_app; [exact L|].
    pose proof (deliver_idle w sig (later 1 s1)) as D.
    apply lacks_cycle_event in D. tauto.
  - apply rotation_done_shape in Hr as (e & rest & -> & He' & _ & L & _ & _ & _ & Hack).
    apply precedes_after; [now apply precedes_lacks | auto].
Qed.

(** Where the service can be driven, a rotation begins with its one
    rotation attempt. *)
Lemma rotation_attempt :
  can_manage w = true ->
  exists e rest,
    events r = e :: rest /\ is_rotate e = true /\ lacks is_rotate rest.
Proof.
  intro Hcm.
  destruct shape as [code msg Hw Hc Hm | Hw Hc Hk | tail s' Hw Ha Ht
                    | rot s1 e Hr He | rot s1 sig Hr He Hp | rot s1 Hr He Hp];
    cbn [events].
  - congruence.
  - do 2 eexists. split; [reflexivity|].
    split; [apply service_cmd_reload_rotates | apply lacks_nil].
  - do 2 eexists. split; [reflexivity|]. split; [reflexivity|].
    apply lacks_cycle_event in Ht. tauto.
  - apply rotation_done_shape in Hr as (e0 & rest & -> & He0 & L & _).
    destruct (on_windows w); cbn [events app]; do 2 eexists;
      (split; [reflexivity|]); (split; [exact He0|]); [|exact L].
    apply lacks_app; [exact L|]. apply lacks_cons; [reflexivity | apply lacks_nil].
  - apply rotation_done_shape in Hr as (e & rest & -> & He' & L & _).
    cbn [app]. do 2 eexists. split; [reflexivity|]. split; [exact He'|].
    apply lacks_app; [exact L|].
    pose proof (deliver_idle w sig (later 1 s1)) as D.
    apply lacks_cycle_event in D. tauto.
  - apply rotation_done_shape in Hr as (e & rest & -> & He' & L & _).
    cbn [app]. do 2 eexists. split; [reflexivity|]. split; [exact He'|].
    apply lacks_app; [exact L|].
    apply lacks_cons; [reflexivity | apply get_current_ip_lacks_rotate].
Qed.

(** In a steady environment in which the service can be driven, the
    rotation comes back after exactly one attempt. *)
Lemma rotation_calm :
  steady w -> can_manage w = true ->
  (exists answer, result r = Ret answer)
  /\ count_events is_rotate (events r) = 1%nat.
Proof.
  intros (Hq & Hs & _ & Hz) Hcm.
  destruct (rotation_attempt Hcm) as (e0 & rest & E & He0 & L).
  split.
  - destruct shape as [code msg Hw Hc Hm | Hw Hc Hk | tail s' Hw Ha Ht
                      | rot s1 e Hr He | rot s1 sig Hr He Hp | rot s1 Hr He Hp];
      cbn [result].
    + congruence.
    + rewrite Hs in Hk. discriminate.
    + eauto.
    + rewrite Hz in He. discriminate.
    + rewrite Hq in Hp. discriminate.
    + now apply get_current_ip_returns.
  - rewrite E, count_events_cons, He0, (lacks_count _ _ L). reflexivity.
Qed.

End RotationFacts.

(** ** One cycle *)

(** A cycle, step by step: the configuration error where the interval is
    rejected; the exception of [time.sleep] for a delay it cannot sleep; the
    signal's delivery where one arrives during the sleep; otherwise the
    sleep, the rotation and the report of its outcome. *)
Lemma cycle_run (w : World) (interval_str : string) (s : State) :
  cycle w interval_str s =
  match resolve w (clock s) interval_str with
  | None => mkRun (Raise (SystemExit 8)) [EPrint (alert_line interval_error)] s
  | Some d =>
      let s1 := before_sleep interval_str s in
      match sleep_error w (clock s1) d with
      | Some e => mkRun (Raise e) [] (later 1 s1)
      | None =>
          match pending_signal w (clock s1) with
          | Some sig =>
              let r := deliver w sig (later 1 s1) in
              mkRun (and_then (result r) tt) (events r) (final r)
          | None =>
              let r := change_ip w (later 1 s1) in
              mkRun (and_then (result r) tt)
                (ESleep d :: events r ++ report_events (result r)) (final r)
          end
      end
  end.
Proof.
  unfold cycle. unfold bind at 1. rewrite parse_interval_run.
  destruct (resolve w (clock s) interval_str) as [d|] eqn:Hr; [|reflexivity].
  cbn [result events final app]. cbv zeta.
  set (s1 := before_sleep interval_str s).
  rewrite (sleep_then w d _ s1 tt).
  destruct (sleep_error w (clock s1) d) as [e|]; [reflexivity|].
  destruct (pending_signal w (clock s1)) as [sig|]; [reflexivity|].
  cbv zeta. unfold bind.
  destruct (change_ip w (later 1 s1)) as [res ev s2]. cbn.
  destruct res as [[ip|]| | |]; cbn; rewrite ?app_nil_r; try reflexivity.
  destruct (Py.is_empty ip); cbn; rewrite ?app_nil_r; reflexivity.
Qed.

(** ** The two loops *)

Lemma report_events_lacks (p : Event -> bool) (outcome : Res (option string)) :
  (forall text, p (EPrint (log_line text)) = false) ->
  lacks p (report_events outcome).
Proof.
  intro H. destruct outcome as [[ip|]| | |]; try apply lacks_nil.
  cbn [report_events].
  destruct (Py.is_empty ip); [apply lacks_nil|].
  apply lacks_cons; [apply H | apply lacks_nil].
Qed.

(** The guard turns a cycle's normal end into "next" and an uncaught
    Ctrl+C into "break"; it adds no event. *)
Lemma guarded_cycle_run (w : World) (interval_str : string) (s : State) :
  guarded_cycle w interval_str s =
  let c := cycle w interval_str s in
  mkRun (match result c with
         | Ret _ => Ret Next
         | Raise KeyboardInterrupt => Ret Break
         | Raise e => Raise e
         | Killed sig => Killed sig
         | Running => Running
         end) (events c) (final c).
Proof.
  unfold guarded_cycle, try_except, bind, ret. cbv zeta.
  destruct (cycle w interval_str s) as [res ev s'].
  destruct res as [[]|e| |]; cbn [result events final is_KeyboardInterrupt];
    rewrite ?app_nil_r; try reflexivity.
  destruct e; cbn [is_KeyboardInterrupt]; rewrite ?app_nil_r; reflexivity.
Qed.

Lemma for_range_S (n : nat) (body : M Flow) (s : State) :
  for_range (S n) body s =
  let b := body s in
  match result b with
  | Ret Next =>
      let r := for_range n body (final b) in
      mkRun (result r) (events b ++ events r) (final r)
  | Ret Break => mkRun (Ret tt) (events b) (final b)
  | Raise e => mkRun (Raise e) (events b) (final b)
  | Killed sig => mkRun (Killed sig) (events b) (final b)
  | Running => mkRun Running (events b) (final b)
  end.
Proof.
  cbn [for_range]. unfold bind. cbv zeta.
  destruct (body s) as [res ev s']. cbn [result events final].
  destruct res as [[]| | |]; try reflexivity.
  - now destruct (for_range n body s').
  - unfold ret. now rewrite app_nil_r.
Qed.

Lemma while_true_S (fuel : nat) (body : M Flow) (s : State) :
  while_true (S fuel) body s =
  let b := body s in
  match result b with
  | Ret Next =>
      let r := while_true fuel body (final b) in
      mkRun (result r) (events b ++ events r) (final r)
  | Ret Break => mkRun (Ret tt) (events b) (final b)
  | Raise e => mkRun (Raise e) (events b) (final b)
  | Killed sig => mkRun (Killed sig) (events b) (final b)
  | Running => mkRun Running (events b) (final b)
  end.
Proof.
  cbn [while_true]. unfold bind. cbv zeta.
  destruct (body s) as [res ev s']. cbn [result events final].
  destruct res as [[]| | |]; try reflexivity.
  - now destruct (while_true fuel body s').
  - unfold ret. now rewrite app_nil_r.
Qed.

(** A property of traces that holds of every pass and is kept by
    concatenation holds of the whole loop. *)
Lemma for_range_events (P : list Event -> Prop) (body : M Flow) :
  P [] -> (forall a b, P a -> P b -> P (a ++ b)%list) ->
  (forall s, P (events (body s))) ->
  forall n s, P (events (for_range n body s)).
Proof.
  intros Hnil Happ Hbody. induction n as [|n IH]; intro s; [exact Hnil|].
  rewrite for_range_S. cbn zeta. specialize (Hbody s).
  destruct (result (body s)) as [[]| | |]; cbn [events]; auto.
Qed.

Lemma while_true_events (P : list Event -> Prop) (body : M Flow) :
  P [] -> (forall a b, P a -> P b -> P (a ++ b)%list) ->
  (forall s, P (events (body s))) ->
  forall fuel s, P (events (while_true fuel body s)).
Proof.
  intros Hnil Happ Hbody. induction fuel as [|n IH]; intro s; [exact Hnil|].
  rewrite while_true_S. cbn zeta. specialize (Hbody s).
  destruct (result (body s)) as [[]| | |]; cbn [events]; auto.
Qed.

Lemma change_ip_repeatedly_events (P : list Event -> Prop) (w : World)
    (interval_str : string) :
  P [] -> (forall a b, P a -> P b -> P (a ++ b)%list) ->
  (forall s, P (events (cycle w interval_str s))) ->
  forall fuel count s, P (events (change_ip_repeatedly w fuel interval_str count s)).
Proof.
  intros Hnil Happ Hc fuel count s. unfold change_ip_repeatedly.
  assert (Hg : forall s, P (events (guarded_cycle w interval_str s))).
  { intro s0. rewrite guarded_cycle_run. apply Hc. }
  destruct (count =? 0); [now apply while_true_events | now apply for_range_events].
Qed.

(** In a steady environment a cycle ends normally after one rotation. *)
Lemma guarded_cycle_calm (w : World) (interval_str : string) (s : State) :
  steady w -> paced w interval_str -> can_manage w = true ->
  result (guarded_cycle w interval_str s) = Ret Next
  /\ count_events is_rotate (events (guarded_cycle w interval_str s)) = 1%nat.
Proof.
  intros Hst (lo & hi & Hb & Hle & Hsl) Hc.
  rewrite guarded_cycle_run, cycle_run. cbn zeta.
  pose proof (resolve_bounds w (clock s) _ _ _ Hb Hle) as Hd.
  set (d := if Py.has_char "-" interval_str then _ else lo) in Hd.
  assert (Hin : lo <= d <= hi).
  { destruct Hst as (_ & _ & Hf & _).
    exact (resolve_within w _ _ _ _ _ Hf Hb Hd). }
  rewrite Hd, (Hsl d Hin).
  destruct Hst as (Hq & Hst). rewrite Hq.
  set (s1 := later 1 _).
  destruct (rotation_calm w s1 _ (change_ip_cases w s1) (conj Hq Hst) Hc)
    as [[answer Ha] Hn].
  cbn [result events final]. rewrite Ha. split; [reflexivity|].
  rewrite count_events_cons, count_events_app, Hn.
  rewrite (lacks_count is_rotate (report_events _)); [reflexivity|].
  now apply report_events_lacks.
Qed.

Lemma for_range_calm (w : World) (interval_str : string) :
  steady w -> paced w interval_str -> can_manage w = true ->
  forall n s,
    let r := for_range n (guarded_cycle w interval_str) s in
    result r = Ret tt /\ count_events is_rotate (events r) = n.
Proof.
  intros Hq Hi Hc. induction n as [|n IH]; intro s; [now split|].
  cbn zeta. rewrite for_range_S. cbn zeta.
  destruct (guarded_cycle_calm w interval_str s Hq Hi Hc) as [Hr Hn].
  rewrite Hr. cbn [result events].
  destruct (IH (final (guarded_cycle w interval_str s))) as [IH1 IH2].
  split; [exact IH1|]. rewrite count_events_app, Hn, IH2. reflexivity.
Qed.

Lemma while_true_calm (w : World) (interval_str : string) :
  steady w -> paced w interval_str -> can_manage w = true ->
  forall fuel s,
    let r := while_true fuel (guarded_cycle w interval_str) s in
    result r = Running /\ count_events is_rotate (events r) = fuel.
Proof.
  intros Hq Hi Hc. induction fuel as [|n IH]; intro s; [now split|].
  cbn zeta. rewrite while_true_S. cbn zeta.
  destruct (guarded_cycle_calm w interval_str s Hq Hi Hc) as [Hr Hn].
  rewrite Hr. cbn [result events].
  destruct (IH (final (guarded_cycle w interval_str s))) as [IH1 IH2].
  split; [exact IH1|]. rewrite count_events_app, Hn, IH2. reflexivity.
Qed.

(** In a steady environment any number of cycles complete in a row. *)
Lemma cycles_calm (w : World) (interval_str : string) :
  steady w -> paced w interval_str -> can_manage w = true ->
  forall n s, exists trace s', Cycles w interval_str n s trace s'.
Proof.
  intros Hq Hi Hc. induction n as [|n IH]; intro s.
  - do 2 eexists. apply cycles_none.
  - destruct (guarded_cycle_calm w interval_str s Hq Hi Hc) as [Hr _].
    destruct (IH (final (guarded_cycle w interval_str s))) as (trace & s' & H).
    do 2 eexists. apply cycles_more; eauto.
Qed.

(** The trace of a cycle that got past its sleep. *)
Lemma cycle_slept_order (w : World) (s : State) (d : Z) :
  let r := change_ip w s in
  let trace := (ESleep d :: events r ++ report_events (result r))%list in
  precedes (is_sleep_of d) is_rotate trace
  /\ precedes is_rotate is_fetch trace
  /\ precedes is_fetch is_report trace.
Proof.
  cbn zeta. pose proof (change_ip_cases w s) as shape.
  split; [|split].
  - apply precedes_cons_first; [apply Z.eqb_refl | reflexivity].
  - change (ESleep d :: ?l)%list with ([ESleep d] ++ l)%list.
    apply precedes_app; [apply precedes_lacks; now repeat constructor|].
    apply precedes_app; [now apply (rotation_before_fetch w s)|].
    apply precedes_lacks. now apply report_events_lacks.
  - rewrite app_comm_cons.
    assert (L : lacks is_report (ESleep d :: events (change_ip w s))).
    { apply lacks_cons; [reflexivity | now apply (rotation_no_report w s)]. }
    destruct (result (change_ip w s)) as [[ip|]| | |] eqn:E;
      try (cbn [report_events]; rewrite app_nil_r; now apply precedes_lacks).
    apply precedes_after; [now apply precedes_lacks|].
    apply Exists_cons_tl. now apply (address_needs_fetch w s _ shape ip).
Qed.

Lemma cycle_order (w : World) (interval_str : string) (s : State) :
  let trace := events (cycle w interval_str s) in
  match resolve w (clock s) interval_str with
  | Some d => precedes (is_sleep_of d) is_rotate trace
  | None => lacks is_rotate trace
  end
  /\ precedes is_rotate is_fetch trace
  /\ precedes is_fetch is_report trace.
Proof.
  cbn zeta. rewrite cycle_run.
  destruct (resolve w (clock s) interval_str) as [d|].
  - cbn zeta. destruct (sleep_error w _ d) as [e|].
    { cbn [events]. repeat split; apply precedes_nil. }
    destruct (pending_signal w _) as [sig|].
    + cbn [events].
      pose proof (deliver_idle w sig (later 1 (before_sleep interval_str s))) as D.
      apply lacks_cycle_event in D as (_ & D1 & D2 & D3 & _).
      repeat split; now apply precedes_lacks.
    + cbn [events]. apply cycle_slept_order.
  - cbn [events].
    repeat split; try apply precedes_lacks; now repeat constructor.
Qed.

Lemma cycle_sleeps_first (w : World) (interval_str : string) (s : State) :
  precedes is_sleep is_rotate (events (cycle w interval_str s)).
Proof.
  rewrite cycle_run.
  destruct (resolve w (clock s) interval_str) as [d|].
  - cbn zeta. destruct (sleep_error w _ d) as [e|]; [apply precedes_nil|].
    destruct (pending_signal w _) as [sig|].
    + cbn [events].
      pose proof (deliver_idle w sig (later 1 (before_sleep interval_str s))) as D.
      apply lacks_cycle_event in D as (_ & D1 & _). now apply precedes_lacks.
    + cbn [events]. now apply precedes_cons_first.
  - cbn [events]. apply precedes_lacks. now repeat constructor.
Qed.

(** ** The loop on a rejected interval *)

Lemma guarded_cycle_rejected (w : World) (interval_str : string) (s : State) :
  interval_ok interval_str = false ->
  guarded_cycle w interval_str s
  = mkRun (Raise (SystemExit 8)) [EPrint (alert_line interval_error)] s.
Proof.
  intro H. rewrite guarded_cycle_run, cycle_run.
  now rewrite (resolve_rejected _ _ _ H).
Qed.

(** ** After some completed cycles *)

Lemma for_range_after (w : World) (interval_str : string) (n : nat)
    (s s' : State) (trace : list Event) :
  Cycles w interval_str n s trace s' ->
  forall m,
    for_range (n + m) (guarded_cycle w interval_str) s =
    let r := for_range m (guarded_cycle w interval_str) s' in
    mkRun (result r) (trace ++ events r) (final r).
Proof.
  induction 1 as [s | n s s' trace Hr _ IH]; intro m.
  - cbn [Nat.add app]. cbv zeta. symmetry. apply run_eta.
  - cbn [Nat.add]. rewrite for_range_S. cbv zeta. rewrite Hr, IH.
    cbv zeta. cbn [result events final]. now rewrite app_assoc.
Qed.

Lemma while_true_after (w : World) (interval_str : string) (n : nat)
    (s s' : State) (trace : list Event) :
  Cycles w interval_str n s trace s' ->
  forall m,
    while_true (n + m) (guarded_cycle w interval_str) s =
    let r := while_true m (guarded_cycle w interval_str) s' in
    mkRun (result r) (trace ++ events r) (final r).
Proof.
  induction 1 as [s | n s s' trace Hr _ IH]; intro m.
  - cbn [Nat.add app]. cbv zeta. symmetry. apply run_eta.
  - cbn [Nat.add]. rewrite while_true_S. cbv zeta. rewrite Hr, IH.
    cbv zeta. cbn [result events final]. now rewrite app_assoc.
Qed.

(** After [n] completed cycles, the loop goes on as it would from the
    state they left, for as many cycles as remain. *)
Lemma change_ip_repeatedly_after (w : World) (interval_str : string) (n : nat)
    (s s' : State) (trace : list Event) (fuel : nat) (count : Z) :
  Cycles w interval_str n s trace s' ->
  (count = 0 /\ (n <= fuel)%nat) \/ (n <= Z.to_nat count)%nat /\ 0 < count ->
  change_ip_repeatedly w fuel interval_str count s =
  let r := if count =? 0
           then while_true (fuel - n) (guarded_cycle w interval_str) s'
           else for_range (Z.to_nat count - n) (guarded_cycle w interval_str) s' in
  mkRun (result r) (trace ++ events r) (final r).
Proof.
  intros Hc [[-> Hn] | [Hn Hk]]; unfold change_ip_repeatedly.
  - cbn [Z.eqb]. replace fuel with (n + (fuel - n))%nat at 1 by lia.
    apply (while_true_after w interval_str n s s' trace Hc).
  - destruct (Z.eqb_spec count 0); [lia|].
    replace (Z.to_nat count) with (n + (Z.to_nat count - n))%nat at 1 by lia.
    apply (for_range_after w interval_str n s s' trace Hc).
Qed.
(** ** Malformed intervals *)

Lemma interval_bounds_split (a b : string) :
  Py.has_char "-" a = false ->
  interval_bounds (a ++ String "-" b) =
  match Py.int a, Py.int b with
  | Some lo, Some hi => Some (lo, hi)
  | _, _ => None
  end.
Proof.
  intro H. unfold interval_bounds.
  now rewrite has_hyphen_after, (split_once_app "-" a b H).
Qed.

(** Every malformed text is one the parser rejects. *)
Lemma malformed_rejected (text : string) :
  Malformed text -> interval_ok text = false.
Proof.
  unfold interval_ok.
  intros [t Hh Hi | a b Ha Hi | a b lo hi Ha Hlo Hhi Hlt | a b Ha Hb Hz].
  - unfold interval_bounds. now rewrite Hh, Hi.
  - rewrite (interval_bounds_split a b Ha).
    destruct Hi as [-> | ->]; [reflexivity|]. now destruct (Py.int a).
  - rewrite (interval_bounds_split a b Ha), Hlo, Hhi.
    destruct (Z.leb_spec lo hi); [lia | reflexivity].
  - rewrite (interval_bounds_split a b Ha).
    destruct (Py.int a) as [lo|] eqn:Ea; [|reflexivity].
    destruct (Py.int b) as [hi|] eqn:Eb; [|reflexivity].
    pose proof (int_without_hyphen a lo Ha Ea).
    pose proof (int_with_hyphen b hi Hb Eb).
    destruct (Z.leb_spec lo hi); [|reflexivity].
    exfalso. apply Hz. split; f_equal; lia.
Qed.



(** ** Startup and shutdown *)

Lemma setup_signal_handlers_run (w : World) (s : State) :
  setup_signal_handlers w s = mkRun (Ret tt) (setup_events w) (with_handlers w s).
Proof.
  unfold setup_signal_handlers, setup_events, with_handlers, register_first,
    termination_name, hasattr_signal, signal_signal.
  destruct (on_windows w); reflexivity.
Qed.

Lemma setup_events_plain (w : World) :
  lacks is_cycle_event (setup_events w)
  /\ lacks is_daemon_stop (setup_events w) /\ lacks is_pkill (setup_events w)
  /\ lacks is_alert (setup_events w).
Proof.
  unfold setup_events.
  destruct (on_windows w); repeat split;
    repeat (apply lacks_cons; [reflexivity|]); apply lacks_nil.
Qed.

Lemma service_cmd_stop_kind (w : World) :
  is_daemon_stop (ERun (service_cmd w "stop")) = true
  /\ is_pkill (ERun (service_cmd w "stop")) = false.
Proof.
  unfold service_cmd.
  destruct (is_str _ "systemctl"), (is_root w); split; reflexivity.
Qed.

Lemma service_complaint_plain (action : string) (r : Completed) :
  lacks is_daemon_stop (service_complaint action r)
  /\ lacks is_pkill (service_complaint action r)
  /\ filter is_alert (service_complaint action r) = service_complaint action r.
Proof.
  unfold service_complaint. destruct (returncode r =? 0); repeat split;
    repeat (apply lacks_cons; [reflexivity|]); apply lacks_nil.
Qed.

(** What the attempt to stop the daemon leaves in the trace: one stop
    command, no [pkill], and as warnings the complaints of [stop_alerts]. *)
Lemma daemon_stop_events_facts (w : World) (t : nat) :
  count_events is_daemon_stop (daemon_stop_events w t) = 1%nat
  /\ count_events is_pkill (daemon_stop_events w t) = 0%nat
  /\ filter is_alert (daemon_stop_events w t) = stop_alerts w t.
Proof.
  unfold daemon_stop_events, stop_alerts. destruct (on_windows w).
  - destruct (which w "taskkill"); repeat split; reflexivity.
  - destruct (service_cmd_stop_kind w) as [H1 H2].
    destruct (service_complaint_plain "stop" (proc w t (service_cmd w "stop")))
      as (L1 & L2 & L3).
    rewrite !count_events_cons, H1, H2, (lacks_count _ _ L1), (lacks_count _ _ L2).
    repeat split. cbn [filter is_alert]. exact L3.
Qed.

(** A complete stop leaves one attempt to stop the daemon and one to
    stop earlier runs. *)
Lemma stop_events_facts (w : World) (t : nat) :
  count_events is_daemon_stop (stop_events w t) = 1%nat
  /\ count_events is_pkill (stop_events w t) = 1%nat
  /\ filter is_alert (stop_events w t) = stop_alerts w t
  /\ lacks is_cycle_event (stop_events w t).
Proof.
  unfold stop_events.
  destruct (daemon_stop_events_facts w t) as (C1 & C2 & C3).
  rewrite !count_events_app, C1, C2, filter_app, C3.
  repeat split.
  - destruct (pkill_kills w (S t)); reflexivity.
  - destruct (pkill_kills w (S t)); reflexivity.
  - destruct (pkill_kills w (S t)); cbn; now rewrite app_nil_r.
  - apply lacks_app; [apply daemon_stop_events_idle|].
    destruct (pkill_kills w (S t));
      repeat (apply lacks_cons; [reflexivity|]); apply lacks_nil.
Qed.

(** The handler where the service can be driven and the command that
    stops the daemon spares the script: the whole cleanup, then status 0,
    unless [pkill] ends the script first. *)
Lemma signal_handler_spared (w : World) (sig : Signal) (s : State) :
  can_manage w = true -> stop_kills w (clock s) = false ->
  signal_handler w sig s =
  mkRun (if pkill_kills w (S (clock s)) then Killed SIGTERM else Raise (SystemExit 0))
    (EPrint (received_line w sig)
     :: stop_events w (clock s)
     ++ (if pkill_kills w (S (clock s)) then [] else [EPrint terminated_line]))
    (later 2 s).
Proof.
  intros Hc Hk. rewrite signal_handler_run, (stop_services_can_manage w s Hc).
  unfold stop_run. rewrite Hk. cbv zeta. cbn [result events final].
  destruct (pkill_kills w (S (clock s))); [|reflexivity].
  now rewrite app_nil_r.
Qed.

(** The handler where the service cannot be driven: the fatal error of
    [service_action], with its status. *)
Lemma signal_handler_unmanaged (w : World) (sig : Signal) (s : State) :
  can_manage w = false ->
  signal_handler w sig s =
  match detect_service_manager w with
  | None =>
      mkRun (Raise (SystemExit 3))
        [EPrint (received_line w sig); EPrint (alert_line no_manager_error)] s
  | Some _ =>
      mkRun (Raise (SystemExit 2))
        [EPrint (received_line w sig); EPrint (alert_line no_sudo_error)] s
  end.
Proof.
  unfold can_manage. intro Hc. rewrite signal_handler_run, stop_services_run.
  destruct (on_windows w); [discriminate|]. cbn [orb] in Hc.
  destruct (detect_service_manager w); [|reflexivity].
  cbn [andb] in Hc. rewrite Hc. reflexivity.
Qed.

(** ** An interrupted cycle *)

Lemma rotation_done_handlers (w : World) (s : State) rot s1 :
  rotation_done w s rot s1 -> handlers s1 = handlers s.
Proof. intros [(_ & _ & _ & _ & ->) | (_ & _ & _ & ->)]; reflexivity. Qed.

Lemma before_sleep_handlers (interval_str : string) (s : State) :
  handlers (before_sleep interval_str s) = handlers s.
Proof. unfold before_sleep. now destruct (Py.has_char "-" interval_str). Qed.

(** A cycle that a signal interrupts in one of its sleeps goes as far as
    the sleep and ends as the signal's delivery ends. *)
Lemma cycle_interrupted (w : World) (interval_str : string) (s : State)
    (sig : Signal) (before : list Event) (s_sig : State) :
  Interrupted w interval_str s sig before s_sig ->
  handlers s_sig = handlers s
  /\ cycle w interval_str s =
     let d := deliver w sig s_sig in
     mkRun (and_then (result d) tt) (before ++ events d) (final d).
Proof.
  intros [d Hr He Hp | d rot s1 Hr He Hp Hrot He2 Hp2].
  - split; [apply before_sleep_handlers|].
    rewrite cycle_run, Hr. cbv zeta.
    change (clock (before_sleep interval_str s)) with (sleep_moment interval_str s).
    now rewrite He, Hp.
  - split.
    { cbn [later handlers]. rewrite (rotation_done_handlers _ _ _ _ Hrot).
      apply before_sleep_handlers. }
    rewrite cycle_run, Hr. cbv zeta.
    change (clock (before_sleep interval_str s)) with (sleep_moment interval_str s).
    rewrite He, Hp.
    set (s0 := later 1 (before_sleep interval_str s)) in *.
    pose proof (change_ip_cases w s0) as shape.
    assert (Hshape : change_ip w s0 =
              let d := deliver w sig (later 1 s1) in
              mkRun (and_then (result d) None) (rot ++ events d) (final d)).
    { destruct Hrot as [(Hw & Hc & Hk & -> & ->) | (Hw & Ha & -> & ->)].
      - unfold change_ip. rewrite Hw. unfold bind at 1.
        rewrite service_action_run, Hw.
        unfold can_manage in Hc. rewrite Hw in Hc. cbn [orb] in Hc.
        destruct (detect_service_manager w); [|discriminate]. cbn [andb] in Hc.
        rewrite Hc, Hk. rewrite (sleep_then w 2 _ (later 1 s0) None), He2, Hp2.
        reflexivity.
      - clear shape. unfold change_ip. rewrite Hw.
        pose proof (change_ip_windows_shape w s0 Hw) as shape.
        remember (change_ip_windows w s0) as r eqn:Er.
        destruct shape as [code msg Hw' Hc Hm | Hw' Hc Hk | tail s' Hw' Ha' Ht
                          | rot' s1' e Hr' He' | rot' s1' sig' Hr' He' Hp'
                          | rot' s1' Hr' He' Hp']; try congruence.
        + destruct Hr' as [(Hw' & _) | (_ & _ & -> & ->)]; congruence.
        + destruct Hr' as [(Hw' & _) | (_ & _ & -> & ->)]; [congruence|].
          rewrite Hp2 in Hp'. now injection Hp' as <-.
        + destruct Hr' as [(Hw' & _) | (_ & _ & -> & ->)]; congruence. }
    rewrite Hshape. cbv zeta. cbn [result events final].
    pose proof (deliver_result w sig (later 1 s1)) as D.
    destruct (deliver w sig (later 1 s1)) as [[[]|e|g|] ev sf];
      cbn [result events final and_then report_events] in *; try contradiction;
      now rewrite app_nil_r.
Qed.

(** ** The loop after the startup *)

Lemma and_loop_ret (l : Run unit) (K : M unit) (s : State) :
  K s = l -> l = and_loop (mkRun (Ret tt) [] s) K.
Proof. intros <-. unfold and_loop. cbn. now destruct (K s). Qed.

Lemma bind_and_loop {A} (m : M A) (k k0 : A -> M unit) (K : M unit) (s : State) :
  (forall a s1, k a s1 = and_loop (k0 a s1) K) ->
  bind m k s = and_loop (bind m k0 s) K.
Proof.
  intro H. unfold bind.
  destruct (m s) as [[a|e|g|] ev s1]; try reflexivity.
  rewrite H. unfold and_loop.
  destruct (k0 a s1) as [[[]|e|g|] ev' s2]; cbn [result events final]; try reflexivity.
  cbv zeta. now rewrite app_assoc.
Qed.

(** A negative count: the loop runs no cycle and never looks at the
    interval. *)
Lemma loop_negative (w : World) (fuel : nat) (interval_str : string) (count : Z)
    (s : State) :
  count < 0 -> change_ip_repeatedly w fuel interval_str count s = mkRun (Ret tt) [] s.
Proof.
  intro H. unfold change_ip_repeatedly.
  destruct (Z.eqb_spec count 0); [lia|].
  destruct count; try lia. reflexivity.
Qed.

(** With none of the four flags, [main] is its startup, which is the same
    whatever the interval and the count, followed by the loop. *)
Lemma main_then_loop (w : World) (fuel : nat) (text text' : string)
    (count count' : Z) (s : State) :
  count' < 0 ->
  main w fuel (loop_args text count) s
  = and_loop (main w fuel (loop_args text' count') s)
      (change_ip_repeatedly w fuel text count).
Proof.
  intro Hc. unfold main.
  cbn [loop_args arg_stop arg_start_tor arg_ip arg_auto_fix arg_interval arg_count].
  repeat (apply bind_and_loop; intros ? ?).
  rewrite (loop_negative w fuel text' count' _ Hc).
  now apply and_loop_ret.
Qed.
(** ** The steps of an undisturbed cycle *)

Lemma answer_events_split (proxied : bool) (answer : option string) :
  (EGet ipify proxied
   :: match answer with
      | Some _ => []
      | None => [EPrint (alert_line (fetch_warning proxied))]
      end
   ++ report_events (Ret answer))%list
  = answer_events proxied answer.
Proof. unfold answer_events. destruct answer; reflexivity. Qed.

(** In a steady environment in which the service can be driven, a cycle
    whose delay can be slept either sleeps, completes the rotation, pauses,
    probes the daemon, asks the oracle and reports its answer, or, on
    Windows where the control port gave no acknowledgement, sleeps,
    attempts the rotation and ends without asking the oracle. *)
Lemma cycle_steps (w : World) (interval_str : string) (s : State) (d : Z) :
  steady w -> can_manage w = true ->
  resolve w (clock s) interval_str = Some d -> sleeps w d ->
  let s0 := later 1 (before_sleep interval_str s) in
  (exists rot s1 running,
      rotation_done w s0 rot s1
      /\ result (is_tor_running w (later 1 s1)) = Ret running
      /\ cycle w interval_str s =
         let p := is_tor_running w (later 1 s1) in
         let proxied := truthy_bool running in
         mkRun (Ret tt)
           (ESleep d :: rot ++ ESleep 2 :: events p
            ++ answer_events proxied (oracle_answer w (clock (final p)) proxied))
           (later 1 (final p)))
  \/ (on_windows w = true /\ newnym_acknowledged w (clock s0) = false
      /\ exists tail sf,
           cycle w interval_str s
           = mkRun (Ret tt) (ESleep d :: EConnect 9051 :: tail) sf
           /\ lacks is_cycle_event tail).
Proof.
  intros (Hq & Hs & Hf & Hz) Hc Hr Hd. cbv zeta.
  rewrite cycle_run, Hr. cbv zeta. rewrite (Hd _), Hq.
  set (s0 := later 1 (before_sleep interval_str s)).
  pose proof (change_ip_cases w s0) as shape.
  remember (change_ip w s0) as r eqn:Er. clear Er.
  destruct shape as [code msg Hw Hc' Hm | Hw Hc' Hk | tail s' Hw Ha Ht
                    | rot s1 e Hrot He | rot s1 sig Hrot He Hp | rot s1 Hrot He Hp].
  - congruence.
  - rewrite Hs in Hk. discriminate.
  - right. split; [exact Hw|]. split; [exact Ha|].
    exists tail, s'. cbn [result events final and_then report_events].
    now rewrite app_nil_r.
  - rewrite Hz in He. discriminate.
  - rewrite Hq in Hp. discriminate.
  - left. destruct (is_tor_running_returns w (later 1 s1) Hs) as [running Hrun].
    exists rot, s1, running. split; [exact Hrot|]. split; [exact Hrun|].
    cbv zeta. rewrite get_current_ip_run. cbv zeta. rewrite Hrun.
    cbn [result events final and_then].
    rewrite <- answer_events_split.
    set (warn := match oracle_answer w _ _ with Some _ => [] | None => _ end).
    f_equal. f_equal. rewrite <- !app_assoc. cbn [app]. f_equal. f_equal.
    rewrite <- app_assoc. reflexivity.
Qed.

(** The same off Windows, where the rotation is the reload command and
    the daemon probe gives no answer: the cycle sleeps, runs the reload
    command, complains if it failed, pauses, asks the oracle directly and
    reports its answer. *)
Lemma cycle_steps_posix (w : World) (interval_str : string) (s : State) (d : Z) :
  on_windows w = false -> steady w -> can_manage w = true ->
  resolve w (clock s) interval_str = Some d -> sleeps w d ->
  let t := sleep_moment interval_str s in
  let reload := service_cmd w "reload" in
  cycle w interval_str s =
  mkRun (Ret tt)
    (ESleep d :: ERun reload :: service_complaint "reload" (proc w (S t) reload)
     ++ ESleep 2 :: answer_events false (oracle_answer w (3 + t) false))
    (later 4 (before_sleep interval_str s)).
Proof.
  intros Hw Hst Hc Hr Hd. cbv zeta.
  destruct (cycle_steps w interval_str s d Hst Hc Hr Hd)
    as [(rot & s1 & running & Hrot & Hrun & E) | (Hw' & _)]; [|congruence].
  destruct Hrot as [(_ & _ & _ & -> & ->) | (Hw' & _)]; [|congruence].
  rewrite E. cbv zeta. rewrite is_tor_running_run, Hw in Hrun |- *.
  injection Hrun as <-. reflexivity.
Qed.

(** ** The loop as a sequence of cycles *)

Lemma for_range_cycles (w : World) (interval_str : string) (n : nat)
    (s s' : State) (trace : list Event) :
  Cycles w interval_str n s trace s' ->
  for_range n (guarded_cycle w interval_str) s = mkRun (Ret tt) trace s'.
Proof.
  intro H. pose proof (for_range_after w interval_str n s s' trace H 0) as E.
  rewrite Nat.add_0_r in E. rewrite E. cbn. now rewrite app_nil_r.
Qed.

Lemma while_true_cycles (w : World) (interval_str : string) (n : nat)
    (s s' : State) (trace : list Event) :
  Cycles w interval_str n s trace s' ->
  while_true n (guarded_cycle w interval_str) s = mkRun Running trace s'.
Proof.
  intro H. pose proof (while_true_after w interval_str n s s' trace H 0) as E.
  rewrite Nat.add_0_r in E. rewrite E. cbn. now rewrite app_nil_r.
Qed.

Lemma cycles_rotations (w : World) (interval_str : string) :
  steady w -> paced w interval_str -> can_manage w = true ->
  forall n s trace s',
    Cycles w interval_str n s trace s' -> count_events is_rotate trace = n.
Proof.
  intros Hst Hp Hc n s trace s' H.
  induction H as [s | n s s' trace Hr _ IH]; [reflexivity|].
  destruct (guarded_cycle_calm w interval_str s Hst Hp Hc) as [_ Hn].
  rewrite count_events_app, Hn, IH. reflexivity.
Qed.

(** The loop's next pass, after [n] completed cycles. *)
Lemma loop_next_cycle (w : World) (interval_str : string) (n : nat)
    (s s' : State) (trace : list Event) (fuel : nat) (count : Z) :
  Cycles w interval_str n s trace s' ->
  (count = 0 /\ (n < fuel)%nat) \/ (n < Z.to_nat count)%nat ->
  let c := guarded_cycle w interval_str s' in
  exists rest,
    events (change_ip_repeatedly w fuel interval_str count s)
    = (trace ++ events c ++ rest)%list
    /\ (match result c with Ret Next => True | _ => rest = [] end)
    /\ (match result c with
        | Ret Next => True
        | Ret Break => result (change_ip_repeatedly w fuel interval_str count s) = Ret tt
        | other =>
            result (change_ip_repeatedly w fuel interval_str count s)
            = and_then other tt
        end).
Proof.
  intros Hcy Hn. cbv zeta.
  rewrite (change_ip_repeatedly_after w interval_str n s s' trace fuel count Hcy)
    by (destruct Hn as [[? ?]|?]; [left | right]; lia).
  cbv zeta.
  assert (Hloop : exists m,
    (if count =? 0
     then while_true (fuel - n) (guarded_cycle w interval_str) s'
     else for_range (Z.to_nat count - n) (guarded_cycle w interval_str) s')
    = (if count =? 0
       then while_true (S m) (guarded_cycle w interval_str) s'
       else for_range (S m) (guarded_cycle w interval_str) s')).
  { destruct Hn as [[-> Hn]|Hn].
    - cbn [Z.eqb]. destruct (fuel - n)%nat as [|m] eqn:Em; [lia|]. now exists m.
    - destruct (Z.eqb_spec count 0) as [->|]; [cbn in Hn; lia|].
      destruct (Z.to_nat count - n)%nat as [|m] eqn:Em; [lia|]. now exists m. }
  destruct Hloop as [m ->].
  destruct (count =? 0); [rewrite while_true_S | rewrite for_range_S]; cbv zeta;
    destruct (result (guarded_cycle w interval_str s')) as [[]|e|g|];
    cbn [result events final and_then];
    try (eexists; split; [reflexivity|]; split; [exact I|exact I]);
    exists []; rewrite app_nil_r; repeat split; reflexivity.
Qed.
(** ** The sample environments *)

Lemma steady_linux_host : steady linux_host.
Proof.
  split; [intro; reflexivity|]. split; [intros ? ?; reflexivity|].
  split; [|intro; reflexivity].
  intros t a b H. cbn [randint linux_host].
  pose proof (Z.mod_pos_bound (Z.of_nat t * 37 + 11) (b + 1 - a)). lia.
Qed.

Lemma steady_with_proc (w : World) f : steady w -> steady (with_proc w f).
Proof. intro H. exact H. Qed.

Lemma steady_with_http (w : World) f : steady w -> steady (with_http w f).
Proof. intro H. exact H. Qed.

Lemma steady_with_files (w : World) f g : steady w -> steady (with_files w f g).
Proof. intro H. exact H. Qed.

(** Every delay up to a hundred years can be slept on the sample Linux
    host. *)
Lemma sleeps_linux_host (d : Z) : 0 <= d <= 3153600000 -> sleeps linux_host d.
Proof.
  intros H t. unfold sleep_error, sleep_max. cbn [sleep_refused linux_host].
  destruct (Z.ltb_spec d 0); [lia|].
  destruct (Z.ltb_spec 9223372036 d); [lia|].
  destruct (Z.ltb_spec 9223000000 d); [lia | reflexivity].
Qed.
(* ================================================================== *)
(** ** The builtins on sample texts *)
(* ================================================================== *)

Example int_plain : Py.int "60" = Some 60.
Proof. vm_compute. reflexivity. Qed.

Example int_padded : Py.int (" 6_0" ++ nl) = Some 60.
Proof. vm_compute. reflexivity. Qed.

Example int_signed : Py.int "-5" = Some (-5) /\ Py.int "+5" = Some 5.
Proof. split; vm_compute; reflexivity. Qed.

Example int_rejects :
  Py.int EmptyString = None /\ Py.int "1.5" = None /\ Py.int "5__0" = None
  /\ Py.int "_5" = None /\ Py.int "- 5" = None /\ Py.int "0x10" = None.
Proof. repeat split; vm_compute; reflexivity. Qed.

(** [int] skips the no-break space and the next-line character, however
    the text holds them, but not the separators FS..US. *)
Example int_unicode_blanks :
  Py.int (nbsp ++ "60") = Some 60 /\ Py.int (nel ++ "60") = Some 60
  /\ Py.int (nbsp_byte ++ "60") = Some 60
  /\ Py.int (String (ascii_of_nat 28) "60") = None.
Proof. repeat split; vm_compute; reflexivity. Qed.

(** [int] reads the decimal digits of every script. *)
Example int_unicode_digits : Py.int "٣٠" = Some 30 /\ Py.int "１２" = Some 12.
Proof. split; vm_compute; reflexivity. Qed.

(** [int] converts 4300 digits and refuses 4301, leading zeros
    included. *)
Example int_digit_limit :
  Py.int (repdigit 4300 "0") = Some 0 /\ Py.int (repdigit 4301 "0") = None
  /\ Py.int (repdigit 4301 "1") = None.
Proof. repeat split; vm_compute; reflexivity. Qed.

Example split_range : Py.split_once "-" "30-120" = ("30", "120").
Proof. reflexivity. Qed.

Example split_first_only : Py.split_once "-" "0--0" = ("0", "-0").
Proof. reflexivity. Qed.

Example strip_text :
  Py.strip ("  203.0.113.9" ++ nl) = "203.0.113.9"
  /\ Py.strip (nbsp ++ "203.0.113.9" ++ nel) = "203.0.113.9"
  /\ Py.strip (String (ascii_of_nat 28) "a b ") = "a b"
  /\ Py.strip ("  " ++ nl) = EmptyString.
Proof. repeat split; vm_compute; reflexivity. Qed.

(** [time.sleep] takes 9223372036 seconds at most, and the operating
    system of the sample host fewer. *)
Example sleep_limits :
  sleep_error linux_host 0 9223372037 = Some OverflowError
  /\ sleep_error linux_host 0 9223372036 = Some (OSError "[Errno 22] Invalid argument")
  /\ sleep_error linux_host 0 (-1) = Some ValueError
  /\ sleep_error linux_host 0 60 = None.
Proof. repeat split; vm_compute; reflexivity. Qed.
(* ================================================================== *)
(** ** The properties of the specification *)
(* ================================================================== *)

(** C10. Off Windows the daemon probe does nothing and answers nothing,
    so the IP query is the direct one, never the one through the proxy,
    whatever the process table and the SOCKS port say about the daemon. *)
Theorem probe_is_void_off_windows (w : World) (s : State) :
  on_windows w = false ->
  is_tor_running w s = mkRun (Ret None) [] s
  /\ get_current_ip w s = get_ip_direct w s
  /\ lacks is_proxied_fetch (events (get_current_ip w s)).
Proof.
  intro Hw.
  assert (Hp : is_tor_running w s = mkRun (Ret None) [] s).
  { rewrite is_tor_running_run, Hw. reflexivity. }
  assert (Hg : get_current_ip w s = get_ip_direct w s).
  { unfold get_current_ip. rewrite (bind_Ret _ _ _ _ _ _ Hp).
    cbn [truthy_bool app]. apply run_eta. }
  repeat split; auto.
  rewrite Hg, get_ip_direct_run. cbn [events].
  apply lacks_cons; [reflexivity|].
  destruct (oracle_answer w (clock s) false); [apply lacks_nil|].
  apply lacks_cons; [reflexivity | apply lacks_nil].
Qed.

Lemma probe_is_void_off_windows_witness :
  on_windows linux_host = false
  /\ In (Some "tor") (process_names linux_host 0)
  /\ get_current_ip linux_host boot = get_ip_direct linux_host boot.
Proof.
  split; [reflexivity|]. split; [right; left; reflexivity|].
  exact (proj1 (proj2 (probe_is_void_off_windows linux_host boot eq_refl))).
Defined.

(** C6, where the code departs from it. On the sample Linux host the
    daemon is up (it is in the process table and its SOCKS port accepts
    connections), yet [--ip] asks the oracle directly, not through the
    proxy, and prints the address seen without Tor. *)
Theorem ip_flag_ignores_running_daemon :
  let r := main linux_host 0 ip_args boot in
  In (Some "tor") (process_names linux_host 0)
  /\ sock_connect_ex linux_host 0 9050 = Some 0
  /\ result r = Ret tt
  /\ filter is_fetch (events r) = [EGet ipify false]
  /\ filter is_report (events r)
     = [EPrint (log_line ("Your IP address is: " ++ white ++ "203.0.113.9"))].
Proof.
  cbv zeta. split; [right; left; reflexivity|]. repeat split; vm_compute; reflexivity.
Qed.

(** C8. Every rotation cycle, the first included, runs in the order
    sleep, rotate, fetch, report.  In every environment: in the trace of a
    cycle a rotation attempt comes only after the sleep of the delay
    resolved for that cycle, a query of the IP Oracle only after a rotation
    attempt, and a reported address only after a query; and in the trace of
    the whole loop no rotation attempt comes before a sleep.  In a steady
    environment (no signal, no command that ends the script, sleeps
    granted) in which the service can be driven, the cycle performs the
    steps: it sleeps the resolved delay, carries out the rotation, pauses
    two seconds, probes the daemon, asks the oracle and prints the address
    it answers (a warning where it answers none), and returns; only on
    Windows, where the control port did not acknowledge the rotation, it
    ends after the attempt, without query or report.  The loop's first event
    is that sleep. *)
Theorem cycle_sleeps_rotates_fetches_reports
    (w : World) (interval_str : string) (s : State) :
  (let trace := events (cycle w interval_str s) in
   match resolve w (clock s) interval_str with
   | Some d => precedes (is_sleep_of d) is_rotate trace
   | None => lacks is_rotate trace
   end
   /\ precedes is_rotate is_fetch trace
   /\ precedes is_fetch is_report trace)
  /\ (forall fuel count,
        precedes is_sleep is_rotate
          (events (change_ip_repeatedly w fuel interval_str count s)))
  /\ (forall d,
        steady w -> can_manage w = true ->
        resolve w (clock s) interval_str = Some d -> sleeps w d ->
        let s0 := later 1 (before_sleep interval_str s) in
        ((exists rot s1 running,
            rotation_done w s0 rot s1
            /\ result (is_tor_running w (later 1 s1)) = Ret running
            /\ cycle w interval_str s =
               let p := is_tor_running w (later 1 s1) in
               let proxied := truthy_bool running in
               mkRun (Ret tt)
                 (ESleep d :: rot ++ ESleep 2 :: events p
                  ++ answer_events proxied (oracle_answer w (clock (final p)) proxied))
                 (later 1 (final p)))
         \/ (on_windows w = true /\ newnym_acknowledged w (clock s0) = false
             /\ exists tail sf,
                  cycle w interval_str s
                  = mkRun (Ret tt) (ESleep d :: EConnect 9051 :: tail) sf
                  /\ lacks is_cycle_event tail))
        /\ forall fuel count,
             0 < count \/ (count = 0 /\ (0 < fuel)%nat) ->
             exists rest,
               events (change_ip_repeatedly w fuel interval_str count s)
               = ESleep d :: rest).
Proof.
  split; [apply cycle_order|]. split.
  - intros fuel count.
    apply (change_ip_repeatedly_events (precedes is_sleep is_rotate)).
    + apply precedes_nil.
    + intros; now apply precedes_app.
    + apply cycle_sleeps_first.
  - intros d Hst Hc Hr Hd. cbv zeta.
    pose proof (cycle_steps w interval_str s d Hst Hc Hr Hd) as Steps.
    cbv zeta in Steps. split; [exact Steps|].
    intros fuel count Hn.
    destruct (loop_next_cycle w interval_str 0 s s [] fuel count
                (cycles_none w interval_str s)) as (rest & E & _).
    { destruct Hn as [Hn|[-> Hn]]; [right | left; split]; lia. }
    rewrite E, guarded_cycle_run. cbv zeta. cbn [events app].
    destruct Steps as [(rot & s1 & running & _ & _ & ->) | (_ & _ & tail & sf & -> & _)];
      cbn [events app]; eexists; reflexivity.
Qed.

Lemma cycle_sleeps_rotates_fetches_reports_witness :
  steady linux_host /\ can_manage linux_host = true
  /\ resolve linux_host 0 "60" = Some 60 /\ sleeps linux_host 60
  /\ exists rest,
       events (change_ip_repeatedly linux_host 0 "60" 10 boot) = ESleep 60 :: rest.
Proof.
  pose proof steady_linux_host as Hst.
  assert (Hsl : sleeps linux_host 60) by (intro; reflexivity).
  split; [exact Hst|]. split; [reflexivity|]. split; [reflexivity|].
  split; [exact Hsl|].
  apply (proj2 (proj2 (proj2 (cycle_sleeps_rotates_fetches_reports linux_host "60" boot))
                  60 Hst eq_refl eq_refl Hsl) 0%nat 10).
  left. reflexivity.
Defined.

(** C1, as the code has it. On Windows the IP Oracle is queried only
    after the control port acknowledged the NEWNYM command: in the trace of
    a cycle every oracle query comes after the acknowledgement, a cycle
    without acknowledgement makes no query and reports nothing, and a
    rotation that is not acknowledged returns no address.  On other
    platforms the reload's failure is only printed: wherever the reload
    command is run (the service can be driven), in a steady environment and
    with a delay that can be slept, the cycle sleeps, runs the reload
    command, prints a complaint if its return code is not zero, and in
    either case pauses two seconds, asks the oracle directly and prints the
    address it answers, or a warning where it answers none. *)
Theorem oracle_follows_rotation (w : World) (s : State) (interval_str : string) :
  (on_windows w = true ->
   (let trace := events (cycle w interval_str s) in
    precedes is_newnym_ack is_fetch trace
    /\ (lacks is_newnym_ack trace -> lacks is_fetch trace /\ lacks is_report trace))
   /\ (newnym_acknowledged w (clock s) = false ->
       result (change_ip w s) = Ret None
       /\ lacks is_fetch (events (change_ip w s))))
  /\ (on_windows w = false -> can_manage w = true -> steady w ->
      forall d,
        resolve w (clock s) interval_str = Some d -> sleeps w d ->
        let t := sleep_moment interval_str s in
        let reload := service_cmd w "reload" in
        cycle w interval_str s =
        mkRun (Ret tt)
          (ESleep d :: ERun reload
           :: service_complaint "reload" (proc w (S t) reload)
           ++ ESleep 2 :: answer_events false (oracle_answer w (3 + t) false))
          (later 4 (before_sleep interval_str s))).
Proof.
  split.
  - intro Hw. split.
    + cbv zeta.
      assert (Hp : precedes is_newnym_ack is_fetch (events (cycle w interval_str s))).
      { rewrite cycle_run.
        destruct (resolve w (clock s) interval_str) as [d|];
          [|apply precedes_lacks; now repeat constructor].
        cbv zeta.
        destruct (sleep_error w _ d) as [e|]; [apply precedes_nil|].
        destruct (pending_signal w _) as [sig|]; cbn [events].
        - apply precedes_lacks.
          pose proof (deliver_idle w sig
            (later 1 (before_sleep interval_str s))) as D.
          apply lacks_cycle_event in D. tauto.
        - set (s1 := later 1 _).
          change (ESleep d :: ?l)%list with ([ESleep d] ++ l)%list.
          apply precedes_app; [apply precedes_lacks; now repeat constructor|].
          apply precedes_app;
            [exact (ack_before_fetch w s1 _ (change_ip_cases w s1) Hw)|].
          apply precedes_lacks. now apply report_events_lacks. }
      split; [exact Hp|]. intro L.
      pose proof (precedes_none _ _ _ Hp L) as Lf. split; [exact Lf|].
      destruct (cycle_order w interval_str s) as (_ & _ & Hr).
      exact (precedes_none _ _ _ Hr Lf).
    + intro Hack. pose proof (change_ip_cases w s) as shape.
      remember (change_ip w s) as r eqn:Er. clear Er.
      destruct shape as [code msg Hw' Hc Hm | Hw' Hc Hk | tail s' Hw' Ha Ht
                        | rot s1 e Hr He | rot s1 sig Hr He Hp | rot s1 Hr He Hp];
        try congruence.
      * cbn [result events]. split; [reflexivity|].
        apply lacks_cycle_event in Ht.
        apply lacks_cons; [reflexivity | tauto].
      * destruct Hr as [(Hw' & _) | (_ & Ha & _)]; congruence.
      * destruct Hr as [(Hw' & _) | (_ & Ha & _)]; congruence.
      * destruct Hr as [(Hw' & _) | (_ & Ha & _)]; congruence.
  - intros Hw Hc Hst d Hr Hd. now apply cycle_steps_posix.
Qed.

Lemma oracle_follows_rotation_witness :
  (on_windows windows_desktop = true
   /\ newnym_acknowledged windows_desktop 0 = false
   /\ result (change_ip windows_desktop boot) = Ret None
   /\ lacks is_fetch (events (change_ip windows_desktop boot)))
  /\ (on_windows linux_failing_service = false
      /\ can_manage linux_failing_service = true
      /\ steady linux_failing_service
      /\ resolve linux_failing_service 0 "1" = Some 1
      /\ sleeps linux_failing_service 1
      /\ cycle linux_failing_service "1" boot =
         mkRun (Ret tt)
           [ESleep 1;
            ERun ["systemctl"; "reload"; "tor"];
            EPrint (alert_line "Failed to reload tor service: Job for tor.service failed.");
            ESleep 2;
            EGet ipify false;
            EPrint (log_line ("Your IP address is: " ++ white ++ "203.0.113.9"))]
           (later 4 boot)).
Proof.
  split.
  - split; [reflexivity|]. split; [reflexivity|].
    exact (proj2 (proj1 (oracle_follows_rotation windows_desktop boot "60") eq_refl)
             eq_refl).
  - assert (Hst : steady linux_failing_service).
    { apply steady_with_proc, steady_linux_host. }
    assert (Hsl : sleeps linux_failing_service 1) by (intro; reflexivity).
    split; [reflexivity|]. split; [reflexivity|]. split; [exact Hst|].
    split; [reflexivity|]. split; [exact Hsl|].
    exact (proj2 (oracle_follows_rotation linux_failing_service boot "1")
             eq_refl eq_refl Hst 1 eq_refl Hsl).
Defined.

(** C1 as stated fails off Windows: on the Linux host whose service
    commands fail, the cycle prints the reload's failure and still queries
    the oracle and reports the address. *)
Lemma failed_reload_still_queries_oracle :
  cycle linux_failing_service "1" boot =
  mkRun (Ret tt)
    [ESleep 1;
     ERun ["systemctl"; "reload"; "tor"];
     EPrint (alert_line "Failed to reload tor service: Job for tor.service failed.");
     ESleep 2;
     EGet ipify false;
     EPrint (log_line ("Your IP address is: " ++ white ++ "203.0.113.9"))]
    (later 4 boot).
Proof. vm_compute. reflexivity. Qed.

(** C2. In a steady environment (no signal, no command that ends the
    script, a sound random generator, sleeps granted), with an interval
    whose every delay can be slept and a service that can be driven: a
    negative count performs no cycle and returns at once; a count [k > 0]
    returns by itself after exactly [k] completed cycles, each with one
    rotation; a count of zero is still running after as many completed
    cycles as iterations were observed, however many are observed. *)
Theorem loop_runs_count_cycles
    (w : World) (interval_str : string) (count : Z) (fuel : nat) (s : State) :
  steady w -> paced w interval_str -> can_manage w = true ->
  let r := change_ip_repeatedly w fuel interval_str count s in
  (count < 0 -> r = mkRun (Ret tt) [] s)
  /\ (0 < count ->
      exists trace s',
        Cycles w interval_str (Z.to_nat count) s trace s'
        /\ r = mkRun (Ret tt) trace s'
        /\ count_events is_rotate trace = Z.to_nat count)
  /\ (count = 0 ->
      exists trace s',
        Cycles w interval_str fuel s trace s'
        /\ r = mkRun Running trace s'
        /\ count_events is_rotate trace = fuel).
Proof.
  intros Hst Hp Hc. cbn zeta.
  split; [|split]; intro Hk.
  - now apply loop_negative.
  - destruct (cycles_calm w interval_str Hst Hp Hc (Z.to_nat count) s)
      as (trace & s' & Hcy).
    exists trace, s'. split; [exact Hcy|]. split.
    + unfold change_ip_repeatedly. destruct (Z.eqb_spec count 0); [lia|].
      now apply for_range_cycles.
    + exact (cycles_rotations w interval_str Hst Hp Hc _ _ _ _ Hcy).
  - subst count.
    destruct (cycles_calm w interval_str Hst Hp Hc fuel s) as (trace & s' & Hcy).
    exists trace, s'. split; [exact Hcy|]. split.
    + unfold change_ip_repeatedly. cbn [Z.eqb]. now apply while_true_cycles.
    + exact (cycles_rotations w interval_str Hst Hp Hc _ _ _ _ Hcy).
Qed.

Lemma loop_runs_count_cycles_witness :
  steady linux_host /\ paced linux_host "30-120" /\ can_manage linux_host = true
  /\ exists trace s',
       Cycles linux_host "30-120" 3 boot trace s'
       /\ change_ip_repeatedly linux_host 0 "30-120" 3 boot = mkRun (Ret tt) trace s'
       /\ count_events is_rotate trace = 3%nat.
Proof.
  pose proof steady_linux_host as Hst.
  assert (Hp : paced linux_host "30-120").
  { exists 30, 120. split; [reflexivity|]. split; [lia|].
    intros d Hd. apply sleeps_linux_host. lia. }
  split; [exact Hst|]. split; [exact Hp|]. split; [reflexivity|].
  exact (proj1 (proj2 (loop_runs_count_cycles linux_host "30-120" 3 0 boot
                         Hst Hp eq_refl)) eq_refl).
Defined.

(** C3. A text that reads as the number [lo] resolves to [lo], without
    any draw.  A range whose parts read as [lo <= hi] resolves to what
    [random.randint(lo, hi)] returns at that moment: the delay is the
    library's draw itself, neither rejected nor mapped to another value, so
    that it lies in [lo, hi] and is spread over it as the library's draws
    are.  The text is resolved anew in every cycle of the loop: after any
    number of completed cycles, the next cycle sleeps the draw of the
    moment at which it starts; and in a steady environment any number of
    cycles does complete. *)
Theorem interval_resolution
    (w : World) (s : State) (first second : string) (lo hi : Z) :
  Py.has_char "-" first = false ->
  Py.int first = Some lo -> Py.int second = Some hi -> lo <= hi ->
  let range := first ++ String "-" second in
  parse_interval w first s = mkRun (Ret (Some lo)) [] s
  /\ parse_interval w range s
     = mkRun (Ret (Some (randint w (clock s) lo hi))) [] (later 1 s)
  /\ (fair w -> lo <= randint w (clock s) lo hi <= hi)
  /\ (forall fuel count n trace s',
        Cycles w range n s trace s' ->
        (count = 0 /\ (n < fuel)%nat) \/ (n < Z.to_nat count)%nat ->
        let d := randint w (clock s') lo hi in
        sleep_error w (S (clock s')) d = None ->
        pending_signal w (S (clock s')) = None ->
        exists rest,
          events (change_ip_repeatedly w fuel range count s)
          = (trace ++ ESleep d :: rest)%list)
  /\ (steady w -> paced w range -> can_manage w = true ->
      forall n, exists trace s', Cycles w range n s trace s').
Proof.
  intros Hh Hlo Hhi Hle range.
  assert (Hb : interval_bounds range = Some (lo, hi)).
  { unfold range. now rewrite (interval_bounds_split _ _ Hh), Hlo, Hhi. }
  assert (Hrange : forall t, resolve w t range = Some (randint w t lo hi)).
  { intro t. rewrite (resolve_bounds w t range lo hi Hb Hle).
    unfold range. now rewrite has_hyphen_after. }
  assert (Hbs : forall s0, before_sleep range s0 = later 1 s0).
  { intro s0. unfold before_sleep, range. now rewrite has_hyphen_after. }
  split; [|split; [|split; [|split]]].
  - rewrite parse_interval_run. unfold resolve, before_sleep.
    now rewrite Hh, Hlo.
  - now rewrite parse_interval_run, Hrange, Hbs.
  - intro Hf. now apply Hf.
  - intros fuel count n trace s' Hcy Hn d He Hp.
    destruct (loop_next_cycle w range n s s' trace fuel count Hcy Hn)
      as (rest & E & _).
    rewrite E, guarded_cycle_run, cycle_run, Hrange. cbv zeta.
    rewrite Hbs. change (clock (later 1 s')) with (S (clock s')).
    fold d. rewrite He, Hp. cbn [events app]. eexists. reflexivity.
  - intros Hst Hp Hc n. now apply cycles_calm.
Qed.

Lemma interval_resolution_witness :
  let w := linux_host in
  let first := guarded_cycle w "30-120" boot in
  (Py.has_char "-" "30" = false /\ Py.int "30" = Some 30 /\ Py.int "120" = Some 120
   /\ 30 <= 120)
  /\ parse_interval w "30-120" boot = mkRun (Ret (Some 41)) [] (later 1 boot)
  /\ Cycles w "30-120" 1 boot (events first ++ []) (final first)
  /\ (exists rest, events first = ESleep 41 :: rest)
  /\ (exists rest,
        events (change_ip_repeatedly w 0 "30-120" 10 boot)
        = ((events first ++ []) ++ ESleep 44 :: rest)%list).
Proof.
  cbv zeta.
  assert (Hle : 30 <= 120) by lia.
  pose proof (interval_resolution linux_host boot "30" "120" 30 120
                eq_refl eq_refl eq_refl Hle) as (_ & Hparse & _ & Hloop & _).
  cbv zeta in Hparse, Hloop.
  assert (Hcy : Cycles linux_host "30-120" 1 boot
                  (events (guarded_cycle linux_host "30-120" boot) ++ [])
                  (final (guarded_cycle linux_host "30-120" boot))).
  { apply cycles_more; [vm_compute; reflexivity | apply cycles_none]. }
  split; [repeat split; solve [reflexivity | exact Hle]|].
  split; [exact Hparse|]. split; [exact Hcy|].
  split; [eexists; vm_compute; reflexivity|].
  assert (Hn : (10 = 0 /\ (1 < 0)%nat) \/ (1 < Z.to_nat 10)%nat).
  { right. change (1 < 10)%nat. lia. }
  exact (Hloop 0%nat 10 1%nat _ _ Hcy Hn eq_refl eq_refl).
Defined.

(** C7. However the exchange with the IP Oracle goes, the fetch returns
    and never raises.  A response that is not an HTTP error gives the body
    without the blanks at its two ends: the characters of the body are
    blanks, then the characters of the address, which neither begins nor
    ends with a blank, then blanks.  A timeout, a connection error or an
    HTTP error status gives no value and is reported as a warning.  A cycle
    in which that warning was printed ends normally, so the loop goes on to
    the next cycle. *)
Theorem fetch_never_raises
    (w : World) (s : State) (proxied : bool) (interval_str : string) :
  (let fetch := if proxied then get_ip_via_tor w else get_ip_direct w in
   match http w (clock s) ipify proxied with
   | HttpResponse status text =>
       if (400 <=? status) && (status <? 600) then
         result (fetch s) = Ret None
         /\ events (fetch s)
            = [EGet ipify proxied; EPrint (alert_line (fetch_warning proxied))]
       else
         exists ip,
           result (fetch s) = Ret (Some ip)
           /\ trimmed_of text ip
           /\ events (fetch s) = [EGet ipify proxied]
   | HttpTimeout | HttpConnectionError =>
       result (fetch s) = Ret None
       /\ events (fetch s)
          = [EGet ipify proxied; EPrint (alert_line (fetch_warning proxied))]
   end)
  /\ (Exists (fun e => is_fetch_warning e = true)
        (events (guarded_cycle w interval_str s)) ->
      result (guarded_cycle w interval_str s) = Ret Next).
Proof.
  split.
  - cbv zeta.
    assert (H : (if proxied then get_ip_via_tor w else get_ip_direct w) s
                = mkRun (Ret (oracle_answer w (clock s) proxied))
                    (EGet ipify proxied ::
                     match oracle_answer w (clock s) proxied with
                     | Some _ => []
                     | None => [EPrint (alert_line (fetch_warning proxied))]
                     end) (later 1 s)).
    { destruct proxied; [apply get_ip_via_tor_run | apply get_ip_direct_run]. }
    rewrite H. unfold oracle_answer.
    destruct (http w (clock s) ipify proxied) as [status text| |]; cbn [result events];
      auto.
    destruct ((400 <=? status) && (status <? 600)); auto.
    exists (Py.strip text). pose proof (strip_trimmed_of text). auto.
  - rewrite guarded_cycle_run, cycle_run. cbv zeta.
    destruct (resolve w (clock s) interval_str) as [d|].
    + destruct (sleep_error w _ d) as [e|].
      { cbn [events]. intro Hex. inversion Hex. }
      destruct (pending_signal w _) as [sig|].
      * cbn [events]. intro Hex. exfalso. revert Hex. apply lacks_not_Exists.
        pose proof (deliver_idle w sig
          (later 1 (before_sleep interval_str s))) as D.
        apply lacks_cycle_event in D. tauto.
      * set (s1 := later 1 _). cbn [events result].
        intro Hex. inversion Hex as [? ? E|? ? E]; [discriminate|]. subst.
        apply Exists_app in E as [E|E].
        -- rewrite (rotation_warned w s1 _ (change_ip_cases w s1) E). reflexivity.
        -- exfalso. revert E. apply lacks_not_Exists.
           now apply report_events_lacks.
    + cbn [events]. intro Hex. exfalso.
      inversion Hex as [? ? E|? ? E]; [discriminate | inversion E].
Qed.

Lemma fetch_never_raises_witness :
  Exists (fun e => is_fetch_warning e = true)
    (events (guarded_cycle linux_offline "1" boot))
  /\ result (guarded_cycle linux_offline "1" boot) = Ret Next.
Proof.
  assert (H : Exists (fun e => is_fetch_warning e = true)
                (events (guarded_cycle linux_offline "1" boot))).
  { do 4 apply Exists_cons_tl. apply Exists_cons_hd. reflexivity. }
  split; [exact H|].
  exact (proj2 (fetch_never_raises linux_offline boot false "1") H).
Defined.

(** C4, as the code has it. For every malformed interval text (a text or
    a part of a range that is not a number, a range whose second number is
    less than its first, or a text with several hyphens other than a range
    from zero to minus zero) the parser rejects the text with status 8, and
    the loop exits the process with that status when its first cycle
    resolves the interval, before that cycle sleeps or rotates; with a
    negative count no cycle runs and the loop returns normally.  Nothing
    validates the interval before the loop: with none of the four flags
    [main] is its startup, the same whatever the interval and the count,
    followed by the loop; after a startup that returned, the error and the
    exit with status 8 come last, and with a negative count the program just
    does its startup. *)
Theorem malformed_interval_exits_in_first_cycle
    (w : World) (interval_str : string) (s : State) :
  Malformed interval_str ->
  interval_ok interval_str = false
  /\ (forall s0,
        parse_interval w interval_str s0
        = mkRun (Raise (SystemExit 8)) [EPrint (alert_line interval_error)] s0)
  /\ (forall fuel count s0,
        0 < count \/ (count = 0 /\ (0 < fuel)%nat) ->
        change_ip_repeatedly w fuel interval_str count s0
        = mkRun (Raise (SystemExit 8)) [EPrint (alert_line interval_error)] s0)
  /\ (forall fuel count s0,
        count < 0 ->
        change_ip_repeatedly w fuel interval_str count s0 = mkRun (Ret tt) [] s0)
  /\ (forall fuel count other_text negative,
        negative < 0 ->
        let startup := main w fuel (loop_args other_text negative) s in
        let r := main w fuel (loop_args interval_str count) s in
        r = and_loop startup (change_ip_repeatedly w fuel interval_str count)
        /\ (count < 0 -> r = startup)
        /\ (0 < count \/ (count = 0 /\ (0 < fuel)%nat) ->
            result startup = Ret tt ->
            r = mkRun (Raise (SystemExit 8))
                  (events startup ++ [EPrint (alert_line interval_error)])
                  (final startup))).
Proof.
  intro Hm. pose proof (malformed_rejected _ Hm) as Hr.
  assert (Hloop : forall fuel count s0,
            0 < count \/ (count = 0 /\ (0 < fuel)%nat) ->
            change_ip_repeatedly w fuel interval_str count s0
            = mkRun (Raise (SystemExit 8)) [EPrint (alert_line interval_error)] s0).
  { intros fuel count s0 Hc. unfold change_ip_repeatedly.
    destruct Hc as [Hc | [-> Hf]].
    - destruct (Z.eqb_spec count 0); [lia|].
      destruct (Z.to_nat count) as [|m] eqn:E; [lia|].
      rewrite for_range_S, (guarded_cycle_rejected w _ s0 Hr). reflexivity.
    - cbn [Z.eqb]. destruct fuel as [|n]; [lia|].
      rewrite while_true_S, (guarded_cycle_rejected w _ s0 Hr). reflexivity. }
  split; [exact Hr|]. split; [|split; [exact Hloop|split]].
  - intro s0. now rewrite parse_interval_run, (resolve_rejected _ _ _ Hr).
  - intros fuel count s0 Hc. now apply loop_negative.
  - intros fuel count other_text negative Hneg. cbv zeta.
    pose proof (main_then_loop w fuel interval_str other_text count negative s Hneg)
      as E.
    split; [exact E|]. split.
    + intro Hc. rewrite E. unfold and_loop.
      destruct (main w fuel (loop_args other_text negative) s) as [[[]|e|g|] ev sf];
        cbn [result events final]; try reflexivity.
      rewrite (loop_negative w fuel interval_str count sf Hc). cbn.
      now rewrite app_nil_r.
    + intros Hc Hs. rewrite E. unfold and_loop. rewrite Hs.
      now rewrite (Hloop fuel count _ Hc).
Qed.

Lemma malformed_interval_exits_in_first_cycle_witness :
  Malformed "10-05"
  /\ change_ip_repeatedly linux_host 0 "10-05" 10 boot
     = mkRun (Raise (SystemExit 8)) [EPrint (alert_line interval_error)] boot
  /\ exit_of (result (main linux_host 0 (loop_args "10-05" 10) boot)) = Exited 8.
Proof.
  assert (H : Malformed "10-05").
  { apply (reversed_range "10" "05" 10 5); reflexivity. }
  pose proof (malformed_interval_exits_in_first_cycle linux_host "10-05" boot H)
    as (_ & _ & Hloop & _ & Hmain).
  split; [exact H|]. split.
  - apply Hloop. left. reflexivity.
  - assert (Hneg : -1 < 0) by lia.
    destruct (Hmain 0%nat 10 "60" (-1) Hneg) as (_ & _ & Hexit).
    cbv zeta in Hexit. rewrite Hexit; [reflexivity | left; reflexivity |].
    vm_compute. reflexivity.
Defined.

(** C4 as stated fails: with a malformed interval and a negative count
    the program starts the daemon, pauses, enters the loop and ends with
    status 0; the interval was never validated. *)
Lemma malformed_interval_not_checked_at_startup :
  Malformed "abc"
  /\ let r := main linux_host 0 (loop_args "abc" (-1)) boot in
     exit_of (result r) = Exited 0
     /\ count_events is_alert (events r) = 0%nat
     /\ Exists (fun e => e = ERun ["systemctl"; "start"; "tor"]) (events r).
Proof.
  split; [apply not_a_number; reflexivity|].
  cbv zeta. split; [vm_compute; reflexivity|]. split; [vm_compute; reflexivity|].
  do 7 apply Exists_cons_tl. apply Exists_cons_hd. reflexivity.
Qed.

(** C5, as the code has it. With [--stop], wherever the service can be
    driven (on Windows, or with a service manager and root or sudo) and the
    command that stops the daemon does not end the script, the program makes
    one attempt to stop the daemon and one to stop earlier runs of the tool,
    whatever these commands answer, and ends with status 0, unless there is
    a [pkill] and its pattern matches the script itself: then SIGTERM ends
    the script, and the last line is not printed.  Without a service
    manager it exits with status 3, and with one but neither root nor sudo
    with status 2, in both cases without running any command. *)
Theorem stop_flag_exit_status (w : World) (fuel : nat) (args : Args) (s : State) :
  arg_stop args = true ->
  let r := main w fuel args s in
  let t := clock s in
  (can_manage w = true -> stop_kills w t = false ->
   exit_of (result r)
   = (if pkill_kills w (S t) then BySignal SIGTERM else Exited 0)
   /\ count_events is_daemon_stop (events r) = 1%nat
   /\ count_events is_pkill (events r) = 1%nat
   /\ filter is_alert (events r) = stop_alerts w t
   /\ events r
      = (setup_events w ++ daemon_stop_events w t
         ++ ERun pkill_cmd
         :: (if pkill_kills w (S t) then [] else [EPrint stopped_line]))%list)
  /\ (on_windows w = false -> detect_service_manager w = None ->
      exit_of (result r) = Exited 3
      /\ events r = (setup_events w ++ [EPrint (alert_line no_manager_error)])%list)
  /\ (on_windows w = false -> detect_service_manager w <> None ->
      is_root w || has_sudo w = false ->
      exit_of (result r) = Exited 2
      /\ events r = (setup_events w ++ [EPrint (alert_line no_sudo_error)])%list).
Proof.
  intro Ha. cbv zeta. unfold main.
  rewrite (bind_Ret _ _ _ _ _ _ (setup_signal_handlers_run w s)), Ha.
  destruct (setup_events_plain w) as (_ & S1 & S2 & S3).
  change (clock (with_handlers w s)) with (clock s).
  split; [|split].
  - intros Hc Hk. rewrite (stop_services_can_manage w _ Hc). unfold stop_run.
    change (clock (with_handlers w s)) with (clock s). rewrite Hk.
    cbn [result events final].
    destruct (stop_events_facts w (clock s)) as (C1 & C2 & C3 & _).
    rewrite !count_events_app, filter_app, C1, C2, C3,
      (lacks_count _ _ S1), (lacks_count _ _ S2), (lacks_filter _ _ S3).
    repeat split. now destruct (pkill_kills w (S (clock s))).
  - intros Hw Hd. rewrite stop_services_run, Hw, Hd. split; reflexivity.
  - intros Hw Hd Hp. rewrite stop_services_run, Hw.
    destruct (detect_service_manager w); [|congruence].
    rewrite Hp. split; reflexivity.
Qed.

Lemma stop_flag_exit_status_witness :
  arg_stop stop_args = true
  /\ (can_manage linux_stop_fails = true /\ stop_kills linux_stop_fails 0 = false
      /\ exit_of (result (main linux_stop_fails 0 stop_args boot)) = Exited 0
      /\ filter is_alert (events (main linux_stop_fails 0 stop_args boot))
         = [EPrint (alert_line "Failed to stop tor service: Job for tor.service failed.")])
  /\ (can_manage linux_self_match = true /\ stop_kills linux_self_match 0 = false
      /\ exit_of (result (main linux_self_match 0 stop_args boot)) = BySignal SIGTERM)
  /\ (on_windows linux_no_sudo = false /\ detect_service_manager linux_no_sudo <> None
      /\ is_root linux_no_sudo || has_sudo linux_no_sudo = false
      /\ exit_of (result (main linux_no_sudo 0 stop_args boot)) = Exited 2).
Proof.
  split; [reflexivity|]. split; [|split].
  - split; [reflexivity|]. split; [reflexivity|].
    destruct (proj1 (stop_flag_exit_status linux_stop_fails 0 stop_args boot eq_refl)
                eq_refl eq_refl) as (H1 & _ & _ & H2 & _).
    split; [exact H1 | exact H2].
  - split; [reflexivity|]. split; [reflexivity|].
    exact (proj1 (proj1 (stop_flag_exit_status linux_self_match 0 stop_args boot eq_refl)
                    eq_refl eq_refl)).
  - assert (Hd : detect_service_manager linux_no_sudo <> None) by discriminate.
    split; [reflexivity|]. split; [exact Hd|]. split; [reflexivity|].
    exact (proj1 (proj2 (proj2 (stop_flag_exit_status linux_no_sudo 0 stop_args boot
                                  eq_refl)) eq_refl Hd eq_refl)).
Defined.

(** C5 as stated fails: in a container with neither systemd nor a
    [service] command, [--stop] exits with status 3 and never tries to
    stop earlier runs of the tool. *)
Lemma stop_flag_can_exit_3 :
  let r := main bare_container 0 stop_args boot in
  exit_of (result r) = Exited 3
  /\ count_events is_pkill (events r) = 0%nat.
Proof. cbv zeta. split; vm_compute; reflexivity. Qed.

(** C9, as the code has it. When a signal whose handler is installed
    reaches the loop in one of its sleeps (the delay before a rotation or
    the pause after it), after any number of completed cycles, the loop
    attempts no further cycle: the handler runs where the cycle stood, and
    what follows in the trace has no sleep, rotation, oracle query or
    report.  Where the service can be driven and the command that stops the
    daemon does not end the script, the cleanup runs exactly once (one
    attempt to stop the daemon, one to stop earlier runs), whatever its
    commands answer; a failure is not always silent: the warnings of the
    cleanup are the complaint about a stop command that returned an error
    (off Windows) or about a [taskkill] that could not be run (on Windows),
    and only the failure of [pkill] leaves no trace; the process then exits
    with status 0, unless there is a [pkill] and its pattern matches the
    script itself: then SIGTERM ends the script.  Where the service cannot
    be driven, the handler prints the fatal error and exits with status 3
    (no service manager) or 2 (neither root nor sudo). *)
Theorem interrupt_ends_loop_after_cleanup
    (w : World) (interval_str : string) (n : nat) (s s' : State)
    (trace before : list Event) (sig : Signal) (s_sig : State)
    (fuel : nat) (count : Z) :
  Cycles w interval_str n s trace s' ->
  Interrupted w interval_str s' sig before s_sig ->
  existsb (Signal_eqb sig) (handlers s') = true ->
  (count = 0 /\ (n < fuel)%nat) \/ (n < Z.to_nat count)%nat ->
  let r := change_ip_repeatedly w fuel interval_str count s in
  let t := clock s_sig in
  (can_manage w = true -> stop_kills w t = false ->
   exists cleanup,
     events r
     = (trace ++ before ++ EPrint (received_line w sig) :: cleanup)%list
     /\ lacks is_cycle_event cleanup
     /\ count_events is_daemon_stop cleanup = 1%nat
     /\ count_events is_pkill cleanup = 1%nat
     /\ filter is_alert cleanup = stop_alerts w t
     /\ exit_of (result r)
        = (if pkill_kills w (S t) then BySignal SIGTERM else Exited 0))
  /\ (can_manage w = false ->
      events r
      = (trace ++ before
         ++ [EPrint (received_line w sig);
             EPrint (alert_line (match detect_service_manager w with
                                 | None => no_manager_error
                                 | Some _ => no_sudo_error
                                 end))])%list
      /\ exit_of (result r)
         = Exited (match detect_service_manager w with None => 3 | Some _ => 2 end)).
Proof.
  intros Hcy Hint Hh Hn. cbv zeta.
  destruct (cycle_interrupted w interval_str s' sig before s_sig Hint) as [Hhs Ec].
  cbv zeta in Ec.
  destruct (loop_next_cycle w interval_str n s s' trace fuel count Hcy Hn)
    as (rest & E & Hrest & Hres).
  rewrite guarded_cycle_run in E, Hrest, Hres. cbv zeta in E, Hrest, Hres.
  cbn [result events] in E, Hrest, Hres. rewrite Ec in E, Hrest, Hres.
  cbn [result events] in E, Hrest, Hres.
  rewrite deliver_unfold, Hhs, Hh in E, Hrest, Hres.
  split.
  - intros Hc Hk.
    rewrite (signal_handler_spared w sig s_sig Hc Hk) in E, Hrest, Hres.
    cbn [result events and_then] in E, Hrest, Hres.
    destruct (stop_events_facts w (clock s_sig)) as (C1 & C2 & C3 & L).
    exists (stop_events w (clock s_sig)
            ++ (if pkill_kills w (S (clock s_sig)) then [] else [EPrint terminated_line]))%list.
    assert (Hrest' : rest = []).
    { now destruct (pkill_kills w (S (clock s_sig))). }
    subst rest. rewrite app_nil_r in E.
    split; [exact E|].
    rewrite !count_events_app, filter_app, C1, C2, C3.
    split; [|split; [|split; [|split]]].
    + apply lacks_app; [exact L|].
      destruct (pkill_kills w _); [apply lacks_nil|].
      apply lacks_cons; [reflexivity | apply lacks_nil].
    + now destruct (pkill_kills w _).
    + now destruct (pkill_kills w _).
    + destruct (pkill_kills w _); cbn; now rewrite app_nil_r.
    + destruct (pkill_kills w (S (clock s_sig)));
        cbn [and_then] in Hres; now rewrite Hres.
  - intro Hc.
    rewrite (signal_handler_unmanaged w sig s_sig Hc) in E, Hrest, Hres.
    destruct (detect_service_manager w);
      cbn [result events and_then] in E, Hrest, Hres; subst rest;
      rewrite app_nil_r in E; rewrite Hres; split; auto.
Qed.

Lemma interrupt_ends_loop_after_cleanup_witness :
  let w := interrupted linux_stop_fails 2 in
  Cycles w "60" 0 armed [] armed
  /\ Interrupted w "60" armed SIGINT [ESleep 60; ERun ["systemctl"; "reload"; "tor"]]
       (later 3 armed)
  /\ exit_of (result (change_ip_repeatedly w 0 "60" 10 armed)) = Exited 0
  /\ events (change_ip_repeatedly w 0 "60" 10 armed)
     = [ESleep 60; ERun ["systemctl"; "reload"; "tor"];
        EPrint (log_line "Received SIGINT (Ctrl+C)");
        ERun ["systemctl"; "stop"; "tor"];
        EPrint (alert_line "Failed to stop tor service: Job for tor.service failed.");
        ERun pkill_cmd;
        EPrint stopped_line;
        EPrint terminated_line].
Proof.
  cbv zeta.
  pose proof (cycles_none (interrupted linux_stop_fails 2) "60" armed) as Hcy.
  assert (Hint : Interrupted (interrupted linux_stop_fails 2) "60" armed SIGINT
                   [ESleep 60; ERun ["systemctl"; "reload"; "tor"]] (later 3 armed)).
  { apply (in_the_pause _ "60" armed SIGINT 60
             [ERun ["systemctl"; "reload"; "tor"]] (later 2 armed));
      try reflexivity.
    left. repeat split; reflexivity. }
  split; [exact Hcy|]. split; [exact Hint|].
  assert (Hn : (10 = 0 /\ (0 < 0)%nat) \/ (0 < Z.to_nat 10)%nat).
  { right. change (0 < 10)%nat. lia. }
  destruct (proj1 (interrupt_ends_loop_after_cleanup (interrupted linux_stop_fails 2)
                     "60" 0 armed armed [] _ SIGINT _ 0 10 Hcy Hint eq_refl Hn)
              eq_refl eq_refl)
    as (cleanup & He & _ & _ & _ & _ & Hx).
  split; [exact Hx|]. vm_compute. reflexivity.
Defined.

(** C9 as stated fails on "silently": when the stop command fails during
    the cleanup of an interrupt, the failure is printed as a warning. *)
Lemma cleanup_failure_is_reported :
  let r := main (interrupted linux_stop_fails 3) 0 (loop_args "60" 10) boot in
  exit_of (result r) = Exited 0
  /\ filter is_alert (events r)
     = [EPrint (alert_line "Failed to stop tor service: Job for tor.service failed.")].
Proof. cbv zeta. split; vm_compute; reflexivity. Qed.
(* ================================================================== *)
(** ** Further properties of the script *)
(* ================================================================== *)

(** *** The interval *)








(** *** Signals *)





(** *** Running commands *)



(** *** Package managers *)





(** *** Computations that settle *)










(** *** Installing what is missing *)








(** *** Looking for the daemon's program *)











(** *** Starting up *)












(** *** Asking for the address *)



(** *** Windows *)

















(** *** Handlers and startup *)




